(** * android/a2dp.c : the A2DP source-side profile coordinator

    A shallow embedding of the coordinator of [android/a2dp.c]: the SBC
    configuration validator, the preset parser of the audio IPC, the
    endpoint registry, the device table with its connection state and the
    setup list together with the AVDTP indication and confirmation
    callbacks.

    Conventions of the embedding.
    - C integers are [Z]; every conversion to a narrower type is written
      out ([to_uint8], [to_int8], [to_uint16]).
    - Objects allocated with [g_new0] and addressed through pointers that
      other objects keep (devices, endpoints) live in a store, a [gmap]
      from addresses to records; [g_free] deletes the cell.  A new
      object gets the allocation mark [brk], which only grows, so an
      address is never given out twice.  Reading through a pointer whose
      cell is gone has no defined behaviour in C: every handler
      therefore returns an [option], and [None] stands for such an
      execution.
    - The GLib lists [devices], [endpoints] and [setups] are Rocq lists;
      the first two hold addresses, the last one holds the setup records
      themselves and a setup is designated by its position in the list.
    - Presets are kept by value: the blobs are never written after
      their creation, and their release ([preset_free]) leaves no mark
      on the state.
    - Whatever the AVDTP engine, BtIO or the IPC layer return to the
      coordinator is an argument of the handler that consumes it;
      whatever the coordinator sends out is appended to [trace]. *)

From Stdlib Require Import ZArith List Lia Bool.
From stdpp Require Import base option list gmap.
Import ListNotations.

Local Open Scope Z_scope.

(** ** Integer conversions *)

Definition to_uint8 (z : Z) : Z := z mod 256.

Definition to_uint16 (z : Z) : Z := z mod 65536.

Definition to_int8 (z : Z) : Z :=
  let m := z mod 256 in if m <? 128 then m else m - 256.

Definition EINVAL : Z := 22.

(** ** Constants of the headers *)

(** Modelled from the spec: the macros of [hal-msg.h], [audio-msg.h],
    [avdtp.h] and [a2dp-codecs.h] are missing.  The specification gives
    the connection states as 0 = Disconnected, 1 = Connecting,
    2 = Connected, 3 = Disconnecting; the status and operation codes and
    the capability categories are the ones of the HAL protocol and of
    AVDTP, and nothing below depends on more than their being
    distinct. *)

Definition HAL_A2DP_STATE_DISCONNECTED : Z := 0.
Definition HAL_A2DP_STATE_CONNECTING : Z := 1.
Definition HAL_A2DP_STATE_CONNECTED : Z := 2.
Definition HAL_A2DP_STATE_DISCONNECTING : Z := 3.

Definition HAL_STATUS_SUCCESS : Z := 0.
Definition HAL_STATUS_FAILED : Z := 1.
Definition HAL_OP_A2DP_CONNECT : Z := 1.
Definition HAL_OP_A2DP_DISCONNECT : Z := 2.

Definition AUDIO_STATUS_SUCCESS : Z := 0.
Definition AUDIO_STATUS_FAILED : Z := 1.
Definition AUDIO_OP_OPEN : Z := 1.
Definition AUDIO_OP_CLOSE : Z := 2.
Definition AUDIO_OP_OPEN_STREAM : Z := 3.
Definition AUDIO_OP_CLOSE_STREAM : Z := 4.
Definition AUDIO_OP_RESUME_STREAM : Z := 5.
Definition AUDIO_OP_SUSPEND_STREAM : Z := 6.

Definition AVDTP_MEDIA_TRANSPORT : Z := 1.
Definition AVDTP_MEDIA_CODEC : Z := 7.
Definition AVDTP_DELAY_REPORTING : Z := 8.
Definition AVDTP_SEP_NOT_IN_USE : Z := 19.

Definition A2DP_CODEC_SBC : Z := 0.

(** ** Presets *)

(** [struct a2dp_preset]: a blob and its length, an [int8_t]. *)
Record a2dp_preset := mk_preset {
  p_data : list Z;
  p_len : Z
}.

(** ** The SBC validator *)

(** Modelled from the spec: the type [a2dp_sbc_t] of [a2dp-codecs.h] is
    missing.  The specification describes a 4-byte structure with a
    sampling frequency (4 bits), a channel mode (4 bits), a block length
    (4 bits), subbands (2 bits), an allocation method (2 bits) and the two
    bitpool bytes; the bit fields are laid out as on a little-endian
    target, low bits first. *)
Record a2dp_sbc_t := mk_sbc {
  channel_mode : Z;
  frequency : Z;
  allocation_method : Z;
  subbands : Z;
  block_length : Z;
  min_bitpool : Z;
  max_bitpool : Z
}.

Definition sizeof_a2dp_sbc_t : Z := 4.

Definition byte_at (i : nat) (b : list Z) : Z := nth i b 0.

(** The cast [(a2dp_sbc_t * ) blob]. *)
Definition as_a2dp_sbc_t (b : list Z) : a2dp_sbc_t :=
  {| channel_mode := Z.land (byte_at 0 b) 15;
     frequency := Z.land (Z.shiftr (byte_at 0 b) 4) 15;
     allocation_method := Z.land (byte_at 1 b) 3;
     subbands := Z.land (Z.shiftr (byte_at 1 b) 2) 3;
     block_length := Z.land (Z.shiftr (byte_at 1 b) 4) 15;
     min_bitpool := byte_at 2 b;
     max_bitpool := byte_at 3 b |}.

(** [sbc_check_config]: [caps_len] and [conf_len] are [uint8_t]
    parameters, the callers convert.  The result is [0] or [-EINVAL]. *)
Definition sbc_check_config (caps : list Z) (caps_len : Z)
    (conf : list Z) (conf_len : Z) : Z :=
  if negb (conf_len =? caps_len) || negb (conf_len =? sizeof_a2dp_sbc_t)
  then - EINVAL
  else
    let cap := as_a2dp_sbc_t caps in
    let config := as_a2dp_sbc_t conf in
    if Z.land (frequency cap) (frequency config) =? 0 then - EINVAL
    else if Z.land (channel_mode cap) (channel_mode config) =? 0 then - EINVAL
    else if Z.land (block_length cap) (block_length config) =? 0 then - EINVAL
    else if Z.land (allocation_method cap) (allocation_method config) =? 0
    then - EINVAL
    else 0.

(** [check_capabilities], the validator dispatch used on the local
    selection path: the remote capability blob is the mask, the preset the
    candidate. *)
Definition check_capabilities (preset : a2dp_preset)
    (media_codec_type : Z) (codec_data : list Z) (codec_len : Z) : Z :=
  if media_codec_type =? A2DP_CODEC_SBC
  then sbc_check_config codec_data (to_uint8 codec_len)
         (p_data preset) (to_uint8 (p_len preset))
  else - EINVAL.

(** ** Objects and the coordinator state *)

(** Addresses returned by [g_new0] are natural numbers; a [bdaddr_t],
    six bytes, is a list of bytes. *)

(** [struct a2dp_endpoint].  [e_sep] is what [avdtp_register_sep]
    returned ([None] for [NULL]); the capabilities and the preferred
    presets are kept by value. *)
Record a2dp_endpoint := mk_endpoint {
  e_id : Z;
  e_codec : Z;
  e_sep : option nat;
  e_caps : a2dp_preset;
  e_presets : list a2dp_preset
}.

(** [struct a2dp_device].  [d_io] and [d_session] are the handles of the
    L2CAP channel and of the AVDTP session, [None] for [NULL]. *)
Record a2dp_device := mk_device {
  d_dst : list Z;
  d_state : Z;
  d_io : option nat;
  d_session : option nat
}.

(** [struct a2dp_setup]: [s_dev] and [s_endpoint] are pointers. *)
Record a2dp_setup := mk_setup {
  s_dev : nat;
  s_endpoint : nat;
  s_preset : a2dp_preset;
  s_stream : nat
}.

(** What the coordinator sends to its collaborators. *)
Inductive output :=
| ipc_send_notif (bdaddr : list Z) (state : Z)
| ipc_send_rsp (opcode status : Z)
| audio_ipc_send_rsp (opcode status : Z)
| audio_rsp_open (id : Z)
| audio_rsp_open_stream (preset_len : Z) (preset_data : list Z)
| avdtp_unref (session : nat)
| avdtp_shutdown (session : option nat)
| avdtp_unregister_sep (sep : nat)
| avdtp_call_close (session : option nat) (stream : nat)
| avdtp_call_start (session : option nat) (stream : nat)
| avdtp_call_suspend (session : option nat) (stream : nat)
| avdtp_call_open (session : option nat) (stream : nat)
| avdtp_call_set_configuration (session : option nat) (sep : option nat)
    (codec : Z) (config : list Z)
| avdtp_stream_set_transport (stream : nat)
| g_io_channel_shutdown (io : nat)
| g_io_channel_unref (io : nat)
| set_configuration_cb (session : option nat) (stream : nat)
    (err : option Z).

(** The four process-wide collections and the stores.  [ep_mem] holds
    the endpoints whose capability and preset blobs are allocated.
    [ep_released] holds the endpoint records whose blobs have been
    released while the record itself stays allocated (the [id == 0] path
    of [bt_audio_open]): the fields of such a record can be read, and so
    can the nodes of its preset list, but the pointers in [e_caps] and
    [e_presets] dangle and the blobs behind them cannot. *)
Record coordinator := mk_coordinator {
  dev_mem : gmap nat a2dp_device;
  ep_mem : gmap nat a2dp_endpoint;
  ep_released : gmap nat a2dp_endpoint;
  devices : list nat;
  endpoints : list nat;
  setups : list a2dp_setup;
  brk : nat;
  trace : list output
}.

Definition coordinator_init : coordinator :=
  {| dev_mem := ∅; ep_mem := ∅; ep_released := ∅; devices := [];
     endpoints := []; setups := []; brk := 1%nat; trace := [] |}.

Definition emit (o : output) (c : coordinator) : coordinator :=
  {| dev_mem := dev_mem c; ep_mem := ep_mem c;
     ep_released := ep_released c; devices := devices c;
     endpoints := endpoints c; setups := setups c; brk := brk c;
     trace := trace c ++ [o] |}.

Definition set_dev_mem (m : gmap nat a2dp_device) (c : coordinator)
    : coordinator :=
  {| dev_mem := m; ep_mem := ep_mem c; ep_released := ep_released c;
     devices := devices c; endpoints := endpoints c; setups := setups c;
     brk := brk c; trace := trace c |}.

Definition set_ep_mem (m : gmap nat a2dp_endpoint) (c : coordinator)
    : coordinator :=
  {| dev_mem := dev_mem c; ep_mem := m; ep_released := ep_released c;
     devices := devices c; endpoints := endpoints c; setups := setups c;
     brk := brk c; trace := trace c |}.

Definition set_ep_released (m : gmap nat a2dp_endpoint) (c : coordinator)
    : coordinator :=
  {| dev_mem := dev_mem c; ep_mem := ep_mem c; ep_released := m;
     devices := devices c; endpoints := endpoints c; setups := setups c;
     brk := brk c; trace := trace c |}.

(** The endpoint records that can be read, with or without their
    blobs.  This is what the code reads when it looks at [endpoint->id],
    [endpoint->codec] or [endpoint->sep] only. *)
Definition ep_structs (c : coordinator) : gmap nat a2dp_endpoint :=
  ep_mem c ∪ ep_released c.

Arguments ep_structs : simpl never.

Definition set_devices (l : list nat) (c : coordinator) : coordinator :=
  {| dev_mem := dev_mem c; ep_mem := ep_mem c;
     ep_released := ep_released c; devices := l;
     endpoints := endpoints c; setups := setups c; brk := brk c;
     trace := trace c |}.

Definition set_endpoints (l : list nat) (c : coordinator) : coordinator :=
  {| dev_mem := dev_mem c; ep_mem := ep_mem c;
     ep_released := ep_released c; devices := devices c;
     endpoints := l; setups := setups c; brk := brk c;
     trace := trace c |}.

Definition set_setups (l : list a2dp_setup) (c : coordinator)
    : coordinator :=
  {| dev_mem := dev_mem c; ep_mem := ep_mem c;
     ep_released := ep_released c; devices := devices c;
     endpoints := endpoints c; setups := l; brk := brk c;
     trace := trace c |}.

Definition bump_brk (c : coordinator) : coordinator :=
  {| dev_mem := dev_mem c; ep_mem := ep_mem c;
     ep_released := ep_released c; devices := devices c;
     endpoints := endpoints c; setups := setups c; brk := S (brk c);
     trace := trace c |}.

(** The CONN_STATE notifications of a trace, in order. *)
Definition conn_state_notifs (t : list output) : list (list Z * Z) :=
  omap (fun o => match o with
                 | ipc_send_notif a s => Some (a, s)
                 | _ => None
                 end) t.

(** ** GLib lists *)

(** [g_slist_remove]: drops the first node that holds [x]. *)
Fixpoint g_slist_remove (l : list nat) (x : nat) : list nat :=
  match l with
  | [] => []
  | y :: l' => if decide (y = x) then l' else y :: g_slist_remove l' x
  end.

(** ** Devices *)

Definition set_d_state (s : Z) (d : a2dp_device) : a2dp_device :=
  {| d_dst := d_dst d; d_state := s; d_io := d_io d;
     d_session := d_session d |}.

Definition set_d_io (io : option nat) (d : a2dp_device) : a2dp_device :=
  {| d_dst := d_dst d; d_state := d_state d; d_io := io;
     d_session := d_session d |}.

Definition set_d_session (s : option nat) (d : a2dp_device) : a2dp_device :=
  {| d_dst := d_dst d; d_state := d_state d; d_io := d_io d;
     d_session := s |}.

(** [g_slist_find_custom (devices, dst, device_cmp)]: the first device of
    the list whose address is [dst]; every node visited is read. *)
Fixpoint find_device (m : gmap nat a2dp_device) (l : list nat)
    (dst : list Z) : option (option nat) :=
  match l with
  | [] => Some None
  | p :: l' =>
      dev ← m !! p;
      if decide (d_dst dev = dst) then Some (Some p)
      else find_device m l' dst
  end.

(** [a2dp_device_free]. *)
Definition a2dp_device_free (p : nat) (c : coordinator)
    : option coordinator :=
  dev ← dev_mem c !! p;
  let c1 := match d_session dev with
            | Some s => emit (avdtp_unref s) c
            | None => c
            end in
  let c2 := match d_io dev with
            | Some io => emit (g_io_channel_unref io)
                           (emit (g_io_channel_shutdown io) c1)
            | None => c1
            end in
  Some (set_dev_mem (delete p (dev_mem c2))
          (set_devices (g_slist_remove (devices c2) p) c2)).

(** [a2dp_device_new]: the record is zeroed, so the new device starts in
    state [0] with no channel and no session. *)
Definition a2dp_device_new (dst : list Z) (c : coordinator)
    : nat * coordinator :=
  let p := brk c in
  let dev := {| d_dst := dst; d_state := 0; d_io := None;
                d_session := None |} in
  (p, bump_brk (set_devices (p :: devices c)
                  (set_dev_mem (<[p := dev]> (dev_mem c)) c))).

(** What [bt_io_connect] gives back: the channel and whether [err] was
    set. *)
Record bt_io_connect_result := mk_io_result {
  io_chan : option nat;
  io_err : bool
}.

(** [a2dp_device_connect]. *)
Definition a2dp_device_connect (p : nat) (r : bt_io_connect_result)
    (c : coordinator) : option (bool * coordinator) :=
  dev ← dev_mem c !! p;
  let c1 := set_dev_mem (<[p := set_d_io (io_chan r) dev]> (dev_mem c)) c in
  Some (negb (io_err r), c1).

(** [bt_a2dp_notify_state]; [state] is a [uint8_t]. *)
Definition bt_a2dp_notify_state (p : nat) (state : Z) (c : coordinator)
    : option coordinator :=
  dev ← dev_mem c !! p;
  if decide (d_state dev = state) then Some c
  else
    let c1 := set_dev_mem (<[p := set_d_state state dev]> (dev_mem c)) c in
    let c2 := emit (ipc_send_notif (d_dst dev) state) c1 in
    if decide (state ≠ HAL_A2DP_STATE_DISCONNECTED) then Some c2
    else a2dp_device_free p c2.

(** [disconnect_cb], the hook installed with [avdtp_add_disconnect_cb]. *)
Definition disconnect_cb (p : nat) (c : coordinator) : option coordinator :=
  bt_a2dp_notify_state p HAL_A2DP_STATE_DISCONNECTED c.

(** ** The signaling channel *)

(** What the collaborators answer during [signaling_connect_cb]: whether
    [bt_io_get] delivered the MTUs, the session made by [avdtp_new]
    ([None] for [NULL]) and the value of [avdtp_discover]. *)
Record signaling_env := mk_signaling_env {
  sg_get_ok : bool;
  sg_avdtp_new : option nat;
  sg_discover : Z
}.

(** [signaling_connect_cb]; [err] tells whether the [GError] is set. *)
Definition signaling_connect_cb (err : bool) (p : nat) (env : signaling_env)
    (c : coordinator) : option coordinator :=
  if err then bt_a2dp_notify_state p HAL_A2DP_STATE_DISCONNECTED c
  else if negb (sg_get_ok env)
  then bt_a2dp_notify_state p HAL_A2DP_STATE_DISCONNECTED c
  else
    dev ← dev_mem c !! p;
    let dev1 := set_d_session (sg_avdtp_new env) dev in
    let c1 := set_dev_mem (<[p := dev1]> (dev_mem c)) c in
    match sg_avdtp_new env with
    | None => bt_a2dp_notify_state p HAL_A2DP_STATE_DISCONNECTED c1
    | Some _ =>
        let c2 :=
          match d_io dev1 with
          | Some io =>
              emit (g_io_channel_unref io)
                (set_dev_mem (<[p := set_d_io None dev1]> (dev_mem c1)) c1)
          | None => c1
          end in
        if decide (d_state dev1 = HAL_A2DP_STATE_CONNECTING)
        then
          if sg_discover env <? 0
          then bt_a2dp_notify_state p HAL_A2DP_STATE_DISCONNECTED c2
          else bt_a2dp_notify_state p HAL_A2DP_STATE_CONNECTED c2
        else bt_a2dp_notify_state p HAL_A2DP_STATE_CONNECTED c2
    end.

(** ** The HAL commands *)

(** [bt_a2dp_connect]: [dst] is the address of the command, [r] the
    outcome of [bt_io_connect]. *)
Definition bt_a2dp_connect (dst : list Z) (r : bt_io_connect_result)
    (c : coordinator) : option coordinator :=
  l ← find_device (dev_mem c) (devices c) dst;
  match l with
  | Some _ =>
      Some (emit (ipc_send_rsp HAL_OP_A2DP_CONNECT HAL_STATUS_FAILED) c)
  | None =>
      let '(p, c1) := a2dp_device_new dst c in
      '(ok, c2) ← a2dp_device_connect p r c1;
      if negb ok
      then
        c3 ← a2dp_device_free p c2;
        Some (emit (ipc_send_rsp HAL_OP_A2DP_CONNECT HAL_STATUS_FAILED) c3)
      else
        c3 ← bt_a2dp_notify_state p HAL_A2DP_STATE_CONNECTING c2;
        Some (emit (ipc_send_rsp HAL_OP_A2DP_CONNECT HAL_STATUS_SUCCESS) c3)
  end.

(** [bt_a2dp_disconnect]. *)
Definition bt_a2dp_disconnect (dst : list Z) (c : coordinator)
    : option coordinator :=
  l ← find_device (dev_mem c) (devices c) dst;
  match l with
  | None =>
      Some (emit (ipc_send_rsp HAL_OP_A2DP_DISCONNECT HAL_STATUS_FAILED) c)
  | Some p =>
      dev ← dev_mem c !! p;
      let status := HAL_STATUS_SUCCESS in
      match d_io dev with
      | Some _ =>
          c1 ← bt_a2dp_notify_state p HAL_A2DP_STATE_DISCONNECTED c;
          Some (emit (ipc_send_rsp HAL_OP_A2DP_DISCONNECT status) c1)
      | None =>
          c1 ← bt_a2dp_notify_state p HAL_A2DP_STATE_DISCONNECTING
                 (emit (avdtp_shutdown (d_session dev)) c);
          Some (emit (ipc_send_rsp HAL_OP_A2DP_DISCONNECT status) c1)
      end
  end.

(** ** The transport channel and incoming connections *)

(** [find_setup_by_device]: the position and the record of the first
    setup whose [dev] pointer is [p]. *)
Fixpoint find_setup_by_device_from (i : nat) (l : list a2dp_setup) (p : nat)
    : option (nat * a2dp_setup) :=
  match l with
  | [] => None
  | s :: l' =>
      if decide (s_dev s = p) then Some (i, s)
      else find_setup_by_device_from (S i) l' p
  end.

Definition find_setup_by_device (c : coordinator) (p : nat)
    : option (nat * a2dp_setup) :=
  find_setup_by_device_from 0 (setups c) p.

Record transport_env := mk_transport_env {
  tr_get_ok : bool;
  tr_set_transport_ok : bool
}.

(** [transport_connect_cb]. *)
Definition transport_connect_cb (err : bool) (p : nat) (env : transport_env)
    (c : coordinator) : option coordinator :=
  if err then Some c
  else
    match find_setup_by_device c p with
    | None => Some c
    | Some (_, setup) =>
        if negb (tr_get_ok env) then Some c
        else
          let c1 := emit (avdtp_stream_set_transport (s_stream setup)) c in
          if negb (tr_set_transport_ok env) then Some c1
          else
            dev ← dev_mem c1 !! p;
            match d_io dev with
            | Some io =>
                Some (emit (g_io_channel_unref io)
                        (set_dev_mem (<[p := set_d_io None dev]> (dev_mem c1))
                           c1))
            | None => Some c1
            end
    end.

(** What [connect_cb] learns about an incoming channel: whether
    [bt_io_get] delivered the addresses, the peer address, and the answers
    for whichever of the two callbacks it hands the channel to. *)
Record connect_env := mk_connect_env {
  cn_chan : nat;
  cn_get_ok : bool;
  cn_dst : list Z;
  cn_transport : transport_env;
  cn_signaling : signaling_env
}.

(** [connect_cb], the callback of the listening socket. *)
Definition connect_cb (err : bool) (env : connect_env) (c : coordinator)
    : option coordinator :=
  if err then Some c
  else if negb (cn_get_ok env)
  then Some (emit (g_io_channel_shutdown (cn_chan env)) c)
  else
    l ← find_device (dev_mem c) (devices c) (cn_dst env);
    match l with
    | Some p => transport_connect_cb err p (cn_transport env) c
    | None =>
        let '(p, c1) := a2dp_device_new (cn_dst env) c in
        signaling_connect_cb err p (cn_signaling env) c1
    end.

(** ** Checking a proposed configuration *)

(** [memcmp (a, b, n) == 0] on two blobs that hold at least [n] bytes; the
    coordinator only calls it with the non-negative length of a stored
    preset. *)
Definition memcmp_eq (a b : list Z) (n : Z) : bool :=
  bool_decide (take (Z.to_nat n) a = take (Z.to_nat n) b).

(** The loop of [check_config] over the preferred presets. *)
Fixpoint check_config_presets (l : list a2dp_preset) (config : a2dp_preset)
    : bool :=
  match l with
  | [] => false
  | preset :: l' =>
      if negb (p_len preset =? p_len config)
      then check_config_presets l' config
      else if memcmp_eq (p_data preset) (p_data config) (p_len preset)
      then true
      else check_config_presets l' config
  end.

(** [check_config]. *)
Definition check_config (endpoint : a2dp_endpoint) (config : a2dp_preset)
    : Z :=
  if check_config_presets (e_presets endpoint) config then 0
  else
    let caps := e_caps endpoint in
    if e_codec endpoint =? A2DP_CODEC_SBC
    then sbc_check_config (p_data caps) (to_uint8 (p_len caps))
           (p_data config) (to_uint8 (p_len config))
    else - EINVAL.

(** [check_config] on an endpoint record whose blobs are released: the
    loop reads the first preferred preset when the list has a node, and
    the SBC branch reads the capabilities; only an endpoint of another
    codec with an empty list of preferred presets gets an answer. *)
Definition check_config_released (endpoint : a2dp_endpoint) : option Z :=
  match e_presets endpoint with
  | [] => if e_codec endpoint =? A2DP_CODEC_SBC then None else Some (- EINVAL)
  | _ :: _ => None
  end.

(** [find_device_by_session]: every node visited is read. *)
Fixpoint find_device_by_session_in (m : gmap nat a2dp_device) (l : list nat)
    (session : option nat) : option (option nat) :=
  match l with
  | [] => Some None
  | p :: l' =>
      dev ← m !! p;
      if decide (d_session dev = session) then Some (Some p)
      else find_device_by_session_in m l' session
  end.

Definition find_device_by_session (c : coordinator) (session : option nat)
    : option (option nat) :=
  find_device_by_session_in (dev_mem c) (devices c) session.

(** ** Setups *)

(** [setup_add]: the new setup goes to the end of the list. *)
Definition setup_add (dev endpoint : nat) (preset : a2dp_preset)
    (stream : nat) (c : coordinator) : coordinator :=
  set_setups (setups c ++ [{| s_dev := dev; s_endpoint := endpoint;
                             s_preset := preset; s_stream := stream |}]) c.

(** [setup_remove] of the setup at position [i]: [setup_free] reads the
    preset list of the setup's endpoint to decide whether the preset is
    the setup's own; the release of the blob itself leaves no mark on the
    state. *)
Definition setup_remove (i : nat) (setup : a2dp_setup) (c : coordinator)
    : option coordinator :=
  _ ← ep_structs c !! s_endpoint setup;
  Some (set_setups (delete i (setups c)) c).

(** [find_setup]: the first setup whose endpoint has the given id; the
    endpoint of every setup visited is read. *)
Fixpoint find_setup_from (i : nat) (m : gmap nat a2dp_endpoint)
    (l : list a2dp_setup) (id : Z) : option (option (nat * a2dp_setup)) :=
  match l with
  | [] => Some None
  | s :: l' =>
      e ← m !! s_endpoint s;
      if decide (e_id e = id) then Some (Some (i, s))
      else find_setup_from (S i) m l' id
  end.

Definition find_setup (c : coordinator) (id : Z)
    : option (option (nat * a2dp_setup)) :=
  find_setup_from 0 (ep_structs c) (setups c) id.

(** [setup_remove_by_id]. *)
Definition setup_remove_by_id (id : Z) (c : coordinator)
    : option coordinator :=
  r ← find_setup c id;
  match r with
  | None => Some c
  | Some (i, setup) => setup_remove i setup c
  end.

(** ** Indications *)

(** Modelled from the spec: [struct avdtp_service_capability] and
    [struct avdtp_media_codec_capability] of [avdtp.h] are missing.  A
    capability is a category, a length and a payload; the specification
    describes the payload of a MEDIA_CODEC capability as media type,
    codec type and codec blob, and the two types take one byte each. *)
Record avdtp_service_capability := mk_cap {
  cap_category : Z;
  cap_length : Z;
  cap_data : list Z
}.

Definition sizeof_media_codec_capability : Z := 2.

Definition media_codec_type (cap : avdtp_service_capability) : Z :=
  byte_at 1 (cap_data cap).

Definition codec_data (cap : avdtp_service_capability) : list Z :=
  drop 2 (cap_data cap).

(** How the loop of [sep_setconf_ind] ends: with [return FALSE], or at
    the end of the list with the value of [preset]. *)
Inductive setconf_scan :=
| scan_reject
| scan_done (preset : option a2dp_preset).

(** The preset [sep_setconf_ind] builds from a MEDIA_CODEC capability;
    the length goes through [int8_t], and [g_memdup] with a negative
    length is undefined. *)
Definition setconf_preset (cap : avdtp_service_capability)
    : option a2dp_preset :=
  let len := to_int8 (cap_length cap - sizeof_media_codec_capability) in
  if len <? 0 then None
  else Some {| p_data := take (Z.to_nat len) (codec_data cap);
               p_len := len |}.

(** The loop of [sep_setconf_ind]; [ep] is [user_data], [m] holds the
    endpoints with their blobs and [r] the records whose blobs are
    released. *)
Fixpoint setconf_caps (m r : gmap nat a2dp_endpoint) (ep : nat)
    (caps : list avdtp_service_capability) (preset : option a2dp_preset)
    : option setconf_scan :=
  match caps with
  | [] => Some (scan_done preset)
  | cap :: caps' =>
      if cap_category cap =? AVDTP_DELAY_REPORTING then Some scan_reject
      else if negb (cap_category cap =? AVDTP_MEDIA_CODEC)
      then setconf_caps m r ep caps' preset
      else
        match m !! ep with
        | Some endpoint =>
            if negb (media_codec_type cap =? e_codec endpoint)
            then Some scan_reject
            else
              new ← setconf_preset cap;
              if check_config endpoint new <? 0 then Some scan_reject
              else setconf_caps m r ep caps' (Some new)
        | None =>
            endpoint ← r !! ep;
            if negb (media_codec_type cap =? e_codec endpoint)
            then Some scan_reject
            else
              new ← setconf_preset cap;
              ret ← check_config_released endpoint;
              if ret <? 0 then Some scan_reject
              else setconf_caps m r ep caps' (Some new)
        end
  end.

(** [sep_setconf_ind]: the result carries the [gboolean]. *)
Definition sep_setconf_ind (session : option nat) (stream : nat)
    (caps : list avdtp_service_capability) (ep : nat) (c : coordinator)
    : option (bool * coordinator) :=
  d ← find_device_by_session c session;
  match d with
  | None => Some (false, c)
  | Some dev =>
      r ← setconf_caps (ep_mem c) (ep_released c) ep caps None;
      match r with
      | scan_reject => Some (false, c)
      | scan_done None => Some (false, c)
      | scan_done (Some preset) =>
          Some (true, emit (set_configuration_cb session stream None)
                        (setup_add dev ep preset stream c))
      end
  end.

(** [sep_open_ind], [sep_start_ind] and [sep_suspend_ind] have the same
    body: the [gboolean] and the value left in [*err]. *)
Definition sep_open_ind (ep : nat) (c : coordinator)
    : option (bool * option Z) :=
  endpoint ← ep_structs c !! ep;
  r ← find_setup c (e_id endpoint);
  match r with
  | None => Some (false, Some AVDTP_SEP_NOT_IN_USE)
  | Some _ => Some (true, None)
  end.

Definition sep_start_ind := sep_open_ind.
Definition sep_suspend_ind := sep_open_ind.

(** [sep_close_ind]. *)
Definition sep_close_ind (ep : nat) (c : coordinator)
    : option (bool * option Z * coordinator) :=
  endpoint ← ep_structs c !! ep;
  r ← find_setup c (e_id endpoint);
  match r with
  | None => Some (false, Some AVDTP_SEP_NOT_IN_USE, c)
  | Some (i, setup) =>
      c1 ← setup_remove i setup c;
      Some (true, None, c1)
  end.

(** ** Confirmations

    [err] tells whether the [struct avdtp_error] pointer is set; [ep] is
    [user_data]. *)

(** [sep_setconf_cfm]; [open_ret] is the value of [avdtp_open]. *)
Definition sep_setconf_cfm (session : option nat) (stream : nat) (err : bool)
    (open_ret : Z) (ep : nat) (c : coordinator) : option coordinator :=
  endpoint ← ep_structs c !! ep;
  r ← find_setup c (e_id endpoint);
  match r with
  | None => Some c
  | Some (i, setup) =>
      if err then setup_remove i setup c
      else
        let c1 := emit (avdtp_call_open session stream) c in
        if open_ret <? 0 then setup_remove i setup c1 else Some c1
  end.

(** [sep_open_cfm]; [r] is the outcome of the [bt_io_connect] that opens
    the transport channel. *)
Definition sep_open_cfm (session : option nat) (err : bool)
    (r : bt_io_connect_result) (ep : nat) (c : coordinator)
    : option coordinator :=
  if err
  then endpoint ← ep_structs c !! ep; setup_remove_by_id (e_id endpoint) c
  else
    d ← find_device_by_session c session;
    match d with
    | None =>
        endpoint ← ep_structs c !! ep; setup_remove_by_id (e_id endpoint) c
    | Some dev => '(_, c1) ← a2dp_device_connect dev r c; Some c1
    end.

(** [sep_start_cfm]. *)
Definition sep_start_cfm (err : bool) (ep : nat) (c : coordinator)
    : option coordinator :=
  if negb err then Some c
  else endpoint ← ep_structs c !! ep; setup_remove_by_id (e_id endpoint) c.

(** [sep_suspend_cfm]. *)
Definition sep_suspend_cfm (err : bool) (ep : nat) (c : coordinator)
    : option coordinator :=
  if negb err then Some c
  else endpoint ← ep_structs c !! ep; setup_remove_by_id (e_id endpoint) c.

(** [sep_close_cfm]. *)
Definition sep_close_cfm (err : bool) (ep : nat) (c : coordinator)
    : option coordinator :=
  if err then Some c
  else endpoint ← ep_structs c !! ep; setup_remove_by_id (e_id endpoint) c.

(** [sep_abort_cfm]. *)
Definition sep_abort_cfm (err : bool) (ep : nat) (c : coordinator)
    : option coordinator :=
  if err then Some c
  else endpoint ← ep_structs c !! ep; setup_remove_by_id (e_id endpoint) c.

(** ** The endpoint registry and the audio IPC *)

(** [register_endpoint]; [sep] is what [avdtp_register_sep] returned.
    [g_slist_length] counts the nodes of [endpoints] without reading the
    endpoints, and the sum is cut to the [uint8_t] field.  [presets] is
    not empty at the only call. *)
Definition register_endpoint (codec : Z) (presets : list a2dp_preset)
    (sep : option nat) (c : coordinator) : option (Z * coordinator) :=
  caps ← head presets;
  let p := brk c in
  let endpoint :=
    {| e_id := to_uint8 (Z.of_nat (length (endpoints c)) + 1);
       e_codec := codec;
       e_sep := sep;
       e_caps := caps;
       e_presets := tail presets |} in
  Some (e_id endpoint,
        bump_brk (set_endpoints (endpoints c ++ [p])
                    (set_ep_mem (<[p := endpoint]> (ep_mem c)) c))).

(** Modelled from the spec: [struct audio_preset] and
    [struct audio_cmd_open] of [audio-msg.h] are missing.  The
    specification gives the OPEN request as uuid(16) + codec(1) +
    count(1) followed by the packed presets, each a length byte and
    [len] bytes. *)
Definition sizeof_audio_preset : Z := 1.
Definition sizeof_audio_cmd_open : Z := 18.

(** The loop of [parse_presets]: [n] iterations are left, [p] is the
    part of the buffer that starts at the current preset, [len] the
    [uint16_t] count of bytes left, [l] the list built so far.  [Some []]
    is the [NULL] the function returns on a failure.  The length byte is
    stored in an [int8_t]; a negative one makes [g_memdup] undefined. *)
Fixpoint parse_presets_loop (n : nat) (p : list Z) (len : Z)
    (l : list a2dp_preset) : option (list a2dp_preset) :=
  match n with
  | O => Some l
  | S n' =>
      if len <? sizeof_audio_preset then Some []
      else
        let len1 := to_uint16 (len - sizeof_audio_preset) in
        if (len1 =? 0) || (len1 <? byte_at 0 p) then Some []
        else
          let plen := to_int8 (byte_at 0 p) in
          if plen <? 0 then None
          else
            let preset := {| p_data := take (Z.to_nat plen) (drop 1 p);
                             p_len := plen |} in
            parse_presets_loop n' (drop (1 + Z.to_nat plen) p)
              (to_uint16 (len1 - plen)) (l ++ [preset])
  end.

(** [parse_presets]; [count] is a [uint8_t]. *)
Definition parse_presets (p : list Z) (count : Z) (len : Z)
    : option (list a2dp_preset) :=
  parse_presets_loop (Z.to_nat count) p len [].

(** [struct audio_cmd_open]. *)
Record audio_cmd_open := mk_cmd_open {
  cmd_uuid : list Z;
  cmd_codec : Z;
  cmd_presets : Z;
  cmd_preset : list Z
}.

(** [g_slist_free_full (presets, preset_free)] on the [id == 0] path of
    [bt_audio_open]: the blobs just parsed are released.  They are the
    blobs of the endpoint at [p], which [register_endpoint] has appended
    to [endpoints] and which stays there: its record moves to the
    records without blobs. *)
Definition release_presets (p : nat) (c : coordinator)
    : option coordinator :=
  endpoint ← ep_mem c !! p;
  Some (set_ep_released (<[p := endpoint]> (ep_released c))
          (set_ep_mem (delete p (ep_mem c)) c)).

(** [bt_audio_open]; [len] is the size of the whole command. *)
Definition bt_audio_open (cmd : audio_cmd_open) (len : Z) (sep : option nat)
    (c : coordinator) : option coordinator :=
  let failed c' := emit (audio_ipc_send_rsp AUDIO_OP_OPEN AUDIO_STATUS_FAILED)
                     c' in
  if cmd_presets cmd =? 0 then Some (failed c)
  else
    presets ← parse_presets (cmd_preset cmd) (cmd_presets cmd)
                (to_uint16 (len - sizeof_audio_cmd_open));
    match presets with
    | [] => Some (failed c)
    | _ =>
        '(id, c1) ← register_endpoint (cmd_codec cmd) presets sep c;
        if id =? 0
        then c2 ← release_presets (brk c) c1; Some (failed c2)
        else Some (emit (audio_rsp_open id) c1)
    end.

(** [find_endpoint]: every node visited is read. *)
Fixpoint find_endpoint_in (m : gmap nat a2dp_endpoint) (l : list nat)
    (id : Z) : option (option nat) :=
  match l with
  | [] => Some None
  | p :: l' =>
      e ← m !! p;
      if decide (e_id e = id) then Some (Some p)
      else find_endpoint_in m l' id
  end.

Definition find_endpoint (c : coordinator) (id : Z) : option (option nat) :=
  find_endpoint_in (ep_structs c) (endpoints c) id.

(** [unregister_endpoint]: the blobs of the endpoint and the endpoint
    are released, after which its address holds no record; the list
    [endpoints] is not touched.  On a record whose blobs are released
    already, [preset_free] releases them a second time. *)
Definition unregister_endpoint (p : nat) (c : coordinator)
    : option coordinator :=
  endpoint ← ep_mem c !! p;
  let c1 := match e_sep endpoint with
            | Some s => emit (avdtp_unregister_sep s) c
            | None => c
            end in
  Some (set_ep_released (delete p (ep_released c1))
          (set_ep_mem (delete p (ep_mem c1)) c1)).

(** [bt_audio_close]. *)
Definition bt_audio_close (id : Z) (c : coordinator) : option coordinator :=
  r ← find_endpoint c id;
  match r with
  | None =>
      Some (emit (audio_ipc_send_rsp AUDIO_OP_CLOSE AUDIO_STATUS_FAILED) c)
  | Some p =>
      c1 ← unregister_endpoint p c;
      Some (emit (audio_ipc_send_rsp AUDIO_OP_CLOSE AUDIO_STATUS_SUCCESS) c1)
  end.

(** [bt_stream_open]. *)
Definition bt_stream_open (id : Z) (c : coordinator) : option coordinator :=
  r ← find_setup c id;
  match r with
  | None =>
      Some (emit (audio_ipc_send_rsp AUDIO_OP_OPEN_STREAM AUDIO_STATUS_FAILED)
              c)
  | Some (_, setup) =>
      Some (emit (audio_rsp_open_stream (to_uint8 (p_len (s_preset setup)))
                    (p_data (s_preset setup))) c)
  end.

(** The common shape of [bt_stream_close], [bt_stream_resume] and
    [bt_stream_suspend]: [call] is the AVDTP request issued on the
    session of the setup's device, [ret] its value. *)
Definition stream_request (op : Z) (call : option nat -> nat -> output)
    (id : Z) (ret : Z) (c : coordinator) : option coordinator :=
  r ← find_setup c id;
  match r with
  | None => Some (emit (audio_ipc_send_rsp op AUDIO_STATUS_FAILED) c)
  | Some (_, setup) =>
      dev ← dev_mem c !! s_dev setup;
      let c1 := emit (call (d_session dev) (s_stream setup)) c in
      if ret <? 0
      then Some (emit (audio_ipc_send_rsp op AUDIO_STATUS_FAILED) c1)
      else Some (emit (audio_ipc_send_rsp op AUDIO_STATUS_SUCCESS) c1)
  end.

Definition bt_stream_close := stream_request AUDIO_OP_CLOSE_STREAM
                                avdtp_call_close.
Definition bt_stream_resume := stream_request AUDIO_OP_RESUME_STREAM
                                 avdtp_call_start.
Definition bt_stream_suspend := stream_request AUDIO_OP_SUSPEND_STREAM
                                  avdtp_call_suspend.

(** ** Local selection of a configuration *)

(** [select_preset]: [service] is the codec capability of the remote
    SEP, as [avdtp_get_codec] returns it. *)
Fixpoint select_preset_in (l : list a2dp_preset)
    (service : avdtp_service_capability) : option a2dp_preset :=
  match l with
  | [] => None
  | preset :: l' =>
      if check_capabilities preset (media_codec_type service)
           (codec_data service)
           (cap_length service - sizeof_media_codec_capability) =? 0
      then Some preset
      else select_preset_in l' service
  end.

Definition select_preset (endpoint : a2dp_endpoint)
    (service : avdtp_service_capability) : option a2dp_preset :=
  select_preset_in (e_presets endpoint) service.

(** What [avdtp_set_configuration] answers: its value and the stream. *)
Record setconf_env := mk_setconf_env {
  sc_ret : Z;
  sc_stream : nat
}.

(** [select_preset] on an endpoint record whose blobs are released:
    [check_capabilities] reads a preset only when the remote codec is
    SBC, so the loop ends with [NULL] when the list of preferred presets
    is empty or the remote codec is another one. *)
Definition select_preset_released (endpoint : a2dp_endpoint)
    (service : avdtp_service_capability) : option (option a2dp_preset) :=
  match e_presets endpoint with
  | [] => Some None
  | _ :: _ =>
      if media_codec_type service =? A2DP_CODEC_SBC then None else Some None
  end.

(** [select_configuration]: the result carries the [int]. *)
Definition select_configuration (dev ep : nat)
    (rsep : avdtp_service_capability) (env : setconf_env) (c : coordinator)
    : option (Z * coordinator) :=
  match ep_mem c !! ep with
  | Some endpoint =>
      match select_preset endpoint rsep with
      | None => Some (- EINVAL, c)
      | Some preset =>
          d ← dev_mem c !! dev;
          let c1 := emit (avdtp_call_set_configuration (d_session d)
                            (e_sep endpoint) (e_codec endpoint)
                            (p_data preset)) c in
          if sc_ret env <? 0 then Some (sc_ret env, c1)
          else Some (0, setup_add dev ep preset (sc_stream env) c1)
      end
  | None =>
      endpoint ← ep_released c !! ep;
      _ ← select_preset_released endpoint rsep;
      Some (- EINVAL, c)
  end.

(** The loop of [discover_cb]: the first endpoint for which
    [avdtp_find_remote_sep] finds a remote SEP. *)
Fixpoint discover_endpoint (m : gmap nat a2dp_endpoint) (l : list nat)
    (find_remote_sep : option nat -> option avdtp_service_capability)
    : option (option (nat * avdtp_service_capability)) :=
  match l with
  | [] => Some None
  | p :: l' =>
      endpoint ← m !! p;
      match find_remote_sep (e_sep endpoint) with
      | Some rsep => Some (Some (p, rsep))
      | None => discover_endpoint m l' find_remote_sep
      end
  end.

(** [discover_cb]. *)
Definition discover_cb (session : option nat) (dev : nat)
    (find_remote_sep : option nat -> option avdtp_service_capability)
    (env : setconf_env) (c : coordinator) : option coordinator :=
  r ← discover_endpoint (ep_structs c) (endpoints c) find_remote_sep;
  match r with
  | None => Some (emit (avdtp_shutdown session) c)
  | Some (ep, rsep) =>
      '(ret, c1) ← select_configuration dev ep rsep env c;
      if ret <? 0 then Some (emit (avdtp_shutdown session) c1)
      else Some c1
  end.

(** ** The event loop

    Every input of the coordinator: the two HAL commands, the audio
    commands, the BtIO callbacks and the callbacks of the AVDTP engine,
    each with the answers of the collaborators it consumes. *)
Inductive event :=
| ev_a2dp_connect (dst : list Z) (r : bt_io_connect_result)
| ev_a2dp_disconnect (dst : list Z)
| ev_signaling_connect_cb (err : bool) (dev : nat) (env : signaling_env)
| ev_transport_connect_cb (err : bool) (dev : nat) (env : transport_env)
| ev_connect_cb (err : bool) (env : connect_env)
| ev_disconnect_cb (dev : nat)
| ev_discover_cb (session : option nat) (dev : nat)
    (find_remote_sep : option nat -> option avdtp_service_capability)
    (env : setconf_env)
| ev_setconf_ind (session : option nat) (stream : nat)
    (caps : list avdtp_service_capability) (ep : nat)
| ev_close_ind (ep : nat)
| ev_setconf_cfm (session : option nat) (stream : nat) (err : bool)
    (open_ret : Z) (ep : nat)
| ev_open_cfm (session : option nat) (err : bool)
    (r : bt_io_connect_result) (ep : nat)
| ev_start_cfm (err : bool) (ep : nat)
| ev_suspend_cfm (err : bool) (ep : nat)
| ev_close_cfm (err : bool) (ep : nat)
| ev_abort_cfm (err : bool) (ep : nat)
| ev_audio_open (cmd : audio_cmd_open) (len : Z) (sep : option nat)
| ev_audio_close (id : Z)
| ev_stream_open (id : Z)
| ev_stream_close (id : Z) (ret : Z)
| ev_stream_resume (id : Z) (ret : Z)
| ev_stream_suspend (id : Z) (ret : Z).

Definition step (e : event) (c : coordinator) : option coordinator :=
  match e with
  | ev_a2dp_connect dst r => bt_a2dp_connect dst r c
  | ev_a2dp_disconnect dst => bt_a2dp_disconnect dst c
  | ev_signaling_connect_cb err dev env => signaling_connect_cb err dev env c
  | ev_transport_connect_cb err dev env => transport_connect_cb err dev env c
  | ev_connect_cb err env => connect_cb err env c
  | ev_disconnect_cb dev => disconnect_cb dev c
  | ev_discover_cb session dev f env => discover_cb session dev f env c
  | ev_setconf_ind session stream caps ep =>
      snd <$> sep_setconf_ind session stream caps ep c
  | ev_close_ind ep => snd <$> sep_close_ind ep c
  | ev_setconf_cfm session stream err open_ret ep =>
      sep_setconf_cfm session stream err open_ret ep c
  | ev_open_cfm session err r ep => sep_open_cfm session err r ep c
  | ev_start_cfm err ep => sep_start_cfm err ep c
  | ev_suspend_cfm err ep => sep_suspend_cfm err ep c
  | ev_close_cfm err ep => sep_close_cfm err ep c
  | ev_abort_cfm err ep => sep_abort_cfm err ep c
  | ev_audio_open cmd len sep => bt_audio_open cmd len sep c
  | ev_audio_close id => bt_audio_close id c
  | ev_stream_open id => bt_stream_open id c
  | ev_stream_close id ret => bt_stream_close id ret c
  | ev_stream_resume id ret => bt_stream_resume id ret c
  | ev_stream_suspend id ret => bt_stream_suspend id ret c
  end.

(** The coordinator after a sequence of events. *)
Fixpoint run (es : list event) (c : coordinator) : option coordinator :=
  match es with
  | [] => Some c
  | e :: es' => c1 ← step e c; run es' c1
  end.

(** ** Sample inputs

    The data of the end-to-end scenarios: an SBC endpoint with a
    capabilities blob and one preferred preset, two peers, and the
    capability list of a peer-driven configuration. *)

Definition addr_A : list Z := [10; 11; 12; 13; 14; 15].
Definition addr_B : list Z := [20; 21; 22; 23; 24; 25].

Definition sbc_caps_blob : list Z := [255; 255; 2; 53].
Definition sbc_pref_blob : list Z := [33; 21; 2; 53].

Definition sample_cmd_open : audio_cmd_open :=
  {| cmd_uuid := repeat 0 16;
     cmd_codec := A2DP_CODEC_SBC;
     cmd_presets := 2;
     cmd_preset := (4 :: sbc_caps_blob) ++ (4 :: sbc_pref_blob) |}.

Definition sample_open : event :=
  ev_audio_open sample_cmd_open 28 (Some 100%nat).

Definition signaling_up (session : nat) : signaling_env :=
  {| sg_get_ok := true; sg_avdtp_new := Some session; sg_discover := 0 |}.

Definition transport_up : transport_env :=
  {| tr_get_ok := true; tr_set_transport_ok := true |}.

Definition incoming (dst : list Z) (sg : signaling_env) : event :=
  ev_connect_cb false
    {| cn_chan := 7%nat; cn_get_ok := true; cn_dst := dst;
       cn_transport := transport_up; cn_signaling := sg |}.

Definition cap_media_transport : avdtp_service_capability :=
  {| cap_category := AVDTP_MEDIA_TRANSPORT; cap_length := 0; cap_data := [] |}.

Definition cap_media_codec (codec : Z) (blob : list Z)
    : avdtp_service_capability :=
  {| cap_category := AVDTP_MEDIA_CODEC;
     cap_length := 2 + Z.of_nat (length blob);
     cap_data := 0 :: codec :: blob |}.

Definition cap_delay_reporting : avdtp_service_capability :=
  {| cap_category := AVDTP_DELAY_REPORTING; cap_length := 0; cap_data := [] |}.

(** Scenario S2: the endpoint is opened, peer B connects, signaling comes
    up with session 50, and the peer configures stream 9 with the
    preferred preset. *)
Definition scenario_S2 : list event :=
  [ sample_open;
    incoming addr_B (signaling_up 50);
    ev_setconf_ind (Some 50%nat) 9%nat
      [cap_media_transport; cap_media_codec A2DP_CODEC_SBC sbc_pref_blob]
      1%nat ].

(** ** The words of the specification about a proposed configuration *)

(** A MEDIA_CODEC capability passes when its codec type is the
    endpoint's and the preset built from its payload passes
    [check_config]. *)
Definition codec_cap_ok (endpoint : a2dp_endpoint)
    (cap : avdtp_service_capability) : Prop :=
  media_codec_type cap = e_codec endpoint ∧
  ∃ preset, setconf_preset cap = Some preset ∧
            check_config endpoint preset = 0.

(** The proposal the specification accepts: no DELAY_REPORTING
    capability, every MEDIA_CODEC capability passes, and there is at
    least one MEDIA_CODEC capability. *)
Definition proposal_acceptable (endpoint : a2dp_endpoint)
    (caps : list avdtp_service_capability) : Prop :=
  Forall (fun cap => cap_category cap ≠ AVDTP_DELAY_REPORTING) caps ∧
  Forall (fun cap => cap_category cap = AVDTP_MEDIA_CODEC →
                     codec_cap_ok endpoint cap) caps ∧
  Exists (fun cap => cap_category cap = AVDTP_MEDIA_CODEC) caps.

(** The MEDIA_CODEC capabilities of a proposal, in order. *)
Definition media_codec_caps (caps : list avdtp_service_capability)
    : list avdtp_service_capability :=
  filter (fun cap => cap_category cap = AVDTP_MEDIA_CODEC) caps.

(** Inputs on which [sep_setconf_ind] reads nothing it must not: every
    address in the device table is allocated, and the length of every
    MEDIA_CODEC capability leaves a non-negative [int8_t] payload
    length. *)
Definition devices_readable (c : coordinator) : Prop :=
  Forall (fun p => is_Some (dev_mem c !! p)) (devices c).

Definition codec_lengths_ok (caps : list avdtp_service_capability) : Prop :=
  Forall (fun cap => cap_category cap = AVDTP_MEDIA_CODEC →
                     is_Some (setconf_preset cap)) caps.

(** A preset whose length field is the length of its blob. *)
Definition preset_wf (p : a2dp_preset) : Prop :=
  Z.of_nat (length (p_data p)) = p_len p.

(** The first two events of scenario S2, and two proposals: the one of
    S2, and one that carries two MEDIA_CODEC capabilities. *)
Definition scenario_connected_B : list event :=
  [ sample_open; incoming addr_B (signaling_up 50) ].

Definition caps_S2 : list avdtp_service_capability :=
  [cap_media_transport; cap_media_codec A2DP_CODEC_SBC sbc_pref_blob].

Definition sbc_other_blob : list Z := [17; 21; 2; 53].

Definition caps_two_codecs : list avdtp_service_capability :=
  [cap_media_codec A2DP_CODEC_SBC sbc_pref_blob; cap_media_transport;
   cap_media_codec A2DP_CODEC_SBC sbc_other_blob].

Definition sample_endpoint : a2dp_endpoint :=
  {| e_id := 1; e_codec := A2DP_CODEC_SBC; e_sep := Some 100%nat;
     e_caps := {| p_data := sbc_caps_blob; p_len := 4 |};
     e_presets := [{| p_data := sbc_pref_blob; p_len := 4 |}] |}.

(** ** The words of the specification about the packed preset stream *)

(** Length-tagged blobs back-to-back: each blob is preceded by one byte
    that holds its length. *)
Fixpoint pack (blobs : list (list Z)) : list Z :=
  match blobs with
  | [] => []
  | b :: bs => (Z.of_nat (length b) :: b) ++ pack bs
  end.

Definition preset_of_blob (b : list Z) : a2dp_preset :=
  {| p_data := b; p_len := Z.of_nat (length b) |}.

(** A stream the bounds checks let through: every blob fits the
    [int8_t] length field, the whole fits the [uint16_t] byte count, and
    something follows the last length byte. *)
Definition stream_ok (blobs : list (list Z)) (rest : list Z) : Prop :=
  Forall (fun b => (length b ≤ 127)%nat) blobs ∧
  Z.of_nat (length (pack blobs ++ rest)) ≤ 65535 ∧
  (last blobs ≠ Some [] ∨ rest ≠ []).

(** A stream that ends too early: after some complete blobs there is no
    length byte left, or nothing after the length byte, or fewer bytes
    than the length byte announces. *)
Definition stream_truncated (blobs : list (list Z)) (tl : list Z) : Prop :=
  Forall (fun b => (length b ≤ 127)%nat) blobs ∧
  Z.of_nat (length (pack blobs ++ tl)) ≤ 65535 ∧
  (tl = [] ∨
   ∃ h tl', tl = h :: tl' ∧ (tl' = [] ∨ Z.of_nat (length tl') < h)).

(** ** Endpoint ids over the life of the process *)

(** The ids the audio client was given in OPEN responses, in order. *)
Definition opened_ids (t : list output) : list Z :=
  omap (fun o => match o with
                 | audio_rsp_open id => Some id
                 | _ => None
                 end) t.

(** The id [register_endpoint] gives to the endpoint that goes to
    position [i] of the list [endpoints]. *)
Definition endpoint_id_at (i : nat) : Z := to_uint8 (Z.of_nat i + 1).

(** The events that change the endpoint registry. *)
Definition is_audio_registry (e : event) : bool :=
  match e with
  | ev_audio_open _ _ _ | ev_audio_close _ => true
  | _ => false
  end.

(** What holds of the registry after any sequence of events: an
    endpoint that is still allocated carries the id of its position in
    the list, the list has no address twice, its addresses are below the
    allocation mark, every allocated endpoint is in the list, and the ids
    handed out are the non-zero ids of the positions. *)
Record endpoints_inv (c : coordinator) : Prop := mk_endpoints_inv {
  inv_id : ∀ i p e, endpoints c !! i = Some p → ep_structs c !! p = Some e →
                    e_id e = endpoint_id_at i;
  inv_nodup : NoDup (endpoints c);
  inv_brk : ∀ p, p ∈ endpoints c → (p < brk c)%nat;
  inv_live : ∀ p, is_Some (ep_structs c !! p) → p ∈ endpoints c;
  inv_ids : opened_ids (trace c) =
            filter (fun id => id ≠ 0)
              (map endpoint_id_at (seq 0 (length (endpoints c))))
}.

(** [n] OPEN commands in a row. *)
Definition opens (n : nat) : list event := repeat sample_open n.

(** ** Devices over the life of the process *)

(** A device record whose state is Disconnected holds neither a channel
    nor a session. *)
Definition dev_ok (dev : a2dp_device) : Prop :=
  d_state dev = HAL_A2DP_STATE_DISCONNECTED →
  d_io dev = None ∧ d_session dev = None.

Definition dev_inv (m : gmap nat a2dp_device) : Prop :=
  map_Forall (fun _ dev => dev_ok dev) m.

(** The AVDTP engine hands its callbacks the session they belong to,
    never [NULL]: the open confirmation is the one callback that looks a
    device up by that session and then writes to it. *)
Definition event_wf (e : event) : Prop :=
  match e with
  | ev_open_cfm session err _ _ => err = false → session ≠ None
  | _ => True
  end.

(** ** Setups and the state of their device *)

Definition connected_or_disconnecting (dev : a2dp_device) : Prop :=
  d_state dev = HAL_A2DP_STATE_CONNECTED ∨
  d_state dev = HAL_A2DP_STATE_DISCONNECTING.

(** The device pointers held by the setups. *)
Definition setup_devs (c : coordinator) : list nat := s_dev <$> setups c.

(** What holds of the device store and the setup list after any sequence
    of events: an allocated device that holds a session, or that a setup
    points to, is Connected or Disconnecting; and every address in use
    is below the allocation mark. *)
Record setups_inv (c : coordinator) : Prop := mk_setups_inv {
  si_dev : ∀ p dev, dev_mem c !! p = Some dev →
                    d_session dev ≠ None ∨ p ∈ setup_devs c →
                    connected_or_disconnecting dev;
  si_brk_dev : ∀ p, is_Some (dev_mem c !! p) → (p < brk c)%nat;
  si_brk_setup : ∀ p, p ∈ setup_devs c → (p < brk c)%nat
}.

(** What the collaborators guarantee when they call back: the AVDTP
    engine passes the session the callback belongs to, never [NULL], and
    it delivers the discover callback to the device that holds that
    session. *)
Definition event_ok (c : coordinator) (e : event) : Prop :=
  match e with
  | ev_setconf_ind session _ _ _ => session ≠ None
  | ev_discover_cb session dev _ _ =>
      session ≠ None ∧
      ∀ d, dev_mem c !! dev = Some d → d_session d = session
  | _ => event_wf e
  end.

(** A sequence of events each of which meets [event_ok] in the state
    that receives it. *)
Fixpoint run_ok (es : list event) (c : coordinator) : Prop :=
  match es with
  | [] => True
  | e :: es' =>
      event_ok c e ∧ ∀ c1, step e c = Some c1 → run_ok es' c1
  end.

(** [c'] differs from [c] at most in the device at [p] and in the
    trace. *)
Definition local_at (p : nat) (c c' : coordinator) : Prop :=
  setups c' = setups c ∧ brk c' = brk c ∧
  ∀ q, q ≠ p → dev_mem c' !! q = dev_mem c !! q.

(** How a handler may leave a device it rewrites: as it was, or
    Connected or Disconnecting, or in the same state with no session, or
    in the same state with the same session. *)
Definition dev_step (d d' : a2dp_device) : Prop :=
  d' = d ∨ connected_or_disconnecting d' ∨
  (d_session d' = None ∧ d_state d' = d_state d) ∨
  (d_session d' = d_session d ∧ d_state d' = d_state d).

(** Scenario S2 followed by a local disconnect of peer B. *)
Definition scenario_S2_disconnect : list event :=
  scenario_S2 ++ [ev_a2dp_disconnect addr_B].

(** Scenario S2 followed by the open confirmation, whose transport
    connect is still pending when peer B is disconnected locally. *)
Definition scenario_S2_pending_disconnect : list event :=
  scenario_S2 ++
  [ev_open_cfm (Some 50%nat) false
     {| io_chan := Some 77%nat; io_err := false |} 1%nat;
   ev_a2dp_disconnect addr_B].

(** A proposal whose MEDIA_CODEC capability carries 128 bytes of codec
    data: the length of the capability is 130. *)
Definition caps_long_codec : list avdtp_service_capability :=
  [cap_media_transport; cap_media_codec A2DP_CODEC_SBC (repeat 0 128)].

(** An OPEN command with one preset of 128 bytes, all of them inside the
    command, which is 18 + 1 + 128 bytes long. *)
Definition cmd_open_long_preset : audio_cmd_open :=
  {| cmd_uuid := repeat 0 16;
     cmd_codec := A2DP_CODEC_SBC;
     cmd_presets := 1;
     cmd_preset := 128 :: repeat 0 128 |}.

(** * Further parts of the file *)

(** ** Building capabilities *)

Definition AVDTP_MEDIA_TYPE_AUDIO : Z := 0.

(** Modelled from the spec: [avdtp_service_cap_new] of [avdtp.c] is
    missing.  It makes a capability of the given category whose payload
    is a copy of [length] bytes of [data]; the length is kept in a
    [uint8_t]. *)
Definition avdtp_service_cap_new (category : Z) (data : list Z) (length : Z)
    : avdtp_service_capability :=
  {| cap_category := category;
     cap_length := to_uint8 length;
     cap_data := take (Z.to_nat length) data |}.

(** The MEDIA_CODEC capability that [sep_getcap_ind] and
    [select_configuration] build from a preset: a zeroed
    [struct avdtp_media_codec_capability] with the media type (high four
    bits of the first byte) and the codec type filled in, followed by the
    [len] bytes of the preset.  A negative [len] makes the [memcpy]
    undefined. *)
Definition media_codec_capability (codec : Z) (preset : a2dp_preset)
    : option avdtp_service_capability :=
  if p_len preset <? 0 then None
  else
    let bytes := Z.shiftl AVDTP_MEDIA_TYPE_AUDIO 4 :: codec ::
                 take (Z.to_nat (p_len preset)) (p_data preset) in
    Some (avdtp_service_cap_new AVDTP_MEDIA_CODEC bytes
            (sizeof_media_codec_capability + p_len preset)).

(** The capability list of both functions: MEDIA_TRANSPORT with an empty
    payload, then the MEDIA_CODEC capability. *)
Definition codec_caps (codec : Z) (preset : a2dp_preset)
    : option (list avdtp_service_capability) :=
  cap ← media_codec_capability codec preset;
  Some [avdtp_service_cap_new AVDTP_MEDIA_TRANSPORT [] 0; cap].

(** [sep_getcap_ind]: the [gboolean] and the list left in [*caps]. *)
Definition sep_getcap_ind (ep : nat) (c : coordinator)
    : option (bool * list avdtp_service_capability) :=
  endpoint ← ep_mem c !! ep;
  caps ← codec_caps (e_codec endpoint) (e_caps endpoint);
  Some (true, caps).

(** The capability list that [select_configuration] hands to
    [avdtp_set_configuration] for the preset it selected. *)
Definition select_configuration_caps (endpoint : a2dp_endpoint)
    (rsep : avdtp_service_capability)
    : option (list avdtp_service_capability) :=
  preset ← select_preset endpoint rsep;
  codec_caps (e_codec endpoint) preset.

(** A buffer of bytes. *)
Definition bytes (p : list Z) : Prop := Forall (fun b => 0 ≤ b < 256) p.

(** ** The device table over the life of the process *)

(** The list [devices] and the store agree: the list holds the allocated
    device records, each once, all below the allocation mark, and no two
    records carry the same address. *)
Record devs_inv (c : coordinator) : Prop := mk_devs_inv {
  di_listed : ∀ p, p ∈ devices c ↔ is_Some (dev_mem c !! p);
  di_nodup : NoDup (devices c);
  di_brk : ∀ p, p ∈ devices c → (p < brk c)%nat;
  di_addr : ∀ p q dp dq,
      dev_mem c !! p = Some dp → dev_mem c !! q = Some dq →
      d_dst dp = d_dst dq → p = q
}.

(** ** State and session of a device *)

(** A Connected device holds a session; a Connecting one does not yet. *)
Definition session_ok (dev : a2dp_device) : Prop :=
  (d_state dev = HAL_A2DP_STATE_CONNECTED → d_session dev ≠ None) ∧
  (d_state dev = HAL_A2DP_STATE_CONNECTING → d_session dev = None).

Definition sess_inv (m : gmap nat a2dp_device) : Prop :=
  map_Forall (fun _ dev => session_ok dev) m.

(** ** Registration of the service *)

Definition L2CAP_PSM_AVDTP : Z := 25.
Definition SVC_HINT_CAPTURING : Z := 8.

(** The calls [bt_a2dp_register] and [bt_a2dp_unregister] make on the
    IPC layers, BtIO, the adapter and the listening channel. *)
Inductive module_call :=
| audio_ipc_init
| bt_io_listen (src : list Z) (psm : Z)
| bt_adapter_add_record (svc_hint : Z)
| sdp_record_free
| ipc_register
| audio_ipc_register
| ipc_unregister
| audio_ipc_unregister
| bt_adapter_remove_record (handle : Z)
| server_shutdown (io : nat)
| server_unref (io : nat)
| audio_ipc_cleanup.

(** The coordinator together with the statics only registration
    touches: [server], [adapter_addr] and [record_id].  [m_calls] logs
    the calls of the two functions in order; the outputs of the handlers
    they run stay in the trace of the coordinator. *)
Record a2dp_module := mk_a2dp_module {
  m_coord : coordinator;
  m_server : option nat;
  m_adapter_addr : list Z;
  m_record_id : Z;
  m_calls : list module_call
}.

Definition module_init : a2dp_module :=
  {| m_coord := coordinator_init; m_server := None; m_adapter_addr := [];
     m_record_id := 0; m_calls := [] |}.

Definition call (k : module_call) (m : a2dp_module) : a2dp_module :=
  {| m_coord := m_coord m; m_server := m_server m;
     m_adapter_addr := m_adapter_addr m; m_record_id := m_record_id m;
     m_calls := m_calls m ++ [k] |}.

Definition set_coord (c : coordinator) (m : a2dp_module) : a2dp_module :=
  {| m_coord := c; m_server := m_server m;
     m_adapter_addr := m_adapter_addr m; m_record_id := m_record_id m;
     m_calls := m_calls m |}.

Definition set_server (s : option nat) (m : a2dp_module) : a2dp_module :=
  {| m_coord := m_coord m; m_server := s;
     m_adapter_addr := m_adapter_addr m; m_record_id := m_record_id m;
     m_calls := m_calls m |}.

Definition set_adapter_addr (a : list Z) (m : a2dp_module) : a2dp_module :=
  {| m_coord := m_coord m; m_server := m_server m;
     m_adapter_addr := a; m_record_id := m_record_id m;
     m_calls := m_calls m |}.

Definition set_record_id (r : Z) (m : a2dp_module) : a2dp_module :=
  {| m_coord := m_coord m; m_server := m_server m;
     m_adapter_addr := m_adapter_addr m; m_record_id := r;
     m_calls := m_calls m |}.

(** What [bt_a2dp_register] learns from its collaborators: the channel
    [bt_io_listen] returns or [NULL], whether [a2dp_record] could
    allocate the SDP record (it returns [NULL] exactly when
    [sdp_record_alloc] does), the value of [bt_adapter_add_record] and
    the handle the adapter stored in the record, a [uint32_t] like
    [record_id]. *)
Record register_env := mk_register_env {
  rg_listen : option nat;
  rg_record : bool;
  rg_add_record : Z;
  rg_handle : Z
}.

(** The [fail] label of [bt_a2dp_register]. *)
Definition register_fail (srv : nat) (m : a2dp_module) : bool * a2dp_module :=
  (false, set_server None (call (server_unref srv)
                             (call (server_shutdown srv) m))).

(** [bt_a2dp_register]. *)
Definition bt_a2dp_register (addr : list Z) (env : register_env)
    (m : a2dp_module) : bool * a2dp_module :=
  let m1 := set_adapter_addr addr (call audio_ipc_init m) in
  let m2 := set_server (rg_listen env)
              (call (bt_io_listen addr L2CAP_PSM_AVDTP) m1) in
  match rg_listen env with
  | None => (false, m2)
  | Some srv =>
      if negb (rg_record env) then register_fail srv m2
      else
        let m3 := call (bt_adapter_add_record SVC_HINT_CAPTURING) m2 in
        if rg_add_record env <? 0
        then register_fail srv (call sdp_record_free m3)
        else (true, call audio_ipc_register
                      (call ipc_register
                         (set_record_id (rg_handle env) m3)))
  end.

(** [g_slist_foreach]: GLib reads the link to the next node before it
    calls the function, so the walk is over the list as it was at the
    start, also when the function unlinks the node it is given. *)
Fixpoint g_slist_foreach {A : Type}
    (f : A → coordinator → option coordinator) (l : list A)
    (c : coordinator) : option coordinator :=
  match l with
  | [] => Some c
  | x :: l' => c1 ← f x c; g_slist_foreach f l' c1
  end.

(** [setup_free]: reads the preset list of the setup's endpoint; the
    release itself leaves no mark on the state. *)
Definition setup_free (setup : a2dp_setup) (c : coordinator)
    : option coordinator :=
  _ ← ep_structs c !! s_endpoint setup;
  Some c.

(** [a2dp_device_disconnected]. *)
Definition a2dp_device_disconnected (p : nat) (c : coordinator)
    : option coordinator :=
  bt_a2dp_notify_state p HAL_A2DP_STATE_DISCONNECTED c.

(** [bt_a2dp_unregister]; [g_slist_free_full] walks the list with the
    function and then releases the nodes. *)
Definition bt_a2dp_unregister (m : a2dp_module) : option a2dp_module :=
  let c := m_coord m in
  c1 ← g_slist_foreach setup_free (setups c) c;
  let c2 := set_setups [] c1 in
  c3 ← g_slist_foreach unregister_endpoint (endpoints c2) c2;
  let c4 := set_endpoints [] c3 in
  c5 ← g_slist_foreach a2dp_device_disconnected (devices c4) c4;
  let c6 := set_devices [] c5 in
  let m1 := call audio_ipc_unregister (call ipc_unregister (set_coord c6 m)) in
  let m2 := set_record_id 0
              (call (bt_adapter_remove_record (m_record_id m1)) m1) in
  let m3 := match m_server m2 with
            | Some srv =>
                set_server None (call (server_unref srv)
                                   (call (server_shutdown srv) m2))
            | None => m2
            end in
  Some (call audio_ipc_cleanup m3).

(** The Disconnected notifications [bt_a2dp_unregister] sends for the
    devices of a list: one for each device that is not already in the
    Disconnected state. *)
Definition disconnect_notifs (m : gmap nat a2dp_device) (l : list nat)
    : list (list Z * Z) :=
  omap (fun p => d ← m !! p;
                 if decide (d_state d = HAL_A2DP_STATE_DISCONNECTED)
                 then None
                 else Some (d_dst d, HAL_A2DP_STATE_DISCONNECTED)) l.

(** The SEPs [bt_a2dp_unregister] takes back for the endpoints of a
    list. *)
Definition sep_unregistrations (m : gmap nat a2dp_endpoint) (l : list nat)
    : list output :=
  omap (fun p => e ← m !! p; s ← e_sep e; Some (avdtp_unregister_sep s)) l.

(** The lists of a coordinator point at allocated records only (for an
    endpoint, a record that holds its blobs), and no endpoint or device
    is listed twice. *)
Record lists_ok (c : coordinator) : Prop := mk_lists_ok {
  lo_setups : ∀ s, s ∈ setups c → is_Some (ep_mem c !! s_endpoint s);
  lo_endpoints : ∀ p, p ∈ endpoints c → is_Some (ep_mem c !! p);
  lo_endpoints_nodup : NoDup (endpoints c);
  lo_devices : ∀ p, p ∈ devices c → is_Some (dev_mem c !! p);
  lo_devices_nodup : NoDup (devices c)
}.

(** * Properties *)

(** ** The SBC validator *)

Lemma sbc_check_config_result caps caps_len conf conf_len :
  sbc_check_config caps caps_len conf conf_len = 0 ∨
  sbc_check_config caps caps_len conf conf_len = - EINVAL.
Proof.
  unfold sbc_check_config.
  repeat match goal with |- context [if ?b then _ else _] => destruct b end;
    auto.
Qed.

(** What the validator checks: the two lengths and four of the five
    masked fields. *)
Lemma sbc_check_config_accepts caps caps_len conf conf_len :
  sbc_check_config caps caps_len conf conf_len = 0 ↔
  conf_len = caps_len ∧ conf_len = sizeof_a2dp_sbc_t ∧
  Z.land (frequency (as_a2dp_sbc_t caps))
         (frequency (as_a2dp_sbc_t conf)) ≠ 0 ∧
  Z.land (channel_mode (as_a2dp_sbc_t caps))
         (channel_mode (as_a2dp_sbc_t conf)) ≠ 0 ∧
  Z.land (block_length (as_a2dp_sbc_t caps))
         (block_length (as_a2dp_sbc_t conf)) ≠ 0 ∧
  Z.land (allocation_method (as_a2dp_sbc_t caps))
         (allocation_method (as_a2dp_sbc_t conf)) ≠ 0.
Proof.
  unfold sbc_check_config, EINVAL.
  destruct (Z.eqb_spec conf_len caps_len) as [E1|E1]; cbn [negb orb];
    [|split; [discriminate | tauto]].
  destruct (Z.eqb_spec conf_len sizeof_a2dp_sbc_t) as [E2|E2]; cbn [negb];
    [|split; [discriminate | tauto]].
  cbv zeta.
  repeat match goal with
         | |- context [?a =? 0] =>
             destruct (Z.eqb_spec a 0);
               [split; [discriminate | tauto] |]
         end.
  tauto.
Qed.

(** C1, evaluated on the code: the local capabilities [ff f7 02 35] offer
    the subbands mask [01], the peer configuration [21 19 02 35] asks for
    the subbands value [10]; the two have no bit in common, yet
    [sbc_check_config] returns [0], because the subbands field is never
    compared. *)
Theorem sbc_check_config_skips_subbands :
  Z.land (subbands (as_a2dp_sbc_t [255; 247; 2; 53]))
         (subbands (as_a2dp_sbc_t [33; 25; 2; 53])) = 0 ∧
  sbc_check_config [255; 247; 2; 53] 4 [33; 25; 2; 53] 4 = 0.
Proof. split; reflexivity. Qed.

(** ** State changes of a device *)

Lemma conn_state_notifs_app t1 t2 :
  conn_state_notifs (t1 ++ t2) = conn_state_notifs t1 ++ conn_state_notifs t2.
Proof. unfold conn_state_notifs. apply omap_app. Qed.

Lemma a2dp_device_free_spec p dev c :
  dev_mem c !! p = Some dev →
  ∃ c', a2dp_device_free p c = Some c' ∧
        dev_mem c' = delete p (dev_mem c) ∧
        devices c' = g_slist_remove (devices c) p ∧
        ep_mem c' = ep_mem c ∧ endpoints c' = endpoints c ∧
        setups c' = setups c ∧ brk c' = brk c ∧
        trace c' = trace c ++
          match d_session dev with Some s => [avdtp_unref s] | None => [] end
          ++ match d_io dev with
             | Some io => [g_io_channel_shutdown io; g_io_channel_unref io]
             | None => []
             end.
Proof.
  intros H. unfold a2dp_device_free. rewrite H. cbn.
  eexists; split; [reflexivity|].
  destruct (d_session dev), (d_io dev); cbn;
    rewrite ?app_nil_r, <- ?app_assoc; auto 10.
Qed.

(** C3: [bt_a2dp_notify_state] leaves the coordinator exactly as it was
    when the requested state is the device's current one; otherwise it
    adds exactly one CONN_STATE notification, carrying the device's
    address and the new state, and the device either holds the new state
    or, when the new state is Disconnected, is gone from the store and
    from the device table. *)
Theorem bt_a2dp_notify_state_once c p dev state :
  dev_mem c !! p = Some dev →
  (d_state dev = state → bt_a2dp_notify_state p state c = Some c) ∧
  (d_state dev ≠ state →
   ∃ c', bt_a2dp_notify_state p state c = Some c' ∧
     conn_state_notifs (trace c') =
       conn_state_notifs (trace c) ++ [(d_dst dev, state)] ∧
     (state ≠ HAL_A2DP_STATE_DISCONNECTED →
        dev_mem c' = <[p := set_d_state state dev]> (dev_mem c) ∧
        devices c' = devices c) ∧
     (state = HAL_A2DP_STATE_DISCONNECTED →
        dev_mem c' !! p = None ∧
        devices c' = g_slist_remove (devices c) p)).
Proof.
  intros H. unfold bt_a2dp_notify_state. rewrite H. cbn.
  split; intros Hs.
  - rewrite decide_True by done. reflexivity.
  - rewrite decide_False by done.
    destruct (decide (state ≠ HAL_A2DP_STATE_DISCONNECTED)) as [Hd|Hd].
    + eexists; split; [reflexivity|]. cbn.
      rewrite conn_state_notifs_app. cbn. split_and!; [done|done|done].
    + apply dec_stable in Hd.
      set (c2 := emit _ _).
      destruct (a2dp_device_free_spec p (set_d_state state dev) c2)
        as (c' & -> & Hm & Hl & _ & _ & _ & _ & Ht).
      { subst c2. cbn. apply lookup_insert_eq. }
      exists c'. split; [reflexivity|]. split_and!.
      * rewrite Ht. subst c2. cbn.
        rewrite !conn_state_notifs_app. cbn.
        destruct (d_session dev), (d_io dev); cbn;
          rewrite ?app_nil_r; reflexivity.
      * done.
      * intros _. split; [rewrite Hm; apply lookup_delete_eq | by rewrite Hl].
Qed.

Lemma bt_a2dp_notify_state_once_witness :
  let dev := {| d_dst := addr_A; d_state := HAL_A2DP_STATE_CONNECTED;
                d_io := None; d_session := Some 50%nat |} in
  let c := set_devices [1%nat]
             (set_dev_mem {[ 1%nat := dev ]} coordinator_init) in
  dev_mem c !! 1%nat = Some dev ∧
  ∃ c', bt_a2dp_notify_state 1 HAL_A2DP_STATE_DISCONNECTING c = Some c' ∧
        conn_state_notifs (trace c') =
          conn_state_notifs (trace c) ++
            [(d_dst dev, HAL_A2DP_STATE_DISCONNECTING)].
Proof.
  intros dev c.
  assert (H : dev_mem c !! 1%nat = Some dev) by reflexivity.
  split; [exact H|].
  destruct (bt_a2dp_notify_state_once c 1%nat dev
              HAL_A2DP_STATE_DISCONNECTING H) as [_ Hne].
  destruct Hne as (c' & Hc' & Hn & _); [discriminate|].
  exists c'. split; assumption.
Defined.

(** ** Devices that reach Disconnected *)

(** C4, evaluated on the code: an incoming connection from an unknown
    peer creates a device record, zeroed and therefore already in state
    Disconnected; when the signaling set-up then fails (the MTU query
    fails, or [avdtp_new] returns [NULL]) the request to enter
    Disconnected finds the state unchanged and returns at once.  The
    record stays in the device table in state Disconnected and no
    notification is sent. *)
Theorem incoming_failure_leaves_disconnected_device :
  let dev := {| d_dst := addr_B; d_state := HAL_A2DP_STATE_DISCONNECTED;
                d_io := None; d_session := None |} in
  let mtu_failure := {| sg_get_ok := false; sg_avdtp_new := None;
                        sg_discover := 0 |} in
  let no_session := {| sg_get_ok := true; sg_avdtp_new := None;
                       sg_discover := 0 |} in
  (c ← run [incoming addr_B mtu_failure] coordinator_init;
   Some (devices c, dev_mem c !! 1%nat, trace c))
    = Some ([1%nat], Some dev, []) ∧
  (c ← run [incoming addr_B no_session] coordinator_init;
   Some (devices c, dev_mem c !! 1%nat, trace c))
    = Some ([1%nat], Some dev, []).
Proof. split; reflexivity. Qed.

(** ** Setups and their device *)

(** C5: the claim fails on a remote drop with a setup in place.  After
    scenario S2 the AVDTP disconnect callback fires for the device of
    the setup.  The device is announced as Disconnected, its record is
    released and leaves the device table, but [a2dp_device_free] does
    not look at the setups: the setup stays in the setup list with its
    [dev] pointer, a live setup whose device has been destroyed.  A
    later CLOSE_STREAM for the endpoint reads the session through that
    pointer, which has no defined result. *)
Theorem disconnect_cb_leaves_setup_without_device :
  (c ← run (scenario_S2 ++ [ev_disconnect_cb 2%nat]) coordinator_init;
   Some (setups c, dev_mem c !! 2%nat, devices c,
         conn_state_notifs (trace c)))
    = Some ([ {| s_dev := 2%nat; s_endpoint := 1%nat;
                 s_preset := {| p_data := sbc_pref_blob; p_len := 4 |};
                 s_stream := 9%nat |} ],
            None, [],
            [(addr_B, HAL_A2DP_STATE_CONNECTED);
             (addr_B, HAL_A2DP_STATE_DISCONNECTED)]) ∧
  run (scenario_S2 ++ [ev_disconnect_cb 2%nat; ev_stream_close 1 0])
    coordinator_init = None.
Proof. split; reflexivity. Qed.

(** The same happens on a local disconnect while the transport channel
    of the stream is still being connected: [bt_a2dp_disconnect] finds
    the pending channel, announces Disconnected at once and releases the
    device, and the setup stays behind. *)
Lemma bt_a2dp_disconnect_leaves_setup_without_device :
  (c ← run scenario_S2_pending_disconnect coordinator_init;
   Some (setups c, dev_mem c !! 2%nat, devices c,
         conn_state_notifs (trace c)))
    = Some ([ {| s_dev := 2%nat; s_endpoint := 1%nat;
                 s_preset := {| p_data := sbc_pref_blob; p_len := 4 |};
                 s_stream := 9%nat |} ],
            None, [],
            [(addr_B, HAL_A2DP_STATE_CONNECTED);
             (addr_B, HAL_A2DP_STATE_DISCONNECTED)]).
Proof. reflexivity. Qed.

(** ** Reading endpoint records *)

Lemma ep_structs_live c p e :
  ep_mem c !! p = Some e → ep_structs c !! p = Some e.
Proof. intros H. unfold ep_structs. by apply lookup_union_Some_l. Qed.

Lemma ep_structs_is_Some c p :
  is_Some (ep_mem c !! p) → is_Some (ep_structs c !! p).
Proof. intros [e H]. exists e. by apply ep_structs_live. Qed.

Lemma ep_structs_None c p :
  ep_structs c !! p = None ↔ ep_mem c !! p = None ∧ ep_released c !! p = None.
Proof. unfold ep_structs. apply lookup_union_None. Qed.

(** ** Confirmations and the setup list *)

Lemma find_setup_from_found m l id :
  ∀ k i s, find_setup_from k m l id = Some (Some (i, s)) →
    (k ≤ i)%nat ∧ l !! (i - k)%nat = Some s ∧
    ∃ e, m !! s_endpoint s = Some e ∧ e_id e = id.
Proof.
  induction l as [|s0 l IH]; intros k i s; cbn; [discriminate|].
  destruct (m !! s_endpoint s0) as [e|] eqn:He; cbn; [|discriminate].
  destruct (decide (e_id e = id)) as [Hid|Hid].
  - intros [= <- <-]. rewrite Nat.sub_diag. eauto.
  - intros H. apply IH in H as (Hk & Hl & He').
    split; [lia|]. split; [|exact He'].
    replace (i - k)%nat with (S (i - S k)) by lia. exact Hl.
Qed.

Lemma find_setup_found c id i s :
  find_setup c id = Some (Some (i, s)) →
  setups c !! i = Some s ∧
  ∃ e, ep_structs c !! s_endpoint s = Some e ∧ e_id e = id.
Proof.
  intros H. apply find_setup_from_found in H as (_ & Hl & He).
  rewrite Nat.sub_0_r in Hl. auto.
Qed.

Lemma setup_remove_by_id_found c id i s :
  find_setup c id = Some (Some (i, s)) →
  setup_remove_by_id id c = Some (set_setups (delete i (setups c)) c).
Proof.
  intros H. unfold setup_remove_by_id. rewrite H. cbn.
  apply find_setup_found in H as (_ & e & He & _).
  unfold setup_remove. rewrite He. reflexivity.
Qed.

(** C7 as the code has it: an error in the start or suspend confirmation
    destroys the setup of the endpoint and a success leaves it; for close
    and abort it is the success that destroys the setup, and an error
    leaves the coordinator as it was. *)
Theorem cfm_setup_destruction c ep endpoint i s :
  ep_mem c !! ep = Some endpoint →
  find_setup c (e_id endpoint) = Some (Some (i, s)) →
  setups c !! i = Some s ∧
  sep_start_cfm true ep c = Some (set_setups (delete i (setups c)) c) ∧
  sep_suspend_cfm true ep c = Some (set_setups (delete i (setups c)) c) ∧
  sep_close_cfm false ep c = Some (set_setups (delete i (setups c)) c) ∧
  sep_abort_cfm false ep c = Some (set_setups (delete i (setups c)) c) ∧
  sep_start_cfm false ep c = Some c ∧
  sep_suspend_cfm false ep c = Some c ∧
  sep_close_cfm true ep c = Some c ∧
  sep_abort_cfm true ep c = Some c.
Proof.
  intros He Hf.
  pose proof (setup_remove_by_id_found _ _ _ _ Hf) as Hr.
  apply find_setup_found in Hf as [Hs _].
  unfold sep_start_cfm, sep_suspend_cfm, sep_close_cfm, sep_abort_cfm.
  rewrite (ep_structs_live _ _ _ He). cbn. rewrite Hr. split_and!; done.
Qed.

Lemma cfm_setup_destruction_witness :
  ∃ c s, run scenario_S2 coordinator_init = Some c ∧
         setups c = [s] ∧
         sep_start_cfm true 1%nat c = Some (set_setups [] c) ∧
         sep_close_cfm false 1%nat c = Some (set_setups [] c).
Proof.
  eexists. eexists.
  split; [vm_compute; reflexivity|].
  split; [reflexivity|].
  match goal with
  | |- sep_start_cfm _ _ ?c = _ ∧ _ =>
      pose proof (cfm_setup_destruction c 1%nat
        {| e_id := 1; e_codec := A2DP_CODEC_SBC; e_sep := Some 100%nat;
           e_caps := {| p_data := sbc_caps_blob; p_len := 4 |};
           e_presets := [{| p_data := sbc_pref_blob; p_len := 4 |}] |}
        0%nat
        {| s_dev := 2%nat; s_endpoint := 1%nat;
           s_preset := {| p_data := sbc_pref_blob; p_len := 4 |};
           s_stream := 9%nat |}
        eq_refl eq_refl) as (_ & H1 & _ & H2 & _)
  end.
  split; [exact H1 | exact H2].
Defined.

(** C7 as stated fails for close: with the setup of scenario S2 in place,
    a close confirmation that carries an error leaves the setup in the
    list. *)
Lemma sep_close_cfm_error_keeps_setup :
  ∃ c s, run scenario_S2 coordinator_init = Some c ∧
         find_setup c 1 = Some (Some (0%nat, s)) ∧
         sep_close_cfm true 1%nat c = Some c ∧
         sep_abort_cfm true 1%nat c = Some c ∧
         setups c = [s].
Proof.
  eexists. eexists.
  split; [vm_compute; reflexivity|].
  split_and!; reflexivity.
Qed.

(** ** Peer-proposed configurations *)

Lemma check_config_result endpoint config :
  check_config endpoint config = 0 ∨ check_config endpoint config = - EINVAL.
Proof.
  unfold check_config.
  destruct (check_config_presets _ _); [by left|].
  destruct (_ =? _); [apply sbc_check_config_result | by right].
Qed.

Lemma check_config_negative endpoint config :
  (check_config endpoint config <? 0) = true ↔
  check_config endpoint config ≠ 0.
Proof.
  destruct (check_config_result endpoint config) as [-> | ->];
    unfold EINVAL; cbn; split; intros; try done.
Qed.

Lemma memcmp_eq_wf a b :
  preset_wf a → preset_wf b → p_len a = p_len b →
  memcmp_eq (p_data a) (p_data b) (p_len a) = true ↔ p_data a = p_data b.
Proof.
  unfold preset_wf, memcmp_eq. intros Ha Hb Hl.
  rewrite bool_decide_eq_true.
  rewrite (take_ge (p_data a)) by lia.
  rewrite (take_ge (p_data b)) by lia. done.
Qed.

Lemma check_config_presets_wf l config :
  Forall preset_wf l → preset_wf config →
  check_config_presets l config = true ↔
  ∃ p, p ∈ l ∧ p_len p = p_len config ∧ p_data p = p_data config.
Proof.
  intros Hl Hc. induction Hl as [|p l Hp Hl IH]; cbn.
  - split; [discriminate|]. intros (p & Hin & _). by apply elem_of_nil in Hin.
  - destruct (Z.eqb_spec (p_len p) (p_len config)) as [E|E]; cbn.
    + destruct (memcmp_eq _ _ _) eqn:Hm.
      * split; [intros _|done]. exists p. split; [left|].
        split; [done|]. by apply memcmp_eq_wf.
      * rewrite IH. split.
        -- intros (q & Hin & Hq). exists q. split; [by right | done].
        -- intros (q & Hin & Hq1 & Hq2).
           apply elem_of_cons in Hin as [-> | Hin]; [|eauto].
           apply memcmp_eq_wf in Hq2; [congruence | done | done | done].
    + rewrite IH. split.
      * intros (q & Hin & Hq). exists q. split; [by right | done].
      * intros (q & Hin & Hq1 & Hq2).
        apply elem_of_cons in Hin as [-> | Hin]; [done | eauto].
Qed.

(** [check_config] accepts exactly the blobs that are stored among the
    preferred presets, and those the validator of the endpoint's codec
    accepts against the capabilities. *)
Lemma check_config_accepts endpoint config :
  Forall preset_wf (e_presets endpoint) → preset_wf config →
  check_config endpoint config = 0 ↔
  (∃ p, p ∈ e_presets endpoint ∧ p_len p = p_len config ∧
        p_data p = p_data config) ∨
  (e_codec endpoint = A2DP_CODEC_SBC ∧
   sbc_check_config (p_data (e_caps endpoint))
     (to_uint8 (p_len (e_caps endpoint)))
     (p_data config) (to_uint8 (p_len config)) = 0).
Proof.
  intros Hl Hc. rewrite <- (check_config_presets_wf _ _ Hl Hc).
  unfold check_config.
  destruct (check_config_presets _ _); [split; auto|].
  destruct (Z.eqb_spec (e_codec endpoint) A2DP_CODEC_SBC) as [E|E].
  - split; [auto|]. intros [?|[_ ?]]; done.
  - unfold EINVAL. split; [done|]. intros [?|[? _]]; done.
Qed.

Lemma find_device_by_session_in_defined m l session :
  Forall (fun p => is_Some (m !! p)) l →
  ∃ r, find_device_by_session_in m l session = Some r ∧
       match r with
       | Some p => p ∈ l ∧ ∃ dev, m !! p = Some dev ∧ d_session dev = session
       | None => True
       end.
Proof.
  intros H. induction H as [|p l Hp Hl IH]; cbn; [by exists None|].
  destruct Hp as [dev Hp]. destruct IH as (r & IH & Hr).
  rewrite Hp. cbn. destruct (decide _) as [E|E].
  - eexists. split; [done|]. split; [left | eauto].
  - exists r. split; [done|]. destruct r; [|done].
    destruct Hr. split; [by right | done].
Qed.

(** The preset the loop of [sep_setconf_ind] holds at its end: the one
    built from the last MEDIA_CODEC capability. *)
Lemma setconf_caps_spec m rl ep endpoint caps :
  m !! ep = Some endpoint →
  codec_lengths_ok caps →
  ∀ acc, ∃ r, setconf_caps m rl ep caps acc = Some r ∧
    match r with
    | scan_reject =>
        ¬ (Forall (fun cap => cap_category cap ≠ AVDTP_DELAY_REPORTING) caps ∧
           Forall (fun cap => cap_category cap = AVDTP_MEDIA_CODEC →
                              codec_cap_ok endpoint cap) caps)
    | scan_done pr =>
        Forall (fun cap => cap_category cap ≠ AVDTP_DELAY_REPORTING) caps ∧
        Forall (fun cap => cap_category cap = AVDTP_MEDIA_CODEC →
                           codec_cap_ok endpoint cap) caps ∧
        pr = match last (media_codec_caps caps) with
             | Some cap => setconf_preset cap
             | None => acc
             end
    end.
Proof.
  intros He Hl. induction Hl as [|cap caps Hcap Hl IH]; intros acc; cbn [setconf_caps].
  - eexists. split; [done|]. cbn. auto.
  - destruct (Z.eqb_spec (cap_category cap) AVDTP_DELAY_REPORTING) as [Ed|Ed].
    { eexists. split; [done|]. intros [H _]. by inversion H. }
    unfold media_codec_caps. rewrite filter_cons.
    destruct (Z.eqb_spec (cap_category cap) AVDTP_MEDIA_CODEC) as [Ec|Ec];
      cbn [negb].
    + rewrite He. cbn. rewrite decide_True by done.
      destruct (Hcap Ec) as [new Hnew].
      destruct (Z.eqb_spec (media_codec_type cap) (e_codec endpoint))
        as [Et|Et]; cbn [negb].
      2:{ eexists. split; [done|]. intros [_ H]. inversion H as [|? ? Hc _].
          destruct (Hc Ec) as [? _]. done. }
      rewrite Hnew. cbn.
      destruct (check_config endpoint new <? 0) eqn:Hck.
      { eexists. split; [done|]. intros [_ H]. inversion H as [|? ? Hc _].
        destruct (Hc Ec) as (_ & new' & Hn' & Hz).
        apply check_config_negative in Hck. congruence. }
      destruct (IH (Some new)) as (r & -> & Hr).
      exists r. split; [done|]. destruct r as [|pr].
      * intros [H1 H2]. apply Hr. inversion H1; inversion H2; auto.
      * destruct Hr as (H1 & H2 & ->). split_and!.
        -- by constructor.
        -- constructor; [|done]. intros _. split; [done|].
           exists new. split; [done|].
           destruct (check_config_result endpoint new) as [Hz|Hz]; [done|].
           rewrite Hz in Hck. done.
        -- fold (media_codec_caps caps).
           destruct (media_codec_caps caps) as [|x xs] eqn:Hf; cbn; [done|].
           rewrite last_cons. by destruct (last xs).
    + rewrite decide_False by done.
      destruct (IH acc) as (r & -> & Hr).
      exists r. split; [done|]. destruct r as [|pr].
      * intros [H1 H2]. apply Hr. inversion H1; inversion H2; auto.
      * destruct Hr as (H1 & H2 & ->). split_and!.
        -- by constructor.
        -- constructor; [done | done].
        -- done.
Qed.

(** What [sep_setconf_ind] does on readable inputs, in terms of the
    conditions of the specification. *)
Lemma sep_setconf_ind_spec c session stream caps ep endpoint d :
  find_device_by_session c session = Some d →
  ep_mem c !! ep = Some endpoint →
  codec_lengths_ok caps →
  ∃ b c', sep_setconf_ind session stream caps ep c = Some (b, c') ∧
    (b = false → c' = c ∧
       ¬ (is_Some d ∧ proposal_acceptable endpoint caps)) ∧
    (b = true →
       proposal_acceptable endpoint caps ∧
       ∃ dev cap preset,
         d = Some dev ∧
         last (media_codec_caps caps) = Some cap ∧
         setconf_preset cap = Some preset ∧
         c' = emit (set_configuration_cb session stream None)
                (setup_add dev ep preset stream c)).
Proof.
  intros Hd He Hl. unfold sep_setconf_ind. rewrite Hd. cbn.
  destruct d as [dev|].
  2:{ eexists _, _. split; [done|]. split; [|done].
      intros _. split; [done|]. intros [[? ?] _]. done. }
  destruct (setconf_caps_spec _ (ep_released c) _ _ caps He Hl None)
    as (r & -> & Hr).
  destruct r as [|[preset|]].
  - eexists _, _. split; [done|]. split; [|done].
    intros _. split; [done|]. intros [_ (H1 & H2 & _)]. auto.
  - destruct Hr as (H1 & H2 & Hp).
    destruct (last (media_codec_caps caps)) as [cap|] eqn:Hlast; [|done].
    eexists _, _. split; [done|]. split; [done|]. intros _.
    split.
    + split_and!; [done|done|].
      apply last_Some in Hlast as [l' Hl'].
      assert (cap ∈ media_codec_caps caps) as Hin
        by (rewrite Hl'; apply elem_of_app; right; left).
      apply list_elem_of_filter in Hin as [Hc Hin].
      apply Exists_exists. eauto.
    + exists dev, cap, preset. done.
  - destruct Hr as (H1 & H2 & Hp).
    eexists _, _. split; [done|]. split; [|done].
    intros _. split; [done|]. intros [_ (_ & _ & H3)].
    destruct (last (media_codec_caps caps)) as [cap|] eqn:Hlast.
    + apply last_Some in Hlast as [l' Hl'].
      assert (cap ∈ media_codec_caps caps) as Hin
        by (rewrite Hl'; apply elem_of_app; right; left).
      apply list_elem_of_filter in Hin as [Hc Hin].
      unfold codec_lengths_ok in Hl. rewrite Forall_forall in Hl.
      destruct (Hl _ Hin Hc) as [? ?].
      congruence.
    + apply last_None in Hlast.
      apply Exists_exists in H3 as (cap & Hin & Hc).
      assert (cap ∈ media_codec_caps caps) as Hin'
        by (apply list_elem_of_filter; done).
      rewrite Hlast in Hin'. by apply elem_of_nil in Hin'.
Qed.

(** What [sep_setconf_ind] does when the length of every MEDIA_CODEC
    capability leaves a payload length that fits the [int8_t] field of
    the preset (lengths 2 to 129): it answers, and it rejects a proposal
    that holds a DELAY_REPORTING capability, or a MEDIA_CODEC capability
    of another codec type, or a MEDIA_CODEC capability whose preset
    fails [check_config], or no MEDIA_CODEC capability at all; a
    rejection changes nothing.  A proposal free of these defects, on a
    session that belongs to a device, is accepted; an acceptance appends
    one setup that binds the device of the session, the endpoint, the
    preset built from the last MEDIA_CODEC capability of the proposal
    and the stream, and calls the confirmation callback with no error.
    [check_config] accepts exactly the blobs equal (length and bytes) to
    a stored preset and those the codec validator accepts against the
    endpoint's capabilities. *)
Lemma sep_setconf_ind_correct c session stream caps ep endpoint :
  devices_readable c →
  ep_mem c !! ep = Some endpoint →
  codec_lengths_ok caps →
  ∃ b c', sep_setconf_ind session stream caps ep c = Some (b, c') ∧
    (Exists (fun cap => cap_category cap = AVDTP_DELAY_REPORTING) caps →
     b = false) ∧
    (Exists (fun cap => cap_category cap = AVDTP_MEDIA_CODEC ∧
                        media_codec_type cap ≠ e_codec endpoint) caps →
     b = false) ∧
    (Exists (fun cap => cap_category cap = AVDTP_MEDIA_CODEC ∧
                        ∃ preset, setconf_preset cap = Some preset ∧
                                  check_config endpoint preset ≠ 0) caps →
     b = false) ∧
    (Forall (fun cap => cap_category cap ≠ AVDTP_MEDIA_CODEC) caps →
     b = false) ∧
    (b = false → c' = c) ∧
    ((∃ dev, find_device_by_session c session = Some (Some dev)) →
     proposal_acceptable endpoint caps → b = true) ∧
    (b = true →
     ∃ dev dev_rec cap preset,
       find_device_by_session c session = Some (Some dev) ∧
       dev_mem c !! dev = Some dev_rec ∧ d_session dev_rec = session ∧
       last (media_codec_caps caps) = Some cap ∧
       setconf_preset cap = Some preset ∧
       setups c' = setups c ++
         [{| s_dev := dev; s_endpoint := ep; s_preset := preset;
             s_stream := stream |}] ∧
       trace c' = trace c ++ [set_configuration_cb session stream None] ∧
       dev_mem c' = dev_mem c ∧ ep_mem c' = ep_mem c ∧
       devices c' = devices c ∧ endpoints c' = endpoints c) ∧
    (∀ config,
       Forall preset_wf (e_presets endpoint) → preset_wf config →
       check_config endpoint config = 0 ↔
       (∃ p, p ∈ e_presets endpoint ∧ p_len p = p_len config ∧
             p_data p = p_data config) ∨
       (e_codec endpoint = A2DP_CODEC_SBC ∧
        sbc_check_config (p_data (e_caps endpoint))
          (to_uint8 (p_len (e_caps endpoint)))
          (p_data config) (to_uint8 (p_len config)) = 0)).
Proof.
  intros Hd He Hl.
  destruct (find_device_by_session_in_defined _ _ session Hd)
    as (d & Hfind & Hdev).
  fold (find_device_by_session c session) in Hfind.
  destruct (sep_setconf_ind_spec c session stream caps ep endpoint d
              Hfind He Hl) as (b & c' & Hrun & Hrej & Hacc).
  exists b, c'. split; [exact Hrun|].
  assert (Hb : b = true → proposal_acceptable endpoint caps)
    by (intros Hb; apply Hacc, Hb).
  split_and!.
  - intros Hex. destruct b; [|done]. destruct (Hb eq_refl) as (H1 & _ & _).
    apply Exists_exists in Hex as (cap & Hin & Hc).
    rewrite Forall_forall in H1. by destruct (H1 _ Hin).
  - intros Hex. destruct b; [|done]. destruct (Hb eq_refl) as (_ & H2 & _).
    apply Exists_exists in Hex as (cap & Hin & Hc & Ht).
    rewrite Forall_forall in H2. destruct (H2 _ Hin Hc) as [? _]. done.
  - intros Hex. destruct b; [|done]. destruct (Hb eq_refl) as (_ & H2 & _).
    apply Exists_exists in Hex as (cap & Hin & Hc & preset & Hp & Hk).
    rewrite Forall_forall in H2.
    destruct (H2 _ Hin Hc) as (_ & preset' & Hp' & Hz). congruence.
  - intros Hall. destruct b; [|done]. destruct (Hb eq_refl) as (_ & _ & H3).
    apply Exists_exists in H3 as (cap & Hin & Hc).
    rewrite Forall_forall in Hall. by destruct (Hall _ Hin).
  - intros Hf. by apply Hrej.
  - intros [dev Hdv] Hok. destruct b; [done|].
    destruct (Hrej eq_refl) as [_ Hn]. destruct Hn.
    rewrite Hdv in Hfind. injection Hfind as <-. split; [eauto | done].
  - intros Hbt.
    destruct (Hacc Hbt) as (_ & dev & cap & preset & -> & Hlast & Hp & ->).
    destruct Hdev as (_ & dev_rec & Hm & Hs).
    exists dev, dev_rec, cap, preset. split_and!; done.
  - intros config. apply check_config_accepts.
Qed.

Lemma sep_setconf_ind_correct_witness :
  ∃ c, run scenario_connected_B coordinator_init = Some c ∧
       devices_readable c ∧
       ep_mem c !! 1%nat = Some sample_endpoint ∧
       codec_lengths_ok caps_S2 ∧
       ∃ c', sep_setconf_ind (Some 50%nat) 9%nat caps_S2 1%nat c
               = Some (true, c') ∧
             setups c' =
               [{| s_dev := 2%nat; s_endpoint := 1%nat;
                   s_preset := {| p_data := sbc_pref_blob; p_len := 4 |};
                   s_stream := 9%nat |}].
Proof.
  eexists. split; [vm_compute; reflexivity|].
  assert (Hd : ∀ c, devices c = [2%nat] → is_Some (dev_mem c !! 2%nat) →
                    devices_readable c).
  { intros c Hl Hs. unfold devices_readable. rewrite Hl.
    constructor; [exact Hs | constructor]. }
  assert (Hl : codec_lengths_ok caps_S2).
  { unfold codec_lengths_ok, caps_S2.
    constructor; [discriminate|].
    constructor; [intros _; eexists; reflexivity | constructor]. }
  match goal with
  | |- devices_readable ?c ∧ _ =>
      pose proof (sep_setconf_ind_correct c (Some 50%nat) 9%nat caps_S2 1%nat
                    sample_endpoint
                    (Hd c eq_refl (ex_intro _ _ eq_refl)) eq_refl Hl)
        as (b & c' & Hrun & _ & _ & _ & _ & _ & _ & Hacc & _);
      split; [exact (Hd c eq_refl (ex_intro _ _ eq_refl))|]
  end.
  split; [reflexivity|]. split; [exact Hl|].
  vm_compute in Hrun. injection Hrun as <- <-.
  destruct (Hacc eq_refl)
    as (dev & dev_rec & cap & preset & _ & _ & _ & Hlast & Hp & Hs & _).
  injection Hlast as <-. injection Hp as <-.
  eexists. split; [vm_compute; reflexivity|]. reflexivity.
Defined.

(** Outside that range the call has no defined result, whatever the
    state: when the first capability of the proposal is a MEDIA_CODEC
    capability of the endpoint's codec type whose length is 130 or more,
    the payload length does not fit the [int8_t] field and [g_memdup]
    is called with a negative length. *)
Lemma sep_setconf_ind_long_codec c session stream cap caps ep endpoint dev :
  find_device_by_session c session = Some (Some dev) →
  ep_mem c !! ep = Some endpoint →
  cap_category cap = AVDTP_MEDIA_CODEC →
  media_codec_type cap = e_codec endpoint →
  130 ≤ cap_length cap ≤ 255 →
  sep_setconf_ind session stream (cap :: caps) ep c = None.
Proof.
  intros Hd He Hc Ht Hlen. unfold sep_setconf_ind. rewrite Hd.
  cbn [mbind option_bind setconf_caps]. rewrite Hc, He, Ht.
  cbn [Z.eqb AVDTP_MEDIA_CODEC AVDTP_DELAY_REPORTING negb].
  rewrite Z.eqb_refl. cbn [negb].
  assert (Hp : setconf_preset cap = None).
  { unfold setconf_preset, to_int8, sizeof_media_codec_capability.
    rewrite Z.mod_small by lia.
    destruct (Z.ltb_spec (cap_length cap - 2) 128); [lia|].
    destruct (Z.ltb_spec (cap_length cap - 2 - 256) 0); [done | lia]. }
  by rewrite Hp.
Qed.

(** C2: the claim fails on a proposal whose MEDIA_CODEC capability is
    longer than 129 bytes.  Scenario: the SBC endpoint is open and peer
    B is connected on session 50; the peer proposes MEDIA_TRANSPORT and
    an SBC MEDIA_CODEC capability of length 130.  The codec type
    matches, so the preset is built: its length 130 - 2 = 128 is stored
    in the [int8_t] field as -128, and [g_memdup] is called with that
    length.  The proposal is neither rejected nor accepted:
    [check_config] is never reached and the call has no defined
    result. *)
Theorem sep_setconf_ind_length_overflow :
  ∃ c cap,
    run scenario_connected_B coordinator_init = Some c ∧
    find_device_by_session c (Some 50%nat) = Some (Some 2%nat) ∧
    ep_mem c !! 1%nat = Some sample_endpoint ∧
    last (media_codec_caps caps_long_codec) = Some cap ∧
    cap_length cap = 130 ∧
    Z.of_nat (length (cap_data cap)) = 130 ∧
    media_codec_type cap = e_codec sample_endpoint ∧
    to_int8 (cap_length cap - sizeof_media_codec_capability) = -128 ∧
    setconf_preset cap = None ∧
    sep_setconf_ind (Some 50%nat) 9%nat caps_long_codec 1%nat c = None.
Proof.
  eexists _, _. split; [vm_compute; reflexivity|].
  split_and!; reflexivity.
Qed.

(** C10: a proposal with more than one MEDIA_CODEC capability, each of
    which passes the codec-type test and [check_config] (and with no
    DELAY_REPORTING capability, on the session of a device), is
    accepted, and the one setup that is appended binds the preset built
    from the last MEDIA_CODEC capability of the list. *)
Theorem sep_setconf_ind_binds_last_codec
    c session stream caps ep endpoint dev :
  find_device_by_session c session = Some (Some dev) →
  ep_mem c !! ep = Some endpoint →
  Forall (fun cap => cap_category cap ≠ AVDTP_DELAY_REPORTING) caps →
  Forall (fun cap => cap_category cap = AVDTP_MEDIA_CODEC →
                     codec_cap_ok endpoint cap) caps →
  (1 < length (media_codec_caps caps))%nat →
  ∃ cap preset,
    last (media_codec_caps caps) = Some cap ∧
    setconf_preset cap = Some preset ∧
    sep_setconf_ind session stream caps ep c =
      Some (true, emit (set_configuration_cb session stream None)
                    (setup_add dev ep preset stream c)) ∧
    setups (setup_add dev ep preset stream c) =
      setups c ++ [{| s_dev := dev; s_endpoint := ep; s_preset := preset;
                      s_stream := stream |}].
Proof.
  intros Hfind He Hnd Hok Hmany.
  assert (Hl : codec_lengths_ok caps).
  { unfold codec_lengths_ok. eapply Forall_impl; [exact Hok|].
    intros cap H Hc. destruct (H Hc) as (_ & preset & -> & _). eauto. }
  assert (Hex : Exists (fun cap => cap_category cap = AVDTP_MEDIA_CODEC) caps).
  { destruct (media_codec_caps caps) as [|cap l] eqn:Hf; [cbn in Hmany; lia|].
    assert (cap ∈ media_codec_caps caps) as Hin by (rewrite Hf; left).
    apply list_elem_of_filter in Hin as [Hc Hin].
    apply Exists_exists. eauto. }
  destruct (sep_setconf_ind_spec c session stream caps ep endpoint _
              Hfind He Hl) as (b & c' & Hrun & Hrej & Hacc).
  destruct b.
  - destruct (Hacc eq_refl) as (_ & dev' & cap & preset & [= <-] & H1 & H2 & ->).
    exists cap, preset. split_and!; done.
  - destruct (Hrej eq_refl) as [_ Hn]. destruct Hn.
    split; [eauto | split_and!; done].
Qed.

Lemma sep_setconf_ind_binds_last_codec_witness :
  ∃ c, run scenario_connected_B coordinator_init = Some c ∧
       (1 < length (media_codec_caps caps_two_codecs))%nat ∧
       sep_setconf_ind (Some 50%nat) 9%nat caps_two_codecs 1%nat c =
         Some (true, emit (set_configuration_cb (Some 50%nat) 9%nat None)
                       (setup_add 2%nat 1%nat
                          {| p_data := sbc_other_blob; p_len := 4 |}
                          9%nat c)).
Proof.
  eexists. split; [vm_compute; reflexivity|].
  split; [vm_compute; lia|].
  match goal with
  | |- sep_setconf_ind _ _ _ _ ?c = _ =>
      destruct (sep_setconf_ind_binds_last_codec c (Some 50%nat) 9%nat
                  caps_two_codecs 1%nat sample_endpoint 2%nat)
        as (cap & preset & Hlast & Hp & Hrun & _)
  end.
  - reflexivity.
  - reflexivity.
  - repeat constructor; discriminate.
  - assert (Hc : ∀ cap preset,
              media_codec_type cap = e_codec sample_endpoint →
              setconf_preset cap = Some preset →
              check_config sample_endpoint preset = 0 →
              codec_cap_ok sample_endpoint cap).
    { intros cap preset Ht Hp Hk. split; [exact Ht | eauto]. }
    constructor;
      [intros _; eapply Hc; [reflexivity | reflexivity | reflexivity]|].
    constructor; [discriminate|].
    constructor;
      [intros _; eapply Hc; [reflexivity | reflexivity | reflexivity]|].
    constructor.
  - vm_compute. lia.
  - injection Hlast as <-. injection Hp as <-. exact Hrun.
Defined.

(** ** The audio OPEN command *)

Lemma to_uint16_small z : 0 ≤ z < 65536 → to_uint16 z = z.
Proof. intros. unfold to_uint16. by apply Z.mod_small. Qed.

Lemma to_int8_small z : 0 ≤ z < 128 → to_int8 z = z.
Proof.
  intros. unfold to_int8. rewrite Z.mod_small by lia.
  destruct (Z.ltb_spec z 128); [done | lia].
Qed.

Lemma parse_presets_loop_pack blobs rest :
  stream_ok blobs rest →
  ∀ acc,
    parse_presets_loop (length blobs) (pack blobs ++ rest)
      (Z.of_nat (length (pack blobs ++ rest))) acc
    = Some (acc ++ map preset_of_blob blobs).
Proof.
  intros (Hsz & Hlen & Hlast).
  induction Hsz as [|b bs Hb Hbs IH]; intros acc; cbn [length pack map].
  - cbn. by rewrite app_nil_r.
  - cbn [parse_presets_loop]. unfold sizeof_audio_preset.
    cbn [pack] in Hlen. rewrite <- !app_assoc in Hlen |- *.
    cbn [app length] in Hlen |- *. rewrite length_app in Hlen |- *.
    set (n := length (pack bs ++ rest)) in *.
    assert (Hpos : (0 < length b + n)%nat).
    { destruct b as [|x b]; [|cbn; lia].
      destruct bs as [|b' bs]; subst n; cbn.
      - destruct Hlast as [Hl|Hl]; [done|]. destruct rest; [done | cbn; lia].
      - lia. }
    destruct (Z.ltb_spec (Z.of_nat (S (length b + n))) 1); [lia|].
    rewrite to_uint16_small by lia.
    unfold byte_at. cbn [nth].
    destruct (Z.eqb_spec (Z.of_nat (S (length b + n)) - 1) 0); [lia|].
    destruct (Z.ltb_spec (Z.of_nat (S (length b + n)) - 1)
                (Z.of_nat (length b))); [lia|].
    cbn [orb]. rewrite to_int8_small by lia.
    destruct (Z.ltb_spec (Z.of_nat (length b)) 0); [lia|].
    rewrite Nat2Z.id. cbn [drop Nat.add]. rewrite drop_0.
    rewrite take_app_length, drop_app_length.
    rewrite to_uint16_small by lia.
    replace (Z.of_nat (S (length b + n)) - 1 - Z.of_nat (length b))
      with (Z.of_nat n) by lia.
    subst n. rewrite IH.
    + by rewrite <- app_assoc.
    + lia.
    + destruct bs as [|b' bs]; [by left|].
      destruct Hlast as [Hl|Hl]; [left | by right].
      by rewrite last_cons_cons in Hl.
Qed.

Lemma parse_presets_loop_truncated blobs tl :
  stream_truncated blobs tl →
  ∀ n acc, (length blobs < n)%nat →
    parse_presets_loop n (pack blobs ++ tl)
      (Z.of_nat (length (pack blobs ++ tl))) acc = Some [].
Proof.
  intros (Hsz & Hlen & Htl).
  induction Hsz as [|b bs Hb Hbs IH]; intros n acc Hn;
    (destruct n as [|n]; [cbn in Hn; lia|]); cbn [pack].
  - cbn [app parse_presets_loop]. unfold sizeof_audio_preset.
    destruct Htl as [-> | (h & tl' & -> & Ht)]; [done|].
    cbn [pack app length] in *.
    destruct (Z.ltb_spec (Z.of_nat (S (length tl'))) 1); [done|].
    rewrite to_uint16_small by lia. unfold byte_at. cbn [nth].
    destruct Ht as [-> | Ht]; [done|].
    destruct (Z.eqb_spec (Z.of_nat (S (length tl')) - 1) 0); [done|].
    destruct (Z.ltb_spec (Z.of_nat (S (length tl')) - 1) h); [done | lia].
  - cbn [parse_presets_loop]. unfold sizeof_audio_preset.
    cbn [pack] in Hlen. rewrite <- !app_assoc in Hlen |- *.
    cbn [app length] in Hlen |- *. rewrite length_app in Hlen |- *.
    set (k := length (pack bs ++ tl)) in *.
    destruct (Z.ltb_spec (Z.of_nat (S (length b + k))) 1); [done|].
    rewrite to_uint16_small by lia.
    unfold byte_at. cbn [nth].
    destruct (Z.eqb_spec (Z.of_nat (S (length b + k)) - 1) 0); [done|].
    destruct (Z.ltb_spec (Z.of_nat (S (length b + k)) - 1)
                (Z.of_nat (length b))); [lia|].
    cbn [orb]. rewrite to_int8_small by lia.
    destruct (Z.ltb_spec (Z.of_nat (length b)) 0); [lia|].
    rewrite Nat2Z.id. cbn [drop Nat.add].
    rewrite drop_app_length.
    rewrite to_uint16_small by lia.
    replace (Z.of_nat (S (length b + k)) - 1 - Z.of_nat (length b))
      with (Z.of_nat k) by lia.
    subst k. cbn [length] in Hn. apply IH; lia.
Qed.

(** What [bt_audio_open] does on blobs of at most 127 bytes and an id
    that is not cut to 0: the OPEN command whose payload is a sequence
    of length-tagged blobs that pass the bounds checks registers an
    endpoint and answers with its id; the first blob becomes the
    capabilities of the endpoint and the others, in order, its preferred
    presets.  The command whose payload ends too early for the announced
    number of presets (no length byte, nothing after a length byte, or
    fewer bytes than announced), or that announces no preset, is
    answered with a failure and registers nothing. *)
Lemma bt_audio_open_correct c cmd len sep :
  len = sizeof_audio_cmd_open + Z.of_nat (length (cmd_preset cmd)) →
  len ≤ 65535 →
  (∀ b0 bs rest,
     cmd_preset cmd = pack (b0 :: bs) ++ rest →
     cmd_presets cmd = Z.of_nat (length (b0 :: bs)) →
     stream_ok (b0 :: bs) rest →
     to_uint8 (Z.of_nat (length (endpoints c)) + 1) ≠ 0 →
     ∃ c', bt_audio_open cmd len sep c = Some c' ∧
       trace c' = trace c ++
         [audio_rsp_open (to_uint8 (Z.of_nat (length (endpoints c)) + 1))] ∧
       endpoints c' = endpoints c ++ [brk c] ∧
       ep_mem c' =
         <[brk c :=
             {| e_id := to_uint8 (Z.of_nat (length (endpoints c)) + 1);
                e_codec := cmd_codec cmd;
                e_sep := sep;
                e_caps := preset_of_blob b0;
                e_presets := map preset_of_blob bs |}]> (ep_mem c) ∧
       dev_mem c' = dev_mem c ∧ devices c' = devices c ∧
       setups c' = setups c) ∧
  (∀ blobs tl,
     cmd_preset cmd = pack blobs ++ tl →
     stream_truncated blobs tl →
     Z.of_nat (length blobs) < cmd_presets cmd →
     bt_audio_open cmd len sep c =
       Some (emit (audio_ipc_send_rsp AUDIO_OP_OPEN AUDIO_STATUS_FAILED) c)) ∧
  (cmd_presets cmd = 0 →
   bt_audio_open cmd len sep c =
     Some (emit (audio_ipc_send_rsp AUDIO_OP_OPEN AUDIO_STATUS_FAILED) c)).
Proof.
  intros Hlen Hmax.
  assert (Hpl : to_uint16 (len - sizeof_audio_cmd_open)
                = Z.of_nat (length (cmd_preset cmd))).
  { rewrite Hlen. unfold sizeof_audio_cmd_open in *.
    rewrite to_uint16_small by lia. lia. }
  split_and!.
  - intros b0 bs rest Hbuf Hcount Hok Hid.
    unfold bt_audio_open.
    destruct (Z.eqb_spec (cmd_presets cmd) 0) as [E|_];
      [rewrite Hcount in E; cbn [length] in E; lia|].
    unfold parse_presets. rewrite Hpl, Hcount, Nat2Z.id, Hbuf.
    rewrite (parse_presets_loop_pack _ _ Hok []).
    cbn [app map mbind option_bind register_endpoint head].
    unfold register_endpoint. cbn [head mbind option_bind e_id tail].
    destruct (Z.eqb_spec (to_uint8 (Z.of_nat (length (endpoints c)) + 1)) 0)
      as [E|_]; [done|].
    eexists. split; [reflexivity|]. cbn. split_and!; reflexivity.
  - intros blobs tl Hbuf Htr Hcount.
    unfold bt_audio_open.
    destruct (Z.eqb_spec (cmd_presets cmd) 0) as [E|_]; [lia|].
    unfold parse_presets. rewrite Hpl, Hbuf.
    rewrite (parse_presets_loop_truncated _ _ Htr) by lia.
    reflexivity.
  - intros H. unfold bt_audio_open. rewrite H. reflexivity.
Qed.

Lemma bt_audio_open_correct_witness :
  28 = sizeof_audio_cmd_open + Z.of_nat (length (cmd_preset sample_cmd_open)) ∧
  stream_ok [sbc_caps_blob; sbc_pref_blob] [] ∧
  ∃ c', bt_audio_open sample_cmd_open 28 (Some 100%nat) coordinator_init
          = Some c' ∧
        trace c' = [audio_rsp_open 1] ∧
        endpoints c' = [1%nat] ∧
        ep_mem c' = <[1%nat := sample_endpoint]> ∅.
Proof.
  assert (Hok : stream_ok [sbc_caps_blob; sbc_pref_blob] []).
  { split_and!.
    - repeat constructor; cbn; lia.
    - cbn. lia.
    - left. discriminate. }
  split; [reflexivity|]. split; [exact Hok|].
  destruct (bt_audio_open_correct coordinator_init sample_cmd_open 28
              (Some 100%nat) eq_refl) as (Hacc & _ & _).
  { lia. }
  destruct (Hacc sbc_caps_blob [sbc_pref_blob] [] eq_refl eq_refl Hok)
    as (c' & Hrun & Ht & Hl & Hm & _).
  { discriminate. }
  exists c'. split_and!; [exact Hrun | exact Ht | exact Hl | exact Hm].
Defined.

(** The registration whose id is cut to 0, for any payload the bounds
    checks let through: the command is answered with a failure, the
    endpoint stays in the list, and its record is among those whose
    blobs are released. *)
Lemma bt_audio_open_id_zero c cmd len sep b0 bs rest :
  len = sizeof_audio_cmd_open + Z.of_nat (length (cmd_preset cmd)) →
  len ≤ 65535 →
  cmd_preset cmd = pack (b0 :: bs) ++ rest →
  cmd_presets cmd = Z.of_nat (length (b0 :: bs)) →
  stream_ok (b0 :: bs) rest →
  to_uint8 (Z.of_nat (length (endpoints c)) + 1) = 0 →
  ∃ c', bt_audio_open cmd len sep c = Some c' ∧
    trace c' =
      trace c ++ [audio_ipc_send_rsp AUDIO_OP_OPEN AUDIO_STATUS_FAILED] ∧
    endpoints c' = endpoints c ++ [brk c] ∧
    ep_mem c' = delete (brk c) (ep_mem c) ∧
    ep_released c' =
      <[brk c :=
          {| e_id := 0;
             e_codec := cmd_codec cmd;
             e_sep := sep;
             e_caps := preset_of_blob b0;
             e_presets := map preset_of_blob bs |}]> (ep_released c) ∧
    dev_mem c' = dev_mem c ∧ devices c' = devices c ∧
    setups c' = setups c.
Proof.
  intros Hlen Hmax Hbuf Hcount Hok Hid.
  assert (Hpl : to_uint16 (len - sizeof_audio_cmd_open)
                = Z.of_nat (length (cmd_preset cmd))).
  { rewrite Hlen. unfold sizeof_audio_cmd_open in *.
    rewrite to_uint16_small by lia. lia. }
  unfold bt_audio_open.
  destruct (Z.eqb_spec (cmd_presets cmd) 0) as [E|_];
    [rewrite Hcount in E; cbn [length] in E; lia|].
  unfold parse_presets. rewrite Hpl, Hcount, Nat2Z.id, Hbuf.
  rewrite (parse_presets_loop_pack _ _ Hok []).
  cbn [app map mbind option_bind register_endpoint head].
  unfold register_endpoint. cbn [head mbind option_bind e_id tail].
  rewrite Hid. cbn [Z.eqb]. unfold release_presets.
  cbn [ep_mem bump_brk set_endpoints set_ep_mem].
  rewrite lookup_insert_eq. cbn [mbind option_bind].
  eexists. split; [reflexivity|]. cbn.
  split_and!; try reflexivity. apply delete_insert_eq.
Qed.

(** A first preset of 128 bytes or more that lies inside the command:
    the bounds checks pass, the length byte does not fit the [int8_t]
    field and [g_memdup] is called with a negative length, so the
    command has no defined result, whatever the state. *)
Lemma bt_audio_open_long_preset c cmd len sep :
  0 < cmd_presets cmd →
  128 ≤ byte_at 0 (cmd_preset cmd) ≤ 255 →
  sizeof_audio_cmd_open + 1 + byte_at 0 (cmd_preset cmd) ≤ len ≤ 65535 →
  bt_audio_open cmd len sep c = None.
Proof.
  intros Hcount Hb Hlen. unfold bt_audio_open.
  destruct (Z.eqb_spec (cmd_presets cmd) 0) as [E|_]; [lia|].
  unfold parse_presets, sizeof_audio_cmd_open, sizeof_audio_preset in *.
  destruct (Z.to_nat (cmd_presets cmd)) as [|n] eqn:En; [lia|].
  cbn [parse_presets_loop]. unfold sizeof_audio_preset.
  rewrite (to_uint16_small (len - 18)) by lia.
  destruct (Z.ltb_spec (len - 18) 1); [lia|].
  rewrite (to_uint16_small (len - 18 - 1)) by lia.
  destruct (Z.eqb_spec (len - 18 - 1) 0); [lia|].
  destruct (Z.ltb_spec (len - 18 - 1) (byte_at 0 (cmd_preset cmd))); [lia|].
  cbn [orb]. unfold to_int8. rewrite Z.mod_small by lia.
  destruct (Z.ltb_spec (byte_at 0 (cmd_preset cmd)) 128); [lia|].
  destruct (Z.ltb_spec (byte_at 0 (cmd_preset cmd) - 256) 0); [done | lia].
Qed.

(** ** Endpoint ids *)

(** Case analysis of a handler: every bind, match and decision of the
    hypotheses and the goal is split. *)
Ltac crack :=
  repeat first [ progress simplify_option_eq | case_match | case_decide ].

Ltac unfold_handlers H :=
  unfold bt_a2dp_connect, bt_a2dp_disconnect, signaling_connect_cb,
    transport_connect_cb, connect_cb, disconnect_cb, discover_cb,
    sep_setconf_ind, sep_close_ind, sep_setconf_cfm, sep_open_cfm,
    sep_start_cfm, sep_suspend_cfm, sep_close_cfm, sep_abort_cfm,
    bt_stream_open, bt_stream_close, bt_stream_resume, bt_stream_suspend,
    stream_request, select_configuration, setup_remove_by_id, setup_remove,
    a2dp_device_connect, a2dp_device_new in H.

Ltac trace_ids :=
  cbn; unfold opened_ids; rewrite ?omap_app; cbn; rewrite ?app_nil_r.

(** The part of the coordinator that the endpoint ids depend on. *)
Lemma bt_a2dp_notify_state_ep_frame p s c c' :
  bt_a2dp_notify_state p s c = Some c' →
  ep_mem c' = ep_mem c ∧ ep_released c' = ep_released c ∧
  endpoints c' = endpoints c ∧ brk c' = brk c ∧
  opened_ids (trace c') = opened_ids (trace c).
Proof.
  unfold bt_a2dp_notify_state, a2dp_device_free. intros H.
  crack; trace_ids; auto.
Qed.

Lemma a2dp_device_free_ep_frame p c c' :
  a2dp_device_free p c = Some c' →
  ep_mem c' = ep_mem c ∧ ep_released c' = ep_released c ∧
  endpoints c' = endpoints c ∧ brk c' = brk c ∧
  opened_ids (trace c') = opened_ids (trace c).
Proof.
  unfold a2dp_device_free. intros H. crack; trace_ids; auto.
Qed.

Lemma step_ep_frame e c c' :
  is_audio_registry e = false →
  step e c = Some c' →
  ep_mem c' = ep_mem c ∧ ep_released c' = ep_released c ∧
  endpoints c' = endpoints c ∧
  (brk c ≤ brk c')%nat ∧
  opened_ids (trace c') = opened_ids (trace c).
Proof.
  destruct e; cbn [is_audio_registry step]; try discriminate; intros _ H.
  all: unfold_handlers H; crack.
  all: repeat match goal with
         | H : bt_a2dp_notify_state _ _ _ = Some _ |- _ =>
             apply bt_a2dp_notify_state_ep_frame in H; cbn in H;
             destruct H as (? & ? & ? & ? & ?)
         | H : a2dp_device_free _ _ = Some _ |- _ =>
             apply a2dp_device_free_ep_frame in H; cbn in H;
             destruct H as (? & ? & ? & ? & ?)
         end.
  all: trace_ids; split_and!; first [ reflexivity | congruence | lia | idtac ].
  all: match goal with
       | H : opened_ids _ = _ |- _ =>
           revert H; unfold opened_ids; rewrite ?omap_app; cbn;
           rewrite ?app_nil_r; intros H; exact H
       end.
Qed.

Lemma ep_structs_eq c c' :
  ep_mem c' = ep_mem c → ep_released c' = ep_released c →
  ep_structs c' = ep_structs c.
Proof. unfold ep_structs. by intros -> ->. Qed.

Lemma endpoints_inv_init : endpoints_inv coordinator_init.
Proof.
  split; cbn; try done.
  - constructor.
  - intros p Hp. by apply elem_of_nil in Hp.
  - intros p [e He]. done.
Qed.

Lemma endpoints_inv_frame c c' :
  endpoints_inv c →
  ep_mem c' = ep_mem c → ep_released c' = ep_released c →
  endpoints c' = endpoints c →
  (brk c ≤ brk c')%nat →
  opened_ids (trace c') = opened_ids (trace c) →
  endpoints_inv c'.
Proof.
  intros [H1 H2 H3 H4 H5] Hm Hr Hl Hb Ht.
  pose proof (ep_structs_eq _ _ Hm Hr) as Hst.
  split; rewrite ?Hst, ?Hl, ?Ht; try done.
  intros p Hp. apply H3 in Hp. lia.
Qed.

Lemma endpoints_inv_delete c c' p :
  endpoints_inv c →
  ep_mem c' = delete p (ep_mem c) →
  ep_released c' = delete p (ep_released c) →
  endpoints c' = endpoints c →
  brk c' = brk c →
  opened_ids (trace c') = opened_ids (trace c) →
  endpoints_inv c'.
Proof.
  intros [H1 H2 H3 H4 H5] Hm Hr Hl Hb Ht.
  assert (Hst : ep_structs c' = delete p (ep_structs c)).
  { unfold ep_structs. by rewrite Hm, Hr, delete_union. }
  split; rewrite ?Hst, ?Hl, ?Ht, ?Hb; try done.
  - intros i q e Hi He. apply lookup_delete_Some in He as [_ He]. eauto.
  - intros q [e He]. apply lookup_delete_Some in He as [_ He]. eauto.
Qed.

Lemma bt_audio_close_inv id c c' :
  endpoints_inv c → bt_audio_close id c = Some c' → endpoints_inv c'.
Proof.
  intros Hinv H. unfold bt_audio_close, unregister_endpoint in H. crack.
  all: first
    [ eapply endpoints_inv_delete; [exact Hinv | trace_ids; reflexivity ..]
    | eapply endpoints_inv_frame;
        [exact Hinv | trace_ids; first [reflexivity | lia] ..] ].
Qed.

Lemma endpoints_inv_fresh c :
  endpoints_inv c → (brk c ∉ endpoints c) ∧ ep_structs c !! brk c = None.
Proof.
  intros [H1 H2 H3 H4 H5].
  assert (Hfresh : brk c ∉ endpoints c).
  { intros Hin. apply H3 in Hin. lia. }
  split; [done|].
  destruct (ep_structs c !! brk c) eqn:E; [|done].
  destruct Hfresh. apply H4. eauto.
Qed.

Lemma endpoints_inv_append c c' e :
  endpoints_inv c →
  e_id e = endpoint_id_at (length (endpoints c)) →
  ep_structs c' = <[brk c := e]> (ep_structs c) →
  endpoints c' = endpoints c ++ [brk c] →
  brk c' = S (brk c) →
  opened_ids (trace c') =
    opened_ids (trace c) ++ (if decide (e_id e ≠ 0) then [e_id e] else []) →
  endpoints_inv c'.
Proof.
  intros Hinv Hid Hm Hl Hb Ht.
  destruct (endpoints_inv_fresh c Hinv) as [Hfresh _].
  destruct Hinv as [H1 H2 H3 H4 H5].
  split; rewrite ?Hm, ?Hl, ?Ht, ?Hb.
  - intros i p e' Hi He.
    apply lookup_app_Some in Hi as [Hi | [Hge Hi]].
    + assert (p ≠ brk c).
      { intros ->. apply Hfresh. by eapply list_elem_of_lookup_2. }
      rewrite lookup_insert_ne in He by done. eauto.
    + apply list_lookup_singleton_Some in Hi as [Hi <-].
      rewrite lookup_insert_eq in He. injection He as <-.
      rewrite Hid. f_equal. lia.
  - apply NoDup_app. split; [done|]. split; [|apply NoDup_singleton].
    intros p Hp Hq. apply list_elem_of_singleton in Hq as ->. done.
  - intros p Hp. apply elem_of_app in Hp as [Hp | Hp].
    + apply H3 in Hp. lia.
    + apply list_elem_of_singleton in Hp as ->. lia.
  - intros p Hp. apply elem_of_app.
    destruct (decide (p = brk c)) as [-> | Hne].
    + right. by apply list_elem_of_singleton.
    + left. rewrite lookup_insert_ne in Hp by done. eauto.
  - rewrite length_app. cbn [length]. rewrite Nat.add_1_r, seq_S.
    rewrite map_app, filter_app, <- H5. cbn [map Nat.add].
    rewrite filter_cons, filter_nil, <- Hid. done.
Qed.

(** A registration: the record joins the endpoints with their blobs. *)
Lemma endpoints_inv_register c c' e :
  endpoints_inv c →
  e_id e = endpoint_id_at (length (endpoints c)) →
  ep_mem c' = <[brk c := e]> (ep_mem c) →
  ep_released c' = ep_released c →
  endpoints c' = endpoints c ++ [brk c] →
  brk c' = S (brk c) →
  opened_ids (trace c') =
    opened_ids (trace c) ++ (if decide (e_id e ≠ 0) then [e_id e] else []) →
  endpoints_inv c'.
Proof.
  intros Hinv Hid Hm Hr Hl Hb Ht.
  eapply endpoints_inv_append; [exact Hinv | exact Hid | | done ..].
  unfold ep_structs. by rewrite Hm, Hr, insert_union_l.
Qed.

(** The registration whose id is cut to 0: the record joins the list,
    and its blobs are released. *)
Lemma endpoints_inv_released c c' e :
  endpoints_inv c →
  e_id e = endpoint_id_at (length (endpoints c)) →
  e_id e = 0 →
  ep_mem c' = delete (brk c) (ep_mem c) →
  ep_released c' = <[brk c := e]> (ep_released c) →
  endpoints c' = endpoints c ++ [brk c] →
  brk c' = S (brk c) →
  opened_ids (trace c') = opened_ids (trace c) →
  endpoints_inv c'.
Proof.
  intros Hinv Hid Hz Hm Hr Hl Hb Ht.
  destruct (endpoints_inv_fresh c Hinv) as [_ Hnone].
  apply ep_structs_None in Hnone as [Hn1 Hn2].
  eapply endpoints_inv_append; [exact Hinv | exact Hid | | done | done |].
  - unfold ep_structs. rewrite Hm, Hr.
    rewrite delete_id by done.
    by rewrite insert_union_r.
  - rewrite Ht, Hz. rewrite decide_False by (intros Hne; by apply Hne).
    by rewrite app_nil_r.
Qed.

Lemma bt_audio_open_inv cmd len sep c c' :
  endpoints_inv c → bt_audio_open cmd len sep c = Some c' → endpoints_inv c'.
Proof.
  intros Hinv H. unfold bt_audio_open, register_endpoint, release_presets in H.
  assert (Hfail : endpoints_inv
            (emit (audio_ipc_send_rsp AUDIO_OP_OPEN AUDIO_STATUS_FAILED) c)).
  { eapply endpoints_inv_frame;
      [exact Hinv | trace_ids; first [reflexivity | lia] ..]. }
  destruct (cmd_presets cmd =? 0); [by injection H as <-|].
  destruct (parse_presets _ _ _) as [presets|]; [|done]. cbn in H.
  destruct presets as [|caps presets]; [by injection H as <-|].
  cbn in H.
  destruct (Z.eqb_spec (to_uint8 (Z.of_nat (length (endpoints c)) + 1)) 0)
    as [E|E].
  - cbn in H. rewrite lookup_insert_eq in H. cbn in H. injection H as <-.
    eapply endpoints_inv_released with (e := mk_endpoint _ _ _ _ _);
      [exact Hinv | cbn; reflexivity | exact E
      | cbn; apply delete_insert_eq | cbn; reflexivity | cbn; reflexivity
      | cbn; reflexivity |].
    trace_ids. reflexivity.
  - injection H as <-.
    eapply endpoints_inv_register with (e := mk_endpoint _ _ _ _ _);
      [exact Hinv | cbn; reflexivity | cbn; reflexivity | cbn; reflexivity
      | cbn; reflexivity | cbn; reflexivity |].
    trace_ids. unfold endpoint_id_at. case_decide; [done | tauto].
Qed.

Lemma step_endpoints_inv e c c' :
  endpoints_inv c → step e c = Some c' → endpoints_inv c'.
Proof.
  intros Hinv H. destruct (is_audio_registry e) eqn:Ha.
  - destruct e; try discriminate; cbn in H.
    + by eapply bt_audio_open_inv.
    + by eapply bt_audio_close_inv.
  - destruct (step_ep_frame e c c' Ha H) as (? & ? & ? & ? & ?).
    by eapply endpoints_inv_frame.
Qed.

Lemma run_endpoints_inv es :
  ∀ c c', endpoints_inv c → run es c = Some c' → endpoints_inv c'.
Proof.
  induction es as [|e es IH]; intros c c' Hinv H; cbn in H.
  - by injection H as <-.
  - destruct (step e c) as [c1|] eqn:Hs; [|done]. cbn in H.
    eapply IH; [|done]. by eapply step_endpoints_inv.
Qed.

Lemma endpoint_id_at_inj i j :
  (i < 256)%nat → (j < 256)%nat →
  endpoint_id_at i = endpoint_id_at j → i = j.
Proof.
  unfold endpoint_id_at, to_uint8. intros Hi Hj H.
  destruct (decide (i = 255%nat)) as [-> | Hi'];
    destruct (decide (j = 255%nat)) as [-> | Hj']; [done | | |].
  - rewrite (Z.mod_small (Z.of_nat j + 1)) in H by lia.
    change ((Z.of_nat 255 + 1) mod 256) with 0 in H. lia.
  - rewrite (Z.mod_small (Z.of_nat i + 1)) in H by lia.
    change ((Z.of_nat 255 + 1) mod 256) with 0 in H. lia.
  - rewrite !Z.mod_small in H by lia. lia.
Qed.

(** C6 as the code has it: after any sequence of events that leaves at
    most 256 entries in the list of endpoints (the list keeps an entry
    for every endpoint ever registered, closed ones included), no two
    allocated endpoint records, with or without their blobs, carry the
    same id, and no id was handed out twice in the OPEN responses. *)
Theorem endpoint_ids_distinct es c :
  run es coordinator_init = Some c →
  (length (endpoints c) ≤ 256)%nat →
  (∀ p q e1 e2, ep_structs c !! p = Some e1 → ep_structs c !! q = Some e2 →
                e_id e1 = e_id e2 → p = q) ∧
  NoDup (opened_ids (trace c)).
Proof.
  intros Hrun Hlen.
  destruct (run_endpoints_inv es _ _ endpoints_inv_init Hrun)
    as [H1 H2 H3 H4 H5].
  split.
  - intros p q e1 e2 Hp Hq Hid.
    assert (Hpi : p ∈ endpoints c) by (apply H4; eauto).
    assert (Hqi : q ∈ endpoints c) by (apply H4; eauto).
    apply list_elem_of_lookup in Hpi as [i Hi].
    apply list_elem_of_lookup in Hqi as [j Hj].
    pose proof (lookup_lt_Some _ _ _ Hi).
    pose proof (lookup_lt_Some _ _ _ Hj).
    rewrite (H1 _ _ _ Hi Hp), (H1 _ _ _ Hj Hq) in Hid.
    apply endpoint_id_at_inj in Hid; [|lia|lia]. subst j. congruence.
  - rewrite H5. apply NoDup_filter.
    apply (NoDup_fmap_2_strong endpoint_id_at); [|apply NoDup_seq].
    intros i j Hi Hj. apply elem_of_seq in Hi, Hj.
    apply endpoint_id_at_inj; lia.
Qed.

Lemma endpoint_ids_distinct_witness :
  ∃ c, run [sample_open; sample_open; ev_audio_close 2; sample_open]
         coordinator_init = Some c ∧
       (length (endpoints c) ≤ 256)%nat ∧
       opened_ids (trace c) = [1; 2; 3] ∧
       NoDup (opened_ids (trace c)).
Proof.
  eexists. split; [vm_compute; reflexivity|].
  split; [cbn; lia|]. split; [reflexivity|].
  match goal with
  | |- NoDup (opened_ids (trace ?c)) =>
      apply (endpoint_ids_distinct
               [sample_open; sample_open; ev_audio_close 2; sample_open] c)
  end.
  - vm_compute. reflexivity.
  - cbn. lia.
Defined.

(** C6 as stated fails: after 257 OPEN commands the endpoints at
    addresses 1 and 257 are both allocated and both carry the id 1, and
    the id 1 was handed out twice; and when the first endpoint is closed
    right after its registration, the id 1 it gave back is assigned
    again to the endpoint of the 257th OPEN. *)
Lemma endpoint_id_collision :
  (c ← run (opens 257) coordinator_init;
   Some (e_id <$> ep_mem c !! 1%nat, e_id <$> ep_mem c !! 257%nat,
         length (filter (fun id => id = 1) (opened_ids (trace c)))))
  = Some (Some 1, Some 1, 2%nat) ∧
  (c ← run (sample_open :: ev_audio_close 1 :: opens 256) coordinator_init;
   Some (e_id <$> ep_mem c !! 1%nat, e_id <$> ep_mem c !! 257%nat,
         length (filter (fun id => id = 1) (opened_ids (trace c)))))
  = Some (None, Some 1, 2%nat).
Proof. split; vm_compute; reflexivity. Qed.

(** C9: the claim fails on two well-formed OPEN commands.

    The 256th OPEN: its presets parse, [register_endpoint] appends the
    endpoint to the list and returns the id cut to 8 bits, which is 0.
    [bt_audio_open] takes that for a failure: it releases the parsed
    blobs and answers FAILED.  The command is answered as rejected, yet
    an endpoint is registered: it is the last entry of the list, it can
    be found under the id 0, and its capabilities and presets point at
    the released blobs, so a capabilities request on its SEP or a CLOSE
    for the id 0 has no defined result.

    An OPEN with one preset of 128 bytes, all inside the command: the
    bounds checks pass, the length goes into the [int8_t] field as -128
    and [g_memdup] is called with it; the command has no defined
    result instead of registering the endpoint. *)
Theorem bt_audio_open_defects :
  (∃ c255 c256,
     run (opens 255) coordinator_init = Some c255 ∧
     length (endpoints c255) = 255%nat ∧
     parse_presets (cmd_preset sample_cmd_open) (cmd_presets sample_cmd_open)
       (to_uint16 (28 - sizeof_audio_cmd_open))
     = Some [ {| p_data := sbc_caps_blob; p_len := 4 |};
              {| p_data := sbc_pref_blob; p_len := 4 |} ] ∧
     bt_audio_open sample_cmd_open 28 (Some 100%nat) c255 = Some c256 ∧
     trace c256 =
       trace c255 ++ [audio_ipc_send_rsp AUDIO_OP_OPEN AUDIO_STATUS_FAILED] ∧
     endpoints c256 = endpoints c255 ++ [256%nat] ∧
     ep_mem c256 !! 256%nat = None ∧
     ep_released c256 !! 256%nat =
       Some {| e_id := 0; e_codec := A2DP_CODEC_SBC; e_sep := Some 100%nat;
               e_caps := {| p_data := sbc_caps_blob; p_len := 4 |};
               e_presets := [{| p_data := sbc_pref_blob; p_len := 4 |}] |} ∧
     find_endpoint c256 0 = Some (Some 256%nat) ∧
     sep_getcap_ind 256%nat c256 = None ∧
     bt_audio_close 0 c256 = None) ∧
  Z.of_nat (length (cmd_preset cmd_open_long_preset)) = 129 ∧
  to_int8 (byte_at 0 (cmd_preset cmd_open_long_preset)) = -128 ∧
  bt_audio_open cmd_open_long_preset 147 (Some 100%nat) coordinator_init
  = None.
Proof.
  split.
  - eexists _, _. split; [vm_compute; reflexivity|].
    split; [vm_compute; reflexivity|].
    split; [vm_compute; reflexivity|].
    split; [vm_compute; reflexivity|].
    split_and!; vm_compute; reflexivity.
  - split_and!; reflexivity.
Qed.

(** ** Local disconnect before signaling is up *)

Lemma dev_inv_insert m p dev :
  dev_inv (delete p m) → dev_ok dev → dev_inv (<[p := dev]> m).
Proof.
  intros Hm Hd. unfold dev_inv. rewrite <- insert_delete_eq.
  apply map_Forall_insert_2; done.
Qed.

Lemma dev_inv_delete m p : dev_inv m → dev_inv (delete p m).
Proof. apply map_Forall_delete. Qed.

Lemma dev_inv_lookup m p dev : dev_inv m → m !! p = Some dev → dev_ok dev.
Proof. intros H Hp. exact (H p dev Hp). Qed.

Lemma a2dp_device_free_dev_mem p c c' :
  a2dp_device_free p c = Some c' → dev_mem c' = delete p (dev_mem c).
Proof. unfold a2dp_device_free. intros H. crack; reflexivity. Qed.

(** A state change restores the invariant at the device it is applied
    to, whatever the record held before, unless it is a request for
    Disconnected that finds the device already there. *)
Lemma bt_a2dp_notify_state_dev_inv p s c c' :
  bt_a2dp_notify_state p s c = Some c' →
  dev_inv (delete p (dev_mem c)) →
  (∀ dev, dev_mem c !! p = Some dev → s = HAL_A2DP_STATE_DISCONNECTED →
          d_state dev = s → dev_ok dev) →
  dev_inv (dev_mem c').
Proof.
  unfold bt_a2dp_notify_state. intros H Hm Hd.
  destruct (dev_mem c !! p) as [dev|] eqn:Hp; [|done]. cbn in H.
  destruct (decide (d_state dev = s)) as [Hs|Hs].
  - injection H as <-. rewrite <- (insert_id _ _ _ Hp).
    apply dev_inv_insert; [done|].
    destruct (decide (s = HAL_A2DP_STATE_DISCONNECTED)) as [Hz|Hz];
      [by apply Hd|].
    intros Hst. congruence.
  - destruct (decide (s ≠ HAL_A2DP_STATE_DISCONNECTED)) as [Hz|Hz].
    + injection H as <-. cbn. apply dev_inv_insert; [done|].
      intros Hst. cbn in Hst. done.
    + apply a2dp_device_free_dev_mem in H. rewrite H. cbn.
      by rewrite delete_insert_eq.
Qed.

Lemma signaling_connect_cb_dev_inv err p env c c' :
  dev_inv (dev_mem c) →
  signaling_connect_cb err p env c = Some c' →
  dev_inv (dev_mem c').
Proof.
  intros Hinv H. unfold signaling_connect_cb in H.
  assert (Hfail : ∀ c', bt_a2dp_notify_state p HAL_A2DP_STATE_DISCONNECTED c
                        = Some c' → dev_inv (dev_mem c')).
  { intros c0 H0. eapply bt_a2dp_notify_state_dev_inv; [exact H0 | |].
    - by apply dev_inv_delete.
    - intros dev Hp _ _. by eapply dev_inv_lookup. }
  destruct err; [by apply Hfail|].
  destruct (sg_get_ok env); cbn [negb] in H; [|by apply Hfail].
  destruct (dev_mem c !! p) as [dev|] eqn:Hp; [|done]. cbn in H.
  pose proof (dev_inv_lookup _ _ _ Hinv Hp) as Hok.
  destruct (sg_avdtp_new env) as [s|] eqn:Hs.
  - cbn [d_io d_state set_d_session] in H.
    repeat case_match;
      (eapply bt_a2dp_notify_state_dev_inv;
       [exact H
       | cbn; rewrite ?delete_insert_eq; by apply dev_inv_delete |]);
      intros dev' Hp' Hz Hst; try discriminate.
    all: cbn in Hp'; rewrite ?lookup_insert_eq in Hp'; injection Hp' as <-;
      cbn in Hst; intros _;
      unfold HAL_A2DP_STATE_CONNECTING, HAL_A2DP_STATE_DISCONNECTED in *;
      congruence.
  - eapply bt_a2dp_notify_state_dev_inv; [exact H | |].
    + cbn. rewrite delete_insert_eq. by apply dev_inv_delete.
    + intros dev' Hp' _ Hst. cbn in Hp'. rewrite lookup_insert_eq in Hp'.
      injection Hp' as <-. intros Hz. cbn in *. destruct (Hok Hz). done.
Qed.

Lemma notify_disconnected_dev_inv p c c' :
  dev_inv (dev_mem c) →
  bt_a2dp_notify_state p HAL_A2DP_STATE_DISCONNECTED c = Some c' →
  dev_inv (dev_mem c').
Proof.
  intros Hinv H. eapply bt_a2dp_notify_state_dev_inv; [exact H | |].
  - by apply dev_inv_delete.
  - intros dev Hp _ _. by eapply dev_inv_lookup.
Qed.

Lemma notify_other_dev_inv p s c c' :
  s ≠ HAL_A2DP_STATE_DISCONNECTED →
  dev_inv (delete p (dev_mem c)) →
  bt_a2dp_notify_state p s c = Some c' →
  dev_inv (dev_mem c').
Proof.
  intros Hs Hinv H. eapply bt_a2dp_notify_state_dev_inv; [exact H | done |].
  intros dev _ Hz. done.
Qed.

Lemma transport_connect_cb_dev_inv err p env c c' :
  dev_inv (dev_mem c) →
  transport_connect_cb err p env c = Some c' →
  dev_inv (dev_mem c').
Proof.
  intros Hinv H. unfold transport_connect_cb in H. crack; try done.
  cbn. apply dev_inv_insert; [by apply dev_inv_delete|].
  match goal with
  | Hp : dev_mem _ !! p = Some ?d |- _ =>
      pose proof (dev_inv_lookup _ _ _ Hinv Hp) as Hok
  end.
  intros Hz. destruct (Hok Hz). done.
Qed.

Lemma bt_a2dp_connect_dev_inv dst r c c' :
  dev_inv (dev_mem c) →
  bt_a2dp_connect dst r c = Some c' →
  dev_inv (dev_mem c').
Proof.
  intros Hinv H. unfold bt_a2dp_connect, a2dp_device_new,
    a2dp_device_connect in H.
  destruct (find_device _ _ _) as [[q|]|]; cbn in H; [by injection H as <- | |done].
  rewrite lookup_insert_eq in H. cbn in H.
  destruct (io_err r); cbn [negb] in H.
  - destruct (a2dp_device_free _ _) as [c3|] eqn:Hfree; [|done].
    injection H as <-. apply a2dp_device_free_dev_mem in Hfree.
    cbn in *. rewrite Hfree, !delete_insert_eq. by apply dev_inv_delete.
  - destruct (bt_a2dp_notify_state _ _ _) as [c3|] eqn:Hn; [|done].
    injection H as <-. cbn.
    eapply notify_other_dev_inv; [| |exact Hn]; [done|].
    cbn. rewrite !delete_insert_eq. by apply dev_inv_delete.
Qed.

Lemma bt_a2dp_disconnect_dev_inv dst c c' :
  dev_inv (dev_mem c) →
  bt_a2dp_disconnect dst c = Some c' →
  dev_inv (dev_mem c').
Proof.
  intros Hinv H. unfold bt_a2dp_disconnect in H.
  destruct (find_device _ _ _) as [[p|]|]; cbn in H; [|by injection H as <-|done].
  destruct (dev_mem c !! p) as [dev|]; [|done]. cbn in H.
  destruct (d_io dev).
  - destruct (bt_a2dp_notify_state _ _ _) as [c1|] eqn:Hn; [|done].
    injection H as <-. cbn. by eapply notify_disconnected_dev_inv.
  - destruct (bt_a2dp_notify_state _ _ _) as [c1|] eqn:Hn; [|done].
    injection H as <-. cbn.
    eapply notify_other_dev_inv; [| |exact Hn]; [done|].
    cbn. by apply dev_inv_delete.
Qed.

Lemma connect_cb_dev_inv err env c c' :
  dev_inv (dev_mem c) →
  connect_cb err env c = Some c' →
  dev_inv (dev_mem c').
Proof.
  intros Hinv H. unfold connect_cb, a2dp_device_new in H.
  destruct err; [by injection H as <-|].
  destruct (cn_get_ok env); cbn [negb] in H; [|by injection H as <-].
  destruct (find_device _ _ _) as [[p|]|]; cbn [mbind option_bind] in H;
    [| |done].
  - by eapply transport_connect_cb_dev_inv.
  - eapply signaling_connect_cb_dev_inv; [|exact H]. cbn.
    apply dev_inv_insert; [by apply dev_inv_delete|]. done.
Qed.

Lemma find_device_by_session_in_found m l session p :
  find_device_by_session_in m l session = Some (Some p) →
  ∃ dev, m !! p = Some dev ∧ d_session dev = session.
Proof.
  induction l as [|q l IH]; cbn; [done|].
  destruct (m !! q) as [dev|] eqn:Hq; cbn; [|done].
  destruct (decide (d_session dev = session)); [|done].
  intros [= <-]. eauto.
Qed.

Lemma sep_open_cfm_dev_inv session err r ep c c' :
  (err = false → session ≠ None) →
  dev_inv (dev_mem c) →
  sep_open_cfm session err r ep c = Some c' →
  dev_inv (dev_mem c').
Proof.
  intros Hwf Hinv H.
  unfold sep_open_cfm, setup_remove_by_id, setup_remove in H.
  destruct err; [crack; done|].
  destruct (find_device_by_session c session) as [[p|]|] eqn:Hf;
    cbn in H; [| crack; done | done].
  apply find_device_by_session_in_found in Hf as (dev & Hp & Hs).
  unfold a2dp_device_connect in H. rewrite Hp in H. cbn in H.
  injection H as <-. cbn.
  apply dev_inv_insert; [by apply dev_inv_delete|].
  pose proof (dev_inv_lookup _ _ _ Hinv Hp) as Hok.
  intros Hz. destruct (Hok Hz) as [_ Hn]. cbn in Hz.
  rewrite Hn in Hs. subst session. by destruct Hwf.
Qed.

Lemma step_dev_inv e c c' :
  event_wf e →
  dev_inv (dev_mem c) →
  step e c = Some c' →
  dev_inv (dev_mem c').
Proof.
  intros Hwf Hinv H. destruct e; cbn [step] in H.
  - by eapply bt_a2dp_connect_dev_inv.
  - by eapply bt_a2dp_disconnect_dev_inv.
  - by eapply signaling_connect_cb_dev_inv.
  - by eapply transport_connect_cb_dev_inv.
  - by eapply connect_cb_dev_inv.
  - by eapply notify_disconnected_dev_inv.
  - unfold_handlers H; crack; done.
  - unfold_handlers H; crack; done.
  - unfold_handlers H; crack; done.
  - unfold_handlers H; crack; done.
  - by eapply sep_open_cfm_dev_inv.
  - unfold_handlers H; crack; done.
  - unfold_handlers H; crack; done.
  - unfold_handlers H; crack; done.
  - unfold_handlers H; crack; done.
  - unfold bt_audio_open, register_endpoint, release_presets in H; crack; done.
  - unfold bt_audio_close, unregister_endpoint in H; crack; done.
  - unfold_handlers H; crack; done.
  - unfold_handlers H; crack; done.
  - unfold_handlers H; crack; done.
  - unfold_handlers H; crack; done.
Qed.

Lemma run_dev_inv es :
  ∀ c c', Forall event_wf es → dev_inv (dev_mem c) →
          run es c = Some c' → dev_inv (dev_mem c').
Proof.
  induction es as [|e es IH]; intros c c' Hwf Hinv H; cbn in H.
  - by injection H as <-.
  - destruct (step e c) as [c1|] eqn:Hs; [|done]. cbn in H.
    inversion Hwf; subst. eapply IH; [done| |done].
    by eapply step_dev_inv.
Qed.

Lemma find_device_found m l dst p :
  find_device m l dst = Some (Some p) →
  ∃ dev, m !! p = Some dev ∧ d_dst dev = dst.
Proof.
  induction l as [|q l IH]; cbn; [done|].
  destruct (m !! q) as [dev|] eqn:Hq; cbn; [|done].
  destruct (decide (d_dst dev = dst)); [|done].
  intros [= <-]. eauto.
Qed.

(** C8: in every state the coordinator can reach, an A2DP_DISCONNECT
    for a tracked device that holds a signaling channel and no AVDTP
    session emits CONN_STATE Disconnected for it, shuts the channel,
    releases the device record and removes it from the device table,
    and answers the command with HAL_STATUS_SUCCESS. *)
Theorem bt_a2dp_disconnect_before_signaling es c dst p dev io :
  Forall event_wf es →
  run es coordinator_init = Some c →
  find_device (dev_mem c) (devices c) dst = Some (Some p) →
  dev_mem c !! p = Some dev →
  d_io dev = Some io →
  d_session dev = None →
  ∃ c', bt_a2dp_disconnect dst c = Some c' ∧
    trace c' = trace c ++
      [ipc_send_notif dst HAL_A2DP_STATE_DISCONNECTED;
       g_io_channel_shutdown io; g_io_channel_unref io;
       ipc_send_rsp HAL_OP_A2DP_DISCONNECT HAL_STATUS_SUCCESS] ∧
    dev_mem c' = delete p (dev_mem c) ∧
    devices c' = g_slist_remove (devices c) p ∧
    setups c' = setups c ∧ ep_mem c' = ep_mem c ∧
    endpoints c' = endpoints c.
Proof.
  intros Hwf Hrun Hfind Hp Hio Hs.
  assert (Hinv : dev_inv (dev_mem c)).
  { eapply run_dev_inv; [exact Hwf | | exact Hrun]. apply map_Forall_empty. }
  assert (Hst : d_state dev ≠ HAL_A2DP_STATE_DISCONNECTED).
  { intros Hz. destruct (dev_inv_lookup _ _ _ Hinv Hp Hz). congruence. }
  destruct (find_device_found _ _ _ _ Hfind) as (dev' & Hp' & Hdst).
  rewrite Hp in Hp'. injection Hp' as <-.
  unfold bt_a2dp_disconnect. rewrite Hfind. cbn. rewrite Hp. cbn.
  rewrite Hio. unfold bt_a2dp_notify_state. rewrite Hp. cbn.
  rewrite decide_False by done.
  rewrite decide_False by (intros Hne; by apply Hne).
  set (c2 := emit _ _).
  destruct (a2dp_device_free_spec p
              (set_d_state HAL_A2DP_STATE_DISCONNECTED dev) c2)
    as (c' & -> & Hm & Hl & He & Hel & Hsu & _ & Ht).
  { subst c2. cbn. apply lookup_insert_eq. }
  cbn. eexists. split; [reflexivity|]. cbn.
  rewrite Ht, Hm, Hl, He, Hel, Hsu. subst c2. cbn.
  rewrite Hio, Hs, Hdst, delete_insert_eq. cbn.
  rewrite <- !app_assoc. cbn. done.
Qed.

Lemma bt_a2dp_disconnect_before_signaling_witness :
  ∃ c,
    run [ev_a2dp_connect addr_A {| io_chan := Some 5%nat; io_err := false |}]
      coordinator_init = Some c ∧
    find_device (dev_mem c) (devices c) addr_A = Some (Some 1%nat) ∧
    ∃ c', bt_a2dp_disconnect addr_A c = Some c' ∧
      trace c' = trace c ++
        [ipc_send_notif addr_A HAL_A2DP_STATE_DISCONNECTED;
         g_io_channel_shutdown 5%nat; g_io_channel_unref 5%nat;
         ipc_send_rsp HAL_OP_A2DP_DISCONNECT HAL_STATUS_SUCCESS] ∧
      devices c' = [].
Proof.
  eexists. split; [vm_compute; reflexivity|].
  split; [reflexivity|].
  match goal with
  | |- ∃ c', bt_a2dp_disconnect _ ?c = _ ∧ _ =>
      destruct (bt_a2dp_disconnect_before_signaling
        [ev_a2dp_connect addr_A {| io_chan := Some 5%nat; io_err := false |}]
        c addr_A 1%nat
        {| d_dst := addr_A; d_state := HAL_A2DP_STATE_CONNECTING;
           d_io := Some 5%nat; d_session := None |} 5%nat)
        as (c' & Hrun & Ht & _ & Hl & _)
  end.
  - repeat constructor.
  - vm_compute. reflexivity.
  - reflexivity.
  - reflexivity.
  - reflexivity.
  - reflexivity.
  - exists c'. split; [exact Hrun|]. split; [exact Ht|]. exact Hl.
Defined.

(** ** The device of a setup *)

Lemma setups_inv_init : setups_inv coordinator_init.
Proof.
  split; cbn.
  - intros p dev Hp. done.
  - intros p [d Hd]. done.
  - intros p Hp. by apply elem_of_nil in Hp.
Qed.

(** A handler that touches neither the device store nor the addresses
    the setups hold, or only drops setups. *)
Lemma setups_inv_sub c c' :
  setups_inv c →
  dev_mem c' = dev_mem c →
  (brk c ≤ brk c')%nat →
  (∀ p, p ∈ setup_devs c' → p ∈ setup_devs c) →
  setups_inv c'.
Proof.
  intros [H1 H2 H3] Hm Hb Hs. split; rewrite ?Hm.
  - intros p dev Hp [Hn | Hin]; eapply H1; eauto.
  - intros p Hp. apply H2 in Hp. lia.
  - intros p Hp. apply Hs, H3 in Hp. lia.
Qed.

(** A handler that rewrites or releases the one device at [p]. *)
Lemma setups_inv_update c c' p :
  setups_inv c →
  setups c' = setups c →
  brk c' = brk c →
  (∀ q, q ≠ p → dev_mem c' !! q = dev_mem c !! q) →
  (∀ d', dev_mem c' !! p = Some d' →
         is_Some (dev_mem c !! p) ∧
         (d_session d' ≠ None ∨ p ∈ setup_devs c →
          connected_or_disconnecting d')) →
  setups_inv c'.
Proof.
  intros [H1 H2 H3] Hs Hb Hq Hp.
  assert (Hsd : setup_devs c' = setup_devs c)
    by (unfold setup_devs; by rewrite Hs).
  split; rewrite ?Hsd, ?Hb.
  - intros q dev Hl Hc. destruct (decide (q = p)) as [-> | Hne].
    + by apply (Hp dev Hl).
    + rewrite (Hq _ Hne) in Hl. eauto.
  - intros q Hl. destruct (decide (q = p)) as [-> | Hne].
    + destruct Hl as [d' Hl]. destruct (Hp d' Hl) as [Hlive _]. auto.
    + rewrite (Hq _ Hne) in Hl. auto.
  - done.
Qed.

(** A handler that allocates a device at the allocation mark. *)
Lemma setups_inv_alloc c c' :
  setups_inv c →
  setups c' = setups c →
  brk c' = S (brk c) →
  (∀ q, q ≠ brk c → dev_mem c' !! q = dev_mem c !! q) →
  (∀ d', dev_mem c' !! brk c = Some d' →
         d_session d' = None ∨ connected_or_disconnecting d') →
  setups_inv c'.
Proof.
  intros [H1 H2 H3] Hs Hb Hq Hp.
  assert (Hsd : setup_devs c' = setup_devs c)
    by (unfold setup_devs; by rewrite Hs).
  split; rewrite ?Hsd, ?Hb.
  - intros q dev Hl Hc. destruct (decide (q = brk c)) as [-> | Hne].
    + destruct (Hp dev Hl) as [Hn | Hok]; [|done].
      destruct Hc as [Hc | Hc]; [done|]. apply H3 in Hc. lia.
    + rewrite (Hq _ Hne) in Hl. eauto.
  - intros q Hl. destruct (decide (q = brk c)) as [-> | Hne]; [lia|].
    rewrite (Hq _ Hne) in Hl. apply H2 in Hl. lia.
  - intros q Hin. apply H3 in Hin. lia.
Qed.

(** A handler that appends a setup for a device that holds a session. *)
Lemma setups_inv_add c c' s d :
  setups_inv c →
  dev_mem c' = dev_mem c →
  brk c' = brk c →
  setups c' = setups c ++ [s] →
  dev_mem c !! s_dev s = Some d →
  d_session d ≠ None →
  setups_inv c'.
Proof.
  intros [H1 H2 H3] Hm Hb Hs Hd Hn.
  assert (Hsd : ∀ p, p ∈ setup_devs c' → p ∈ setup_devs c ∨ p = s_dev s).
  { intros p. unfold setup_devs. rewrite Hs, fmap_app. cbn.
    rewrite elem_of_app, list_elem_of_singleton. done. }
  split; rewrite ?Hm, ?Hb.
  - intros p dev Hp [Hc | Hc]; [eauto|].
    apply Hsd in Hc as [Hc | ->]; [eauto|].
    rewrite Hd in Hp. injection Hp as <-. eauto.
  - done.
  - intros p Hp. apply Hsd in Hp as [Hp | ->]; [auto|]. apply H2. eauto.
Qed.

Lemma local_at_refl p c : local_at p c c.
Proof. by split_and!. Qed.

Lemma local_at_trans p c1 c2 c3 :
  local_at p c1 c2 → local_at p c2 c3 → local_at p c1 c3.
Proof.
  intros (H1 & H2 & H3) (H4 & H5 & H6). split_and!; try congruence.
  intros q Hq. rewrite H6, H3; done.
Qed.

Ltac solve_local :=
  split_and!; [reflexivity | reflexivity |];
  intros ? ?; cbn;
  rewrite ?lookup_delete_ne, ?lookup_insert_ne by done; reflexivity.

Lemma setups_inv_local c c' p :
  setups_inv c →
  local_at p c c' →
  (∀ d', dev_mem c' !! p = Some d' →
         ∃ d, dev_mem c !! p = Some d ∧ dev_step d d') →
  setups_inv c'.
Proof.
  intros Hinv (Hs & Hb & Hq) Hp.
  apply (setups_inv_update c c' p Hinv Hs Hb Hq).
  intros d' Hd'. destruct (Hp d' Hd') as (d & Hd & Hstep).
  split; [eauto|]. intros Hc.
  destruct Hstep as [-> | [Hok | [[Hn Hst] | [Hse Hst]]]].
  - by eapply (si_dev c Hinv).
  - done.
  - destruct Hc as [Hc | Hc]; [done|].
    assert (connected_or_disconnecting d) as Hcd
      by (eapply (si_dev c Hinv); eauto).
    unfold connected_or_disconnecting in *. by rewrite Hst.
  - assert (connected_or_disconnecting d) as Hcd.
    { eapply (si_dev c Hinv); [done|]. rewrite <- Hse. done. }
    unfold connected_or_disconnecting in *. by rewrite Hst.
Qed.

(** The effect of a state change on the store. *)
Lemma bt_a2dp_notify_state_local p s c c' :
  bt_a2dp_notify_state p s c = Some c' →
  ∃ d, dev_mem c !! p = Some d ∧ local_at p c c' ∧
    (dev_mem c' !! p = None ∨
     ∃ d', dev_mem c' !! p = Some d' ∧ d_session d' = d_session d ∧
           ((d' = d ∧ d_state d = s) ∨
            (d_state d' = s ∧ s ≠ HAL_A2DP_STATE_DISCONNECTED))).
Proof.
  unfold bt_a2dp_notify_state, a2dp_device_free. intros H.
  destruct (dev_mem c !! p) as [d|] eqn:Hp; [|done]. cbn in H.
  exists d. split; [done|].
  destruct (decide (d_state d = s)) as [Hs|Hs].
  { injection H as <-. split; [apply local_at_refl|]. right. eauto 10. }
  destruct (decide (s ≠ HAL_A2DP_STATE_DISCONNECTED)) as [Hz|Hz].
  { injection H as <-. split; [solve_local|]. right.
    exists (set_d_state s d). cbn. rewrite lookup_insert_eq. eauto 10. }
  cbn in H. rewrite lookup_insert_eq in H. cbn in H. injection H as <-.
  split.
  - destruct (d_session d), (d_io d); solve_local.
  - left. destruct (d_session d), (d_io d); cbn; apply lookup_delete_eq.
Qed.

Lemma notify_setups_inv p s c c' :
  setups_inv c →
  (s = HAL_A2DP_STATE_DISCONNECTED ∨ s = HAL_A2DP_STATE_CONNECTED ∨
   s = HAL_A2DP_STATE_DISCONNECTING) →
  bt_a2dp_notify_state p s c = Some c' →
  setups_inv c'.
Proof.
  intros Hinv Hs H.
  apply bt_a2dp_notify_state_local in H as (d & Hd & Hloc & Hp).
  apply (setups_inv_local c c' p Hinv Hloc).
  intros d' Hd'. exists d. split; [done|].
  destruct Hp as [Hp | (d'' & Hp & Hse & Hcase)]; [congruence|].
  rewrite Hp in Hd'. injection Hd' as <-.
  destruct Hcase as [[-> _] | [Hst Hne]]; [by left|].
  right. left. unfold connected_or_disconnecting. rewrite Hst.
  destruct Hs as [-> | [-> | ->]]; [done | by left | by right].
Qed.

Lemma signaling_connect_cb_local err p env c c' :
  signaling_connect_cb err p env c = Some c' →
  ∃ d, dev_mem c !! p = Some d ∧ local_at p c c' ∧
    ∀ d', dev_mem c' !! p = Some d' →
      d' = d ∨ d_state d' = HAL_A2DP_STATE_CONNECTED ∨
      (d_session d' = None ∧ d_state d' = d_state d).
Proof.
  intros H. unfold signaling_connect_cb in H.
  assert (Hfail : ∀ c0,
    bt_a2dp_notify_state p HAL_A2DP_STATE_DISCONNECTED c = Some c0 →
    ∃ d, dev_mem c !! p = Some d ∧ local_at p c c0 ∧
      ∀ d', dev_mem c0 !! p = Some d' →
        d' = d ∨ d_state d' = HAL_A2DP_STATE_CONNECTED ∨
        (d_session d' = None ∧ d_state d' = d_state d)).
  { intros c0 H0.
    apply bt_a2dp_notify_state_local in H0 as (d & Hd & Hloc & Hp).
    exists d. split_and!; [done|done|]. intros d' Hd'.
    destruct Hp as [Hp | (d'' & Hp & _ & [[-> _] | [_ Hne]])];
      [congruence | left; congruence | done]. }
  destruct err; [by apply Hfail|].
  destruct (sg_get_ok env); cbn [negb] in H; [|by apply Hfail].
  destruct (dev_mem c !! p) as [d|] eqn:Hd; [|done]. cbn in H.
  exists d. split; [done|].
  destruct (sg_avdtp_new env) as [s|].
  - cbn [d_io d_state set_d_session] in H.
    set (c2 := match d_io d with Some _ => _ | None => _ end) in H.
    assert (Hloc2 : local_at p c c2)
      by (subst c2; destruct (d_io d); solve_local).
    assert (∃ d2, dev_mem c2 !! p = Some d2 ∧ d_state d2 = d_state d)
      as (d2 & Hd2 & Hst2).
    { subst c2. destruct (d_io d); cbn; rewrite !lookup_insert_eq;
        eexists; split; reflexivity. }
    assert (Hnot : ∀ s0, bt_a2dp_notify_state p s0 c2 = Some c' →
              (s0 = HAL_A2DP_STATE_CONNECTED ∨
               s0 = HAL_A2DP_STATE_DISCONNECTED ∧
               d_state d = HAL_A2DP_STATE_CONNECTING) →
              local_at p c c' ∧
              ∀ d', dev_mem c' !! p = Some d' →
                d' = d ∨ d_state d' = HAL_A2DP_STATE_CONNECTED ∨
                (d_session d' = None ∧ d_state d' = d_state d)).
    { intros s0 H0 Hs0.
      apply bt_a2dp_notify_state_local in H0 as (d0 & Hd0 & Hloc & Hp).
      rewrite Hd2 in Hd0. injection Hd0 as <-.
      split; [by eapply local_at_trans|]. intros d' Hd'.
      destruct Hp as [Hp | (d'' & Hp & _ & Hcase)]; [congruence|].
      rewrite Hp in Hd'. injection Hd' as <-.
      destruct Hs0 as [-> | [-> Hcg]].
      - right. left. destruct Hcase as [[-> ?] | [? _]]; done.
      - destruct Hcase as [[-> Hz] | [_ Hne]]; [|done].
        rewrite Hst2, Hcg in Hz. done. }
    destruct (decide (d_state d = HAL_A2DP_STATE_CONNECTING)) as [Hcg|Hcg].
    + destruct (sg_discover env <? 0); eapply Hnot; eauto.
    + eapply Hnot; eauto.
  - apply bt_a2dp_notify_state_local in H as (d0 & Hd0 & Hloc & Hp).
    cbn in Hd0. rewrite lookup_insert_eq in Hd0. injection Hd0 as <-.
    split; [eapply local_at_trans; [|exact Hloc]; solve_local|].
    intros d' Hd'.
    destruct Hp as [Hp | (d'' & Hp & Hse & Hcase)]; [congruence|].
    rewrite Hp in Hd'. injection Hd' as <-.
    destruct Hcase as [[-> _] | [_ Hne]]; [|done].
    right. right. done.
Qed.

Lemma signaling_connect_cb_setups_inv err p env c c' :
  setups_inv c → signaling_connect_cb err p env c = Some c' →
  setups_inv c'.
Proof.
  intros Hinv H.
  apply signaling_connect_cb_local in H as (d & Hd & Hloc & Hp).
  apply (setups_inv_local c c' p Hinv Hloc).
  intros d' Hd'. exists d. split; [done|].
  destruct (Hp d' Hd') as [-> | [Hst | Hn]].
  - by left.
  - right. left. by left.
  - right. right. by left.
Qed.

Lemma transport_connect_cb_setups_inv err p env c c' :
  setups_inv c → transport_connect_cb err p env c = Some c' →
  setups_inv c'.
Proof.
  intros Hinv H. unfold transport_connect_cb in H.
  crack; try done.
  all: try (eapply setups_inv_sub; [exact Hinv | done ..]).
  all: apply (setups_inv_local c _ p Hinv); [solve_local|].
  all: cbn; intros d' Hd'; rewrite lookup_insert_eq in Hd';
    injection Hd' as <-; eexists; split; [done|]; right; right; right; done.
Qed.

Lemma bt_a2dp_disconnect_setups_inv dst c c' :
  setups_inv c → bt_a2dp_disconnect dst c = Some c' → setups_inv c'.
Proof.
  intros Hinv H. unfold bt_a2dp_disconnect in H.
  assert (Hemit : ∀ o c0, setups_inv c0 → setups_inv (emit o c0)).
  { intros o c0 H0. eapply setups_inv_sub; [exact H0 | done ..]. }
  destruct (find_device _ _ _) as [[p|]|]; cbn in H;
    [|injection H as <-; by apply Hemit|done].
  destruct (dev_mem c !! p) as [dev|]; [|done]. cbn in H.
  destruct (d_io dev);
    destruct (bt_a2dp_notify_state _ _ _) as [c1|] eqn:Hn; try done;
    injection H as <-; apply Hemit;
    (eapply notify_setups_inv; [| |exact Hn]); auto.
Qed.

Lemma setup_devs_delete c c' i :
  setups c' = delete i (setups c) →
  ∀ p, p ∈ setup_devs c' → p ∈ setup_devs c.
Proof.
  intros Hs p. unfold setup_devs. rewrite Hs. intros Hp.
  eapply elem_of_sublist; [exact Hp|].
  apply fmap_sublist, sublist_delete.
Qed.

Lemma setup_remove_by_id_setups_inv id c c' :
  setups_inv c → setup_remove_by_id id c = Some c' → setups_inv c'.
Proof.
  intros Hinv H. unfold setup_remove_by_id, setup_remove in H. crack.
  - eapply setups_inv_sub; [exact Hinv | done | done |].
    by eapply setup_devs_delete.
  - done.
Qed.

Lemma bt_a2dp_connect_setups_inv dst r c c' :
  setups_inv c → bt_a2dp_connect dst r c = Some c' → setups_inv c'.
Proof.
  intros Hinv H.
  unfold bt_a2dp_connect, a2dp_device_new, a2dp_device_connect in H.
  destruct (find_device _ _ _) as [[q|]|]; cbn in H; [|  |done].
  { injection H as <-. eapply setups_inv_sub; [exact Hinv | done ..]. }
  rewrite lookup_insert_eq in H. cbn in H.
  destruct (io_err r); cbn [negb] in H.
  - unfold a2dp_device_free in H. cbn in H.
    rewrite lookup_insert_eq in H. cbn in H. injection H as <-.
    apply (setups_inv_alloc c _ Hinv).
    + by destruct (io_chan r).
    + by destruct (io_chan r).
    + intros q' Hq'. destruct (io_chan r); cbn;
        rewrite lookup_delete_ne, !lookup_insert_ne by done; done.
    + intros d'. destruct (io_chan r); cbn;
        rewrite lookup_delete_eq; done.
  - destruct (bt_a2dp_notify_state _ _ _) as [c3|] eqn:Hn; [|done].
    injection H as <-.
    apply bt_a2dp_notify_state_local in Hn
      as (d & Hd & (Hs & Hb & Hq) & Hp).
    cbn in Hd. rewrite lookup_insert_eq in Hd. injection Hd as <-.
    apply (setups_inv_alloc c _ Hinv); cbn.
    + by rewrite Hs.
    + by rewrite Hb.
    + intros q' Hq'. rewrite (Hq _ Hq'). cbn.
      rewrite !lookup_insert_ne by done. done.
    + intros d' Hd'.
      destruct Hp as [Hp | (d'' & Hp & Hse & _)]; [congruence|].
      rewrite Hp in Hd'. injection Hd' as <-. left. by rewrite Hse.
Qed.

Lemma connect_cb_setups_inv err env c c' :
  setups_inv c → connect_cb err env c = Some c' → setups_inv c'.
Proof.
  intros Hinv H. unfold connect_cb, a2dp_device_new in H.
  destruct err.
  { injection H as <-. done. }
  destruct (cn_get_ok env); cbn [negb] in H.
  2:{ injection H as <-. eapply setups_inv_sub; [exact Hinv | done ..]. }
  destruct (find_device _ _ _) as [[p|]|]; cbn [mbind option_bind] in H;
    [| |done].
  - by eapply transport_connect_cb_setups_inv.
  - apply signaling_connect_cb_local in H
      as (d & Hd & (Hs & Hb & Hq) & Hp).
    cbn in Hd. rewrite lookup_insert_eq in Hd. injection Hd as <-.
    apply (setups_inv_alloc c _ Hinv).
    + by rewrite Hs.
    + by rewrite Hb.
    + intros q' Hq'. rewrite (Hq _ Hq'). cbn.
      rewrite lookup_insert_ne by done. done.
    + intros d' Hd'. destruct (Hp d' Hd') as [-> | [Hst | [Hn _]]].
      * by left.
      * right. by left.
      * by left.
Qed.

Lemma sep_open_cfm_setups_inv session err r ep c c' :
  setups_inv c → sep_open_cfm session err r ep c = Some c' →
  setups_inv c'.
Proof.
  intros Hinv H. unfold sep_open_cfm in H.
  assert (Hrm : ∀ c0,
    (ep_structs c !! ep ≫= λ endpoint, setup_remove_by_id (e_id endpoint) c)
      = Some c0 → setups_inv c0).
  { intros c0 H0. destruct (ep_structs c !! ep); [|done]. cbn in H0.
    by eapply setup_remove_by_id_setups_inv. }
  destruct err; [by apply Hrm|].
  destruct (find_device_by_session c session) as [[p|]|]; cbn in H;
    [| by apply Hrm | done].
  unfold a2dp_device_connect in H.
  destruct (dev_mem c !! p) as [d|] eqn:Hd; [|done]. cbn in H.
  injection H as <-.
  apply (setups_inv_local c _ p Hinv); [solve_local|].
  cbn. intros d' Hd'. rewrite lookup_insert_eq in Hd'.
  injection Hd' as <-. exists d. split; [done|]. right. right. right. done.
Qed.

Lemma sep_setconf_ind_setups_inv session stream caps ep c b c' :
  session ≠ None →
  setups_inv c →
  sep_setconf_ind session stream caps ep c = Some (b, c') →
  setups_inv c'.
Proof.
  intros Hse Hinv H. unfold sep_setconf_ind in H.
  destruct (find_device_by_session c session) as [[p|]|] eqn:Hf;
    cbn in H; [| by injection H as _ <- | done].
  apply find_device_by_session_in_found in Hf as (d & Hd & Hs).
  destruct (setconf_caps _ _ _ _) as [[|[preset|]]|]; cbn in H;
    try done; try (by injection H as _ <-).
  injection H as _ <-.
  eapply (setups_inv_add c _ _ d); [exact Hinv | done | done | | |].
  - cbn. reflexivity.
  - done.
  - congruence.
Qed.

Lemma discover_cb_setups_inv session dev f env c c' :
  session ≠ None →
  (∀ d, dev_mem c !! dev = Some d → d_session d = session) →
  setups_inv c →
  discover_cb session dev f env c = Some c' →
  setups_inv c'.
Proof.
  intros Hse Hdev Hinv H. unfold discover_cb, select_configuration in H.
  crack.
  all: try (eapply setups_inv_sub; [exact Hinv | done ..]).
  all: match goal with
       | Hd : dev_mem ?c0 !! _ = Some ?d |- _ =>
           eapply (setups_inv_add c0 _ _ d);
             [exact Hinv | done | done | cbn; reflexivity | done |];
             rewrite (Hdev _ eq_refl); done
       end.
Qed.

Lemma step_setups_inv e c c' :
  event_ok c e → setups_inv c → step e c = Some c' → setups_inv c'.
Proof.
  intros Hok Hinv H.
  assert (Hsub : ∀ c0, dev_mem c0 = dev_mem c → (brk c ≤ brk c0)%nat →
                       setups c0 = setups c → setups_inv c0).
  { intros c0 Hm Hb Hs. eapply setups_inv_sub; [exact Hinv | done | done |].
    unfold setup_devs. by rewrite Hs. }
  assert (Hdel : ∀ c0 i, dev_mem c0 = dev_mem c → (brk c ≤ brk c0)%nat →
                         setups c0 = delete i (setups c) → setups_inv c0).
  { intros c0 i Hm Hb Hs.
    eapply setups_inv_sub; [exact Hinv | done | done |].
    by eapply setup_devs_delete. }
  destruct e; cbn [step] in H; cbn [event_ok event_wf] in Hok.
  - by eapply bt_a2dp_connect_setups_inv.
  - by eapply bt_a2dp_disconnect_setups_inv.
  - by eapply signaling_connect_cb_setups_inv.
  - by eapply transport_connect_cb_setups_inv.
  - by eapply connect_cb_setups_inv.
  - eapply notify_setups_inv; [exact Hinv | | exact H]. by left.
  - destruct Hok. by eapply discover_cb_setups_inv.
  - destruct (sep_setconf_ind _ _ _ _ _) as [[b c0]|] eqn:Hs; [|done].
    cbn in H. injection H as <-. by eapply sep_setconf_ind_setups_inv.
  - unfold sep_close_ind, setup_remove in H. crack.
    + eapply Hdel; cbn; done.
    + done.
  - unfold sep_setconf_cfm, setup_remove in H. crack;
      first [ done | eapply Hdel; cbn; done | eapply Hsub; cbn; done ].
  - by eapply sep_open_cfm_setups_inv.
  - unfold sep_start_cfm in H.
    crack; first [done | by eapply setup_remove_by_id_setups_inv].
  - unfold sep_suspend_cfm in H.
    crack; first [done | by eapply setup_remove_by_id_setups_inv].
  - unfold sep_close_cfm in H.
    crack; first [done | by eapply setup_remove_by_id_setups_inv].
  - unfold sep_abort_cfm in H.
    crack; first [done | by eapply setup_remove_by_id_setups_inv].
  - unfold bt_audio_open, register_endpoint, release_presets in H.
    crack; eapply Hsub; cbn; first [done | lia].
  - unfold bt_audio_close, unregister_endpoint in H.
    crack; eapply Hsub; cbn; first [done | lia].
  - unfold bt_stream_open in H. crack; eapply Hsub; cbn; first [done | lia].
  - unfold bt_stream_close, stream_request in H.
    crack; eapply Hsub; cbn; first [done | lia].
  - unfold bt_stream_resume, stream_request in H.
    crack; eapply Hsub; cbn; first [done | lia].
  - unfold bt_stream_suspend, stream_request in H.
    crack; eapply Hsub; cbn; first [done | lia].
Qed.

Lemma run_setups_inv es :
  ∀ c c', run_ok es c → setups_inv c → run es c = Some c' → setups_inv c'.
Proof.
  induction es as [|e es IH]; intros c c' Hok Hinv H; cbn in H.
  - by injection H as <-.
  - destruct (step e c) as [c1|] eqn:Hs; [|done]. cbn in H.
    destruct Hok as [He Hrest].
    eapply IH; [by apply Hrest | | exact H].
    by eapply step_setups_inv.
Qed.

(** What does hold of the device of a setup: in every state the
    coordinator reaches, as long as the record of the device has not
    been released, the device is in the Connected or in the
    Disconnecting state. *)
Theorem setup_device_connected_or_disconnecting es c s dev :
  run_ok es coordinator_init →
  run es coordinator_init = Some c →
  s ∈ setups c →
  dev_mem c !! s_dev s = Some dev →
  connected_or_disconnecting dev.
Proof.
  intros Hok Hrun Hs Hd.
  pose proof (run_setups_inv es _ _ Hok setups_inv_init Hrun) as Hinv.
  eapply (si_dev c Hinv); [exact Hd|]. right.
  unfold setup_devs. by apply list_elem_of_fmap_2.
Qed.

Ltac run_ok_step :=
  split; [cbn; try done |];
  let c1 := fresh "c" in
  let H1 := fresh "H" in
  intros c1 H1; vm_compute in H1; injection H1 as <-.

Lemma setup_device_connected_or_disconnecting_witness :
  ∃ c s dev,
    run_ok scenario_S2_disconnect coordinator_init ∧
    run scenario_S2_disconnect coordinator_init = Some c ∧
    s ∈ setups c ∧
    dev_mem c !! s_dev s = Some dev ∧
    d_state dev = HAL_A2DP_STATE_DISCONNECTING ∧
    connected_or_disconnecting dev.
Proof.
  assert (Hok : run_ok scenario_S2_disconnect coordinator_init).
  { unfold scenario_S2_disconnect, scenario_S2. cbn [app run_ok].
    do 4 run_ok_step. exact I. }
  eexists _, _, _. split; [exact Hok|].
  split; [vm_compute; reflexivity|].
  assert (Hin : ∀ s : a2dp_setup, s ∈ [s]) by (intros; left).
  split; [apply Hin|].
  split; [reflexivity|].
  split; [reflexivity|].
  eapply (setup_device_connected_or_disconnecting scenario_S2_disconnect);
    [exact Hok | vm_compute; reflexivity | apply Hin | reflexivity].
Defined.

(** The Disconnecting state is reached with a setup in place: after
    scenario S2 a local disconnect moves the device to Disconnecting,
    where it waits for the AVDTP disconnect callback; its setup is still
    in the setup list. *)
Lemma setup_of_disconnecting_device :
  (c ← run scenario_S2_disconnect coordinator_init;
   Some (setups c, d_state <$> dev_mem c !! 2%nat))
  = Some ([ {| s_dev := 2%nat; s_endpoint := 1%nat;
               s_preset := {| p_data := sbc_pref_blob; p_len := 4 |};
               s_stream := 9%nat |} ],
          Some HAL_A2DP_STATE_DISCONNECTING) ∧
  HAL_A2DP_STATE_DISCONNECTING ≠ HAL_A2DP_STATE_CONNECTED.
Proof. split; [reflexivity | discriminate]. Qed.

(** * Further properties *)

(** ** What the validators look at *)

(** X1: [sbc_check_config] reads the two lengths and the first two bytes
    of each blob only: the bitpool bytes, and anything after them, have
    no influence on the verdict. *)
Theorem sbc_check_config_ignores_bitpool caps caps' caps_len conf conf' conf_len :
  byte_at 0 caps = byte_at 0 caps' → byte_at 1 caps = byte_at 1 caps' →
  byte_at 0 conf = byte_at 0 conf' → byte_at 1 conf = byte_at 1 conf' →
  sbc_check_config caps caps_len conf conf_len =
  sbc_check_config caps' caps_len conf' conf_len.
Proof.
  intros H0 H1 H2 H3. unfold sbc_check_config, as_a2dp_sbc_t. cbn.
  by rewrite H0, H1, H2, H3.
Qed.

Lemma sbc_check_config_ignores_bitpool_witness :
  sbc_check_config sbc_caps_blob 4 [33; 21; 2; 53] 4 =
  sbc_check_config sbc_caps_blob 4 [33; 21; 250; 1] 4 ∧
  sbc_check_config sbc_caps_blob 4 [33; 21; 250; 1] 4 = 0.
Proof.
  split; [|reflexivity].
  apply sbc_check_config_ignores_bitpool; reflexivity.
Defined.

(** X2: [select_preset] returns the first preferred preset that
    [check_capabilities] accepts against the remote codec capability,
    and nothing exactly when it accepts none. *)
Theorem select_preset_first_match endpoint service :
  let accepts preset :=
    check_capabilities preset (media_codec_type service)
      (codec_data service)
      (cap_length service - sizeof_media_codec_capability) = 0 in
  (∀ preset, select_preset endpoint service = Some preset ↔
     ∃ l1 l2, e_presets endpoint = l1 ++ preset :: l2 ∧
              Forall (fun p => ¬ accepts p) l1 ∧ accepts preset) ∧
  (select_preset endpoint service = None ↔
     Forall (fun p => ¬ accepts p) (e_presets endpoint)).
Proof.
  intros accepts. unfold select_preset.
  generalize (e_presets endpoint) as l.
  assert (Hdec : ∀ p, (check_capabilities p (media_codec_type service)
             (codec_data service)
             (cap_length service - sizeof_media_codec_capability) =? 0)
           = true ↔ accepts p).
  { intros p. unfold accepts. apply Z.eqb_eq. }
  split.
  - intros preset. revert preset.
    induction l as [|p l IH]; intros preset; cbn.
    + split; [done|]. intros (l1 & l2 & Hl & _). by destruct l1.
    + destruct (_ =? 0) eqn:Hp.
      * apply Hdec in Hp. split.
        -- intros [= <-]. exists [], l. split_and!; [done | constructor | done].
        -- intros (l1 & l2 & Hl & Hrej & Hacc).
           destruct l1 as [|q l1]; cbn in Hl.
           ++ by injection Hl as -> _.
           ++ injection Hl as -> _. inversion Hrej; subst. done.
      * assert (¬ accepts p) as Hnp.
        { intros Ha. apply Hdec in Ha. congruence. }
        rewrite IH. split.
        -- intros (l1 & l2 & -> & Hrej & Hacc).
           exists (p :: l1), l2. split_and!; [done | by constructor | done].
        -- intros (l1 & l2 & Hl & Hrej & Hacc).
           destruct l1 as [|q l1]; cbn in Hl.
           ++ injection Hl as -> _. done.
           ++ injection Hl as -> ->. inversion Hrej; subst. eauto.
  - induction l as [|p l IH]; cbn; [split; [constructor | done]|].
    destruct (_ =? 0) eqn:Hp.
    + apply Hdec in Hp. split; [done|]. intros H. inversion H; subst. done.
    + rewrite IH. split.
      * intros H. constructor; [|done]. intros Ha. apply Hdec in Ha. congruence.
      * intros H. by inversion H.
Qed.

(** ** Capabilities built and read back *)

Lemma to_uint8_small z : 0 ≤ z < 256 → to_uint8 z = z.
Proof. intros. unfold to_uint8. by apply Z.mod_small. Qed.

(** The preset read from a MEDIA_CODEC capability that was built from a
    preset is that preset. *)
Lemma media_codec_capability_round_trip codec preset :
  preset_wf preset → 0 ≤ p_len preset ≤ 127 →
  ∃ cap, media_codec_capability codec preset = Some cap ∧
         cap_category cap = AVDTP_MEDIA_CODEC ∧
         media_codec_type cap = codec ∧
         setconf_preset cap = Some preset.
Proof.
  destruct preset as [data len]. unfold preset_wf. cbn. intros Hwf Hlen.
  unfold media_codec_capability. cbn.
  destruct (Z.ltb_spec len 0); [lia|].
  eexists. split; [reflexivity|].
  assert (Hn : Z.to_nat (sizeof_media_codec_capability + len)
               = S (S (length data))).
  { unfold sizeof_media_codec_capability. lia. }
  assert (Ht : take (Z.to_nat len) data = data) by (apply take_ge; lia).
  split; [reflexivity|]. split.
  - unfold media_codec_type, avdtp_service_cap_new, byte_at. cbn.
    rewrite Hn. reflexivity.
  - unfold setconf_preset, avdtp_service_cap_new, codec_data. cbn.
    unfold sizeof_media_codec_capability in *.
    rewrite to_uint8_small by lia.
    replace (2 + len - 2) with len by lia.
    rewrite to_int8_small by lia.
    destruct (Z.ltb_spec len 0); [lia|].
    rewrite Hn, Ht. cbn. rewrite drop_0, firstn_all. by rewrite Ht.
Qed.

(** X3: [sep_getcap_ind] answers TRUE with two capabilities, a
    MEDIA_TRANSPORT capability with an empty payload followed by a
    MEDIA_CODEC capability that carries the endpoint's codec type and
    from which the endpoint's capabilities preset is read back
    unchanged. *)
Theorem sep_getcap_ind_advertises_caps ep endpoint c :
  ep_mem c !! ep = Some endpoint →
  preset_wf (e_caps endpoint) → 0 ≤ p_len (e_caps endpoint) ≤ 127 →
  ∃ cap, sep_getcap_ind ep c =
           Some (true, [ {| cap_category := AVDTP_MEDIA_TRANSPORT;
                            cap_length := 0; cap_data := [] |}; cap ]) ∧
         cap_category cap = AVDTP_MEDIA_CODEC ∧
         media_codec_type cap = e_codec endpoint ∧
         setconf_preset cap = Some (e_caps endpoint).
Proof.
  intros He Hwf Hlen.
  destruct (media_codec_capability_round_trip (e_codec endpoint) _ Hwf Hlen)
    as (cap & Hcap & Hc & Ht & Hp).
  exists cap. split; [|done].
  unfold sep_getcap_ind, codec_caps. rewrite He. cbn. rewrite Hcap. done.
Qed.

Lemma sep_getcap_ind_advertises_caps_witness :
  let c := set_endpoints [1%nat]
             (set_ep_mem {[ 1%nat := sample_endpoint ]} coordinator_init) in
  ep_mem c !! 1%nat = Some sample_endpoint ∧
  ∃ cap,
    sep_getcap_ind 1%nat c =
      Some (true, [ {| cap_category := AVDTP_MEDIA_TRANSPORT;
                       cap_length := 0; cap_data := [] |}; cap ]) ∧
    setconf_preset cap = Some {| p_data := sbc_caps_blob; p_len := 4 |}.
Proof.
  intros c.
  assert (He : ep_mem c !! 1%nat = Some sample_endpoint) by reflexivity.
  split; [exact He|].
  destruct (sep_getcap_ind_advertises_caps 1%nat sample_endpoint c He)
    as (cap & H1 & _ & _ & H2).
  - reflexivity.
  - cbn. lia.
  - exists cap. split; [exact H1 | exact H2].
Defined.

Lemma check_config_presets_stored l preset :
  preset ∈ l → check_config_presets l preset = true.
Proof.
  induction l as [|q l IH]; intros Hin; [by apply elem_of_nil in Hin|].
  cbn. apply elem_of_cons in Hin as [<- | Hin].
  - rewrite Z.eqb_refl. cbn. unfold memcmp_eq.
    by rewrite bool_decide_eq_true_2.
  - destruct (negb _); [auto|]. destruct (memcmp_eq _ _ _); auto.
Qed.

Lemma select_preset_in_elem l service preset :
  select_preset_in l service = Some preset → preset ∈ l.
Proof.
  induction l as [|q l IH]; cbn; [done|].
  destruct (_ =? 0); [intros [= <-]; left | intros H; right; auto].
Qed.

(** X4: the capability list that the local selection builds for an
    endpoint is accepted when it comes back as a peer's proposal for an
    endpoint with the same presets, whatever the codec type: the
    indication answers TRUE, confirms with no error and binds the
    selected preset. *)
Theorem selected_configuration_accepted
    c session stream ep endpoint rsep caps dev :
  find_device_by_session c session = Some (Some dev) →
  ep_mem c !! ep = Some endpoint →
  Forall (fun p => preset_wf p ∧ 0 ≤ p_len p ≤ 127) (e_presets endpoint) →
  select_configuration_caps endpoint rsep = Some caps →
  ∃ preset,
    select_preset endpoint rsep = Some preset ∧
    sep_setconf_ind session stream caps ep c =
      Some (true, emit (set_configuration_cb session stream None)
                    (setup_add dev ep preset stream c)).
Proof.
  intros Hfind He Hwf Hcaps. unfold select_configuration_caps in Hcaps.
  destruct (select_preset endpoint rsep) as [preset|] eqn:Hsel; [|done].
  cbn in Hcaps. exists preset. split; [done|].
  pose proof (select_preset_in_elem _ _ _ Hsel) as Hin.
  rewrite Forall_forall in Hwf. destruct (Hwf _ Hin) as [Hp Hl].
  destruct (media_codec_capability_round_trip (e_codec endpoint) _ Hp Hl)
    as (cap & Hcap & Hc & Ht & Hpre).
  unfold codec_caps in Hcaps. rewrite Hcap in Hcaps. cbn in Hcaps.
  injection Hcaps as <-.
  unfold sep_setconf_ind. rewrite Hfind. cbn [mbind option_bind].
  cbn [setconf_caps avdtp_service_cap_new cap_category].
  change (AVDTP_MEDIA_TRANSPORT =? AVDTP_DELAY_REPORTING) with false.
  change (AVDTP_MEDIA_TRANSPORT =? AVDTP_MEDIA_CODEC) with false.
  cbn [negb]. rewrite Hc.
  change (AVDTP_MEDIA_CODEC =? AVDTP_DELAY_REPORTING) with false.
  rewrite Z.eqb_refl. cbn [negb]. rewrite He. cbn [mbind option_bind].
  rewrite Ht, Z.eqb_refl. cbn [negb]. rewrite Hpre. cbn [mbind option_bind].
  unfold check_config. rewrite (check_config_presets_stored _ _ Hin).
  reflexivity.
Qed.

Lemma selected_configuration_accepted_witness :
  ∃ c caps,
    run scenario_connected_B coordinator_init = Some c ∧
    select_configuration_caps sample_endpoint
      (cap_media_codec A2DP_CODEC_SBC [33; 21; 2; 250]) = Some caps ∧
    sep_setconf_ind (Some 50%nat) 9%nat caps 1%nat c =
      Some (true, emit (set_configuration_cb (Some 50%nat) 9%nat None)
                    (setup_add 2%nat 1%nat
                       {| p_data := sbc_pref_blob; p_len := 4 |} 9%nat c)).
Proof.
  eexists _, _. split; [vm_compute; reflexivity|].
  split; [vm_compute; reflexivity|].
  match goal with
  | |- sep_setconf_ind _ _ ?caps _ ?c = _ =>
      destruct (selected_configuration_accepted c (Some 50%nat) 9%nat 1%nat
                  sample_endpoint
                  (cap_media_codec A2DP_CODEC_SBC [33; 21; 2; 250])
                  caps 2%nat)
        as (preset & Hsel & Hrun)
  end.
  - reflexivity.
  - reflexivity.
  - repeat constructor; cbn; lia.
  - vm_compute. reflexivity.
  - vm_compute in Hsel. injection Hsel as <-. exact Hrun.
Defined.

(** ** The preset parser read backwards *)

Lemma parse_presets_loop_sound n :
  ∀ p len acc l,
    parse_presets_loop n p len acc = Some l → l ≠ [] →
    bytes p → 0 ≤ len ≤ Z.of_nat (length p) → len < 65536 →
    ∃ new rest,
      l = acc ++ new ∧ length new = n ∧
      Forall (fun q => preset_wf q ∧ 0 ≤ p_len q ≤ 127) new ∧
      take (Z.to_nat len) p = pack (p_data <$> new) ++ rest.
Proof.
  induction n as [|n IH]; intros p len acc l H Hne Hb Hlen Hmax;
    cbn [parse_presets_loop] in H.
  - injection H as <-. exists [], (take (Z.to_nat len) p).
    rewrite app_nil_r. split_and!; [done | done | constructor | done].
  - unfold sizeof_audio_preset in H.
    destruct (Z.ltb_spec len 1); [by injection H as <-|].
    rewrite to_uint16_small in H by lia.
    destruct p as [|h tl]; [cbn in Hlen; lia|].
    unfold byte_at in H. cbn [nth] in H.
    inversion Hb as [|? ? Hh Htl]; subst.
    destruct (Z.eqb_spec (len - 1) 0); [by injection H as <-|].
    destruct (Z.ltb_spec (len - 1) h); [by injection H as <-|].
    cbn [orb] in H.
    destruct (Z.ltb_spec (to_int8 h) 0) as [|Hpos]; [done|].
    assert (h < 128) as Hh7.
    { unfold to_int8 in Hpos. rewrite Z.mod_small in Hpos by lia.
      destruct (Z.ltb_spec h 128); lia. }
    rewrite to_int8_small in H by lia.
    rewrite to_uint16_small in H by lia.
    cbn [length] in Hlen. cbn [drop Nat.add] in H. rewrite drop_0 in H.
    apply IH in H as (new & rest & -> & Hn & Hwf & Htake);
      [ | done | by apply Forall_drop | rewrite length_drop; lia | lia ].
    exists ({| p_data := take (Z.to_nat h) tl; p_len := h |} :: new), rest.
    assert (Hlt : length (take (Z.to_nat h) tl) = Z.to_nat h)
      by (apply length_take_le; lia).
    split_and!.
    + by rewrite <- app_assoc.
    + cbn. by rewrite Hn.
    + constructor; [|done]. unfold preset_wf. cbn. split; lia.
    + cbn [fmap list_fmap pack p_data]. rewrite Hlt, Z2Nat.id by lia.
      replace (Z.to_nat len) with (S (Z.to_nat h + Z.to_nat (len - 1 - h)))
        by lia.
      cbn [take]. rewrite <- take_take_drop, Htake.
      cbn. by rewrite <- app_assoc.
Qed.

(** X5: [parse_presets] gives all the presets or none: a result other
    than [NULL] holds exactly [count] presets, and each of them is a
    blob of 0 to 127 bytes whose length field is the length of the
    blob. *)
Theorem parse_presets_all_or_nothing p count len l :
  bytes p → 0 ≤ len ≤ Z.of_nat (length p) → len < 65536 →
  parse_presets p count len = Some l →
  l = [] ∨
  (length l = Z.to_nat count ∧
   Forall (fun q => preset_wf q ∧ 0 ≤ p_len q ≤ 127) l).
Proof.
  intros Hb Hlen Hmax H.
  destruct l as [|q l]; [by left | right].
  apply parse_presets_loop_sound in H
    as (new & rest & Hl & Hn & Hwf & _); [|done ..].
  cbn in Hl. subst new. done.
Qed.

Lemma parse_presets_all_or_nothing_witness :
  bytes (cmd_preset sample_cmd_open) ∧
  parse_presets (cmd_preset sample_cmd_open) 2 10 =
    Some [ {| p_data := sbc_caps_blob; p_len := 4 |};
           {| p_data := sbc_pref_blob; p_len := 4 |} ] ∧
  length [ {| p_data := sbc_caps_blob; p_len := 4 |};
           {| p_data := sbc_pref_blob; p_len := 4 |} ] = Z.to_nat 2.
Proof.
  assert (Hb : bytes (cmd_preset sample_cmd_open))
    by (repeat constructor; lia).
  assert (Hp : parse_presets (cmd_preset sample_cmd_open) 2 10 =
    Some [ {| p_data := sbc_caps_blob; p_len := 4 |};
           {| p_data := sbc_pref_blob; p_len := 4 |} ]) by reflexivity.
  split; [exact Hb|]. split; [exact Hp|].
  assert (H1 : 0 ≤ 10 ≤ Z.of_nat (length (cmd_preset sample_cmd_open)))
    by (cbn; lia).
  assert (H2 : 10 < 65536) by lia.
  destruct (parse_presets_all_or_nothing _ 2 10 _ Hb H1 H2 Hp)
    as [Hnil | [Hlen _]]; [discriminate | exact Hlen].
Defined.

(** X6: the presets [parse_presets] returns are the payload read
    backwards: packing their blobs again gives a prefix of the first
    [len] bytes of the buffer, so the parser takes nothing from beyond
    the length it was given. *)
Theorem parse_presets_pack p count len l :
  bytes p → 0 ≤ len ≤ Z.of_nat (length p) → len < 65536 →
  parse_presets p count len = Some l → l ≠ [] →
  ∃ rest, take (Z.to_nat len) p = pack (p_data <$> l) ++ rest.
Proof.
  intros Hb Hlen Hmax H Hne.
  apply parse_presets_loop_sound in H
    as (new & rest & Hl & _ & _ & Htake); [|done ..].
  cbn in Hl. subst new. eauto.
Qed.

Lemma parse_presets_pack_witness :
  bytes (cmd_preset sample_cmd_open ++ [7; 7]) ∧
  ∃ l rest,
    parse_presets (cmd_preset sample_cmd_open ++ [7; 7]) 2 11 = Some l ∧
    take 11 (cmd_preset sample_cmd_open ++ [7; 7]) =
      pack (p_data <$> l) ++ rest ∧
    rest = [7].
Proof.
  assert (Hb : bytes (cmd_preset sample_cmd_open ++ [7; 7]))
    by (repeat constructor; lia).
  split; [exact Hb|].
  assert (H1 : 0 ≤ 11 ≤ Z.of_nat (length (cmd_preset sample_cmd_open
                                            ++ [7; 7]))) by (cbn; lia).
  assert (H2 : 11 < 65536) by lia.
  assert (Hp : parse_presets (cmd_preset sample_cmd_open ++ [7; 7]) 2 11 =
    Some [ {| p_data := sbc_caps_blob; p_len := 4 |};
           {| p_data := sbc_pref_blob; p_len := 4 |} ]) by reflexivity.
  destruct (parse_presets_pack _ 2 11 _ Hb H1 H2 Hp) as [rest Hrest];
    [discriminate|].
  eexists _, rest. split; [exact Hp|]. split; [exact Hrest|].
  cbn in Hrest. by injection Hrest as <-.
Defined.

(** ** The endpoint registry *)

Lemma find_endpoint_in_found m l id p :
  find_endpoint_in m l id = Some (Some p) →
  ∃ l1 l2 e, l = l1 ++ p :: l2 ∧ m !! p = Some e ∧ e_id e = id ∧
    Forall (fun q => ∃ e', m !! q = Some e' ∧ e_id e' ≠ id) l1.
Proof.
  induction l as [|q l IH]; cbn; [done|].
  destruct (m !! q) as [e|] eqn:Hq; cbn; [|done].
  destruct (decide (e_id e = id)) as [Hid|Hid].
  - intros [= <-]. exists [], l, e. split_and!; [done|done|done|constructor].
  - intros H. apply IH in H as (l1 & l2 & e' & -> & Hp & He & Hall).
    exists (q :: l1), l2, e'. split_and!; [done|done|done|].
    constructor; [eauto | done].
Qed.

Lemma find_endpoint_in_skip m l1 l2 id :
  Forall (fun q => ∃ e', m !! q = Some e' ∧ e_id e' ≠ id) l1 →
  find_endpoint_in m (l1 ++ l2) id = find_endpoint_in m l2 id.
Proof.
  induction 1 as [|q l1 (e & Hq & Hid) _ IH]; cbn; [done|].
  rewrite Hq. cbn. by rewrite decide_False.
Qed.

(** X7: a CLOSE for a registered endpoint releases the endpoint and
    answers with success, but its address stays in the list of
    endpoints: the same CLOSE sent again walks the list up to the
    released endpoint and reads it, which has no defined result.  That
    is for an endpoint that holds its blobs; for a record that has lost
    them (the endpoint registered under the id 0) the first CLOSE
    releases the blobs a second time and has no defined result
    itself. *)
Theorem bt_audio_close_twice id c p :
  find_endpoint c id = Some (Some p) →
  (is_Some (ep_mem c !! p) →
   ∃ c', bt_audio_close id c = Some c' ∧
         ep_mem c' = delete p (ep_mem c) ∧
         endpoints c' = endpoints c ∧ p ∈ endpoints c' ∧
         last (trace c') =
           Some (audio_ipc_send_rsp AUDIO_OP_CLOSE AUDIO_STATUS_SUCCESS) ∧
         bt_audio_close id c' = None) ∧
  (ep_mem c !! p = None → bt_audio_close id c = None).
Proof.
  intros Hf. split.
  - intros [e0 Hlive]. unfold bt_audio_close. rewrite Hf. cbn.
    unfold find_endpoint in Hf.
    destruct (find_endpoint_in_found _ _ _ _ Hf)
      as (l1 & l2 & e & Hl & Hp & Hid & Hall).
    unfold unregister_endpoint. rewrite Hlive. cbn.
    assert (Hagain : find_endpoint_in
                       (delete p (ep_mem c) ∪ delete p (ep_released c))
                       (endpoints c) id = None).
    { rewrite <- delete_union. fold (ep_structs c).
      rewrite Hl, find_endpoint_in_skip.
      - cbn. by rewrite lookup_delete_eq.
      - eapply Forall_impl; [exact Hall|]. cbn.
        intros q (e' & Hq & Hne). exists e'. split; [|done].
        rewrite lookup_delete_ne; [done|]. intros ->. congruence. }
    assert (Hin : p ∈ endpoints c).
    { rewrite Hl. apply elem_of_app. right. left. }
    eexists. split; [reflexivity|].
    destruct (e_sep e0); cbn; unfold find_endpoint, ep_structs; cbn;
      rewrite Hagain; rewrite last_snoc; done.
  - intros Hnone. unfold bt_audio_close. rewrite Hf.
    cbn [mbind option_bind]. unfold unregister_endpoint.
    by rewrite Hnone.
Qed.

Lemma bt_audio_close_twice_witness :
  ∃ c, run [sample_open] coordinator_init = Some c ∧
       find_endpoint c 1 = Some (Some 1%nat) ∧
       is_Some (ep_mem c !! 1%nat) ∧
       ∃ c', bt_audio_close 1 c = Some c' ∧
             endpoints c' = [1%nat] ∧
             bt_audio_close 1 c' = None.
Proof.
  eexists. split; [vm_compute; reflexivity|].
  split; [reflexivity|].
  split; [by eexists|].
  match goal with
  | |- ∃ c', bt_audio_close _ ?c = _ ∧ _ =>
      destruct (proj1 (bt_audio_close_twice 1 c 1%nat eq_refl)
                  (ex_intro _ _ eq_refl))
        as (c' & H1 & _ & H2 & _ & _ & H3)
  end.
  exists c'. split; [exact H1|]. split; [exact H2 | exact H3].
Defined.

Lemma endpoint_id_at_small i :
  (i < 255)%nat → endpoint_id_at i = Z.of_nat (S i).
Proof.
  intros Hi. unfold endpoint_id_at. rewrite to_uint8_small by lia. lia.
Qed.

(** X8: ids are handed out in registration order: as long as the list
    of endpoints has at most 255 entries, the ids of the OPEN responses
    sent so far are 1, 2, 3, ... up to the length of the list. *)
Theorem opened_ids_in_order es c :
  run es coordinator_init = Some c →
  (length (endpoints c) ≤ 255)%nat →
  opened_ids (trace c) = Z.of_nat <$> seq 1 (length (endpoints c)).
Proof.
  intros Hrun Hlen.
  destruct (run_endpoints_inv es _ _ endpoints_inv_init Hrun)
    as [_ _ _ _ H5].
  rewrite H5. clear H5.
  induction (length (endpoints c)) as [|n IH]; [done|].
  rewrite !seq_S, map_app, filter_app, fmap_app, IH by lia. cbn.
  rewrite endpoint_id_at_small by lia.
  rewrite decide_True by lia. done.
Qed.

Lemma opened_ids_in_order_witness :
  ∃ c, run [sample_open; sample_open; ev_audio_close 2; sample_open]
         coordinator_init = Some c ∧
       (length (endpoints c) ≤ 255)%nat ∧
       opened_ids (trace c) = Z.of_nat <$> seq 1 (length (endpoints c)) ∧
       opened_ids (trace c) = [1; 2; 3].
Proof.
  eexists. split; [vm_compute; reflexivity|].
  split; [cbn; lia|]. split; [|reflexivity].
  match goal with
  | |- opened_ids (trace ?c) = _ =>
      apply (opened_ids_in_order
               [sample_open; sample_open; ev_audio_close 2; sample_open] c)
  end.
  - vm_compute. reflexivity.
  - cbn. lia.
Defined.

(** X9: an endpoint can be found under the id its OPEN response
    carries: in a state the coordinator reaches, with every listed
    endpoint still allocated and fewer than 255 of them, [find_endpoint]
    of the id just returned gives the endpoint just registered. *)
Theorem bt_audio_open_then_find es c cmd len sep c' id :
  run es coordinator_init = Some c →
  Forall (fun p => is_Some (ep_mem c !! p)) (endpoints c) →
  (length (endpoints c) < 255)%nat →
  bt_audio_open cmd len sep c = Some c' →
  trace c' = trace c ++ [audio_rsp_open id] →
  find_endpoint c' id = Some (Some (brk c)) ∧
  ∃ e, ep_mem c' !! brk c = Some e ∧ e_id e = id ∧
       e_codec e = cmd_codec cmd ∧ e_sep e = sep.
Proof.
  intros Hrun Hlive Hlen H Ht.
  destruct (run_endpoints_inv es _ _ endpoints_inv_init Hrun)
    as [H1 _ H3 _ _].
  unfold bt_audio_open, register_endpoint in H.
  destruct (cmd_presets cmd =? 0).
  { injection H as <-. cbn in Ht. by apply app_inj_tail in Ht as [_ ?]. }
  destruct (parse_presets _ _ _) as [presets|]; [|done]. cbn in H.
  destruct presets as [|caps presets].
  { injection H as <-. cbn in Ht. by apply app_inj_tail in Ht as [_ ?]. }
  cbn in H.
  destruct (Z.eqb_spec (to_uint8 (Z.of_nat (length (endpoints c)) + 1)) 0)
    as [Ez|Ez].
  { rewrite to_uint8_small in Ez by lia. lia. }
  injection H as <-. cbn in Ht. apply app_inj_tail in Ht as [_ [= <-]].
  split.
  - unfold find_endpoint, ep_structs.
    cbn [ep_mem ep_released endpoints emit bump_brk set_endpoints set_ep_mem].
    rewrite find_endpoint_in_skip.
    + cbn [find_endpoint_in].
      rewrite (lookup_union_Some_l _ _ _ _ (lookup_insert_eq _ _ _)).
      cbn. by rewrite decide_True.
    + apply Forall_lookup. intros i q Hq.
      rewrite Forall_lookup in Hlive. destruct (Hlive i q Hq) as [e He].
      assert (q ≠ brk c).
      { intros ->. apply list_elem_of_lookup_2, H3 in Hq. lia. }
      exists e. split.
      { apply lookup_union_Some_l. by rewrite lookup_insert_ne. }
      rewrite (H1 _ _ _ Hq (ep_structs_live _ _ _ He)).
      apply lookup_lt_Some in Hq.
      fold (endpoint_id_at (length (endpoints c))).
      intros Heq. apply endpoint_id_at_inj in Heq; lia.
  - eexists. cbn. rewrite lookup_insert_eq. done.
Qed.

Lemma bt_audio_open_then_find_witness :
  ∃ c c',
    run [sample_open] coordinator_init = Some c ∧
    bt_audio_open sample_cmd_open 28 (Some 101%nat) c = Some c' ∧
    trace c' = trace c ++ [audio_rsp_open 2] ∧
    find_endpoint c' 2 = Some (Some (brk c)).
Proof.
  eexists _, _. split; [vm_compute; reflexivity|].
  split; [vm_compute; reflexivity|].
  split; [reflexivity|].
  match goal with
  | |- find_endpoint ?c' _ = Some (Some (brk ?c)) =>
      apply (bt_audio_open_then_find [sample_open] c sample_cmd_open 28
               (Some 101%nat) c' 2)
  end.
  - vm_compute. reflexivity.
  - repeat constructor. eexists. reflexivity.
  - cbn. lia.
  - vm_compute. reflexivity.
  - reflexivity.
Defined.

(** ** The life of a setup *)

Lemma find_setup_from_app_none m l1 l2 id :
  ∀ k, find_setup_from k m l1 id = Some None →
       find_setup_from k m (l1 ++ l2) id
       = find_setup_from (k + length l1) m l2 id.
Proof.
  induction l1 as [|s l1 IH]; intros k; cbn.
  - intros _. by rewrite Nat.add_0_r.
  - destruct (m !! s_endpoint s) as [e|]; cbn; [|done].
    destruct (decide (e_id e = id)); [done|].
    intros H. rewrite IH by done. f_equal. lia.
Qed.

(** What an accepting [sep_setconf_ind] leaves behind. *)
Lemma sep_setconf_ind_accepted session stream caps ep c c' :
  sep_setconf_ind session stream caps ep c = Some (true, c') →
  ∃ dev preset,
    c' = emit (set_configuration_cb session stream None)
           (setup_add dev ep preset stream c).
Proof.
  unfold sep_setconf_ind. intros H.
  destruct (find_device_by_session c session) as [[dev|]|]; cbn in H;
    [|done|done].
  destruct (setconf_caps _ _ _ _) as [[|[preset|]]|]; cbn in H; try done.
  injection H as <-. eauto.
Qed.

(** X10: the preset bound by an accepted configuration is the one the
    audio client gets: when the endpoint had no setup before, an
    OPEN_STREAM for its id after the acceptance answers with the length
    and the bytes of the preset of the new setup. *)
Theorem configured_preset_served session stream caps ep endpoint c c' :
  ep_mem c !! ep = Some endpoint →
  find_setup c (e_id endpoint) = Some None →
  sep_setconf_ind session stream caps ep c = Some (true, c') →
  ∃ s, last (setups c') = Some s ∧
       s_endpoint s = ep ∧ s_stream s = stream ∧
       bt_stream_open (e_id endpoint) c' =
         Some (emit (audio_rsp_open_stream
                       (to_uint8 (p_len (s_preset s)))
                       (p_data (s_preset s))) c').
Proof.
  intros He Hnone H.
  apply sep_setconf_ind_accepted in H as (dev & preset & ->).
  eexists. split; [cbn; apply last_snoc|]. split; [done|]. split; [done|].
  unfold bt_stream_open, find_setup. cbn.
  unfold find_setup in Hnone.
  rewrite (find_setup_from_app_none _ _ _ _ _ Hnone). cbn.
  change (ep_structs (emit _ (setup_add dev ep preset stream c)))
    with (ep_structs c).
  rewrite (ep_structs_live _ _ _ He). cbn. by rewrite decide_True.
Qed.

Lemma configured_preset_served_witness :
  ∃ c c',
    run scenario_connected_B coordinator_init = Some c ∧
    sep_setconf_ind (Some 50%nat) 9%nat caps_S2 1%nat c = Some (true, c') ∧
    bt_stream_open 1 c' =
      Some (emit (audio_rsp_open_stream 4 sbc_pref_blob) c').
Proof.
  eexists _, _. split; [vm_compute; reflexivity|].
  split; [vm_compute; reflexivity|].
  match goal with
  | |- bt_stream_open _ ?c' = _ =>
      destruct (configured_preset_served (Some 50%nat) 9%nat caps_S2 1%nat
                  sample_endpoint
                  (emit (ipc_send_notif addr_B HAL_A2DP_STATE_CONNECTED)
                     (set_dev_mem
                        {[ 2%nat := {| d_dst := addr_B;
                                       d_state := HAL_A2DP_STATE_CONNECTED;
                                       d_io := None;
                                       d_session := Some 50%nat |} ]}
                        (set_devices [2%nat]
                           (bump_brk
                              (emit (audio_rsp_open 1)
                                 (bump_brk
                                    (set_endpoints [1%nat]
                                       (set_ep_mem
                                          {[ 1%nat := sample_endpoint ]}
                                          coordinator_init))))))))
                  c')
        as (s & Hs & _ & _ & Hopen)
  end.
  - reflexivity.
  - reflexivity.
  - vm_compute. reflexivity.
  - vm_compute in Hs. injection Hs as <-. exact Hopen.
Defined.

(** X11: the indications follow the setup of the endpoint.  For an
    endpoint without a setup, open (and start and suspend) is refused
    with SEP_NOT_IN_USE; once a configuration has been accepted it is
    granted; a close indication then removes the setup again, which
    leaves the setup list as it was before the configuration, and open
    is refused once more. *)
Theorem setup_lifecycle session stream caps ep endpoint c c' :
  ep_mem c !! ep = Some endpoint →
  find_setup c (e_id endpoint) = Some None →
  sep_setconf_ind session stream caps ep c = Some (true, c') →
  sep_open_ind ep c = Some (false, Some AVDTP_SEP_NOT_IN_USE) ∧
  sep_open_ind ep c' = Some (true, None) ∧
  ∃ c'', sep_close_ind ep c' = Some (true, None, c'') ∧
         setups c'' = setups c ∧
         dev_mem c'' = dev_mem c ∧ ep_mem c'' = ep_mem c ∧
         sep_open_ind ep c'' = Some (false, Some AVDTP_SEP_NOT_IN_USE).
Proof.
  intros He Hnone H.
  apply sep_setconf_ind_accepted in H as (dev & preset & ->).
  set (s := {| s_dev := dev; s_endpoint := ep; s_preset := preset;
               s_stream := stream |}).
  set (c1 := emit _ _).
  pose proof (ep_structs_live _ _ _ He) as He'.
  assert (Hm : ep_mem c1 = ep_mem c) by reflexivity.
  assert (Hst : ep_structs c1 = ep_structs c) by reflexivity.
  assert (Hd : dev_mem c1 = dev_mem c) by reflexivity.
  assert (Hs : setups c1 = setups c ++ [s]) by reflexivity.
  assert (Hfound : find_setup c1 (e_id endpoint)
                   = Some (Some (length (setups c), s))).
  { unfold find_setup in *. rewrite Hst, Hs.
    rewrite (find_setup_from_app_none _ _ _ _ _ Hnone). cbn.
    rewrite He'. cbn. by rewrite decide_True. }
  assert (Hdel : delete (length (setups c)) (setups c ++ [s]) = setups c).
  { clear. induction (setups c) as [|x l IH]; [done|].
    cbn [length app]. change (delete (S (length l)) (x :: l ++ [s]))
      with (x :: delete (length l) (l ++ [s])). by f_equal. }
  clearbody c1.
  split_and!.
  - unfold sep_open_ind. rewrite He'. cbn. by rewrite Hnone.
  - unfold sep_open_ind. rewrite Hst, He'. cbn. by rewrite Hfound.
  - unfold sep_close_ind. rewrite Hst, He'. cbn [mbind option_bind].
    rewrite Hfound. cbn [mbind option_bind]. unfold setup_remove.
    cbn [s_endpoint s]. rewrite Hst, He'. cbn [mbind option_bind].
    eexists. split; [reflexivity|]. cbn [setups set_setups dev_mem ep_mem].
    rewrite Hs, Hdel. split_and!; [done|done|done|].
    unfold sep_open_ind, find_setup. cbn [setups set_setups].
    change (ep_structs (set_setups (setups c) c1)) with (ep_structs c1).
    rewrite Hst, He'. cbn [mbind option_bind].
    unfold find_setup in Hnone. by rewrite Hnone.
Qed.

Lemma setup_lifecycle_witness :
  ∃ c c' c'',
    run scenario_connected_B coordinator_init = Some c ∧
    find_setup c 1 = Some None ∧
    sep_setconf_ind (Some 50%nat) 9%nat caps_S2 1%nat c = Some (true, c') ∧
    sep_close_ind 1%nat c' = Some (true, None, c'') ∧
    setups c'' = setups c.
Proof.
  eexists _, _. 
  assert (Hgen : ∀ c c',
    ep_mem c !! 1%nat = Some sample_endpoint →
    find_setup c (e_id sample_endpoint) = Some None →
    sep_setconf_ind (Some 50%nat) 9%nat caps_S2 1%nat c = Some (true, c') →
    ∃ c'', sep_close_ind 1%nat c' = Some (true, None, c'') ∧
           setups c'' = setups c).
  { intros c c' H1 H2 H3.
    destruct (setup_lifecycle _ _ _ _ _ _ _ H1 H2 H3)
      as (_ & _ & c'' & Hc & Hs & _).
    exists c''. split; [exact Hc | exact Hs]. }
  match goal with
  | |- ∃ c'', run _ _ = Some ?c ∧ _ ∧ sep_setconf_ind _ _ _ _ _ = Some (true, ?c') ∧ _ =>
      let H := fresh in
      assert (run scenario_connected_B coordinator_init = Some c) as H
        by (vm_compute; reflexivity);
      let H' := fresh in
      assert (sep_setconf_ind (Some 50%nat) 9%nat caps_S2 1%nat c
              = Some (true, c')) as H' by (vm_compute; reflexivity);
      destruct (Hgen c c' eq_refl eq_refl H') as (c'' & Hc & Hs);
      exists c''; split; [exact H|]; split; [reflexivity|];
      split; [exact H'|]; split; [exact Hc | exact Hs]
  end.
Defined.

(** ** The device table *)

Lemma g_slist_remove_elem l p q :
  NoDup l → q ∈ g_slist_remove l p ↔ q ∈ l ∧ q ≠ p.
Proof.
  induction l as [|x l IH]; intros Hnd; cbn.
  - split; [intros H; by apply elem_of_nil in H | intros [H _]; done].
  - apply NoDup_cons in Hnd as [Hx Hnd].
    destruct (decide (x = p)) as [-> | Hne].
    + rewrite elem_of_cons. split.
      * intros Hq. split; [by right|]. intros ->. done.
      * intros [[-> | Hq] Hqp]; done.
    + rewrite !elem_of_cons, IH by done. split.
      * intros [-> | [Hq Hqp]]; [split; [by left | done] | split; [by right | done]].
      * intros [[-> | Hq] Hqp]; [by left | by right].
Qed.

Lemma g_slist_remove_nodup l p : NoDup l → NoDup (g_slist_remove l p).
Proof.
  induction l as [|x l IH]; intros Hnd; cbn; [done|].
  apply NoDup_cons in Hnd as [Hx Hnd].
  destruct (decide (x = p)); [done|].
  apply NoDup_cons. split; [|auto].
  rewrite g_slist_remove_elem by done. tauto.
Qed.

Lemma find_device_none m l dst :
  find_device m l dst = Some None →
  ∀ p d, p ∈ l → m !! p = Some d → d_dst d ≠ dst.
Proof.
  induction l as [|q l IH]; cbn; intros H p d Hin Hp.
  - by apply elem_of_nil in Hin.
  - destruct (m !! q) as [dq|] eqn:Hq; cbn in H; [|done].
    destruct (decide (d_dst dq = dst)); [done|].
    apply elem_of_cons in Hin as [-> | Hin]; [congruence | eauto].
Qed.

Lemma devs_inv_init : devs_inv coordinator_init.
Proof.
  split; cbn.
  - intros p. split; [intros H; by apply elem_of_nil in H | intros [? ?]; done].
  - constructor.
  - intros p H. by apply elem_of_nil in H.
  - intros p q dp dq H. done.
Qed.

Lemma devs_inv_frame c c' :
  devs_inv c → dev_mem c' = dev_mem c → devices c' = devices c →
  (brk c ≤ brk c')%nat → devs_inv c'.
Proof.
  intros [H1 H2 H3 H4] Hm Hl Hb. split; rewrite ?Hm, ?Hl; try done.
  intros p Hp. apply H3 in Hp. lia.
Qed.

Lemma devs_inv_update c c' p d d' :
  devs_inv c → dev_mem c !! p = Some d → d_dst d' = d_dst d →
  dev_mem c' = <[p := d']> (dev_mem c) → devices c' = devices c →
  brk c' = brk c → devs_inv c'.
Proof.
  intros [H1 H2 H3 H4] Hp Hdst Hm Hl Hb.
  split; rewrite ?Hm, ?Hl, ?Hb; try done.
  - intros q. rewrite H1. destruct (decide (q = p)) as [-> | Hne].
    + rewrite lookup_insert_eq, Hp. split; eauto.
    + by rewrite lookup_insert_ne.
  - intros q1 q2 d1 d2 Hq1 Hq2 Heq.
    destruct (decide (q1 = p)) as [-> | Hn1];
      destruct (decide (q2 = p)) as [-> | Hn2]; [done | | |].
    + rewrite lookup_insert_eq in Hq1. injection Hq1 as <-.
      rewrite lookup_insert_ne in Hq2 by done.
      eapply H4; [exact Hp | exact Hq2 | congruence].
    + rewrite lookup_insert_eq in Hq2. injection Hq2 as <-.
      rewrite lookup_insert_ne in Hq1 by done.
      eapply H4; [exact Hq1 | exact Hp | congruence].
    + rewrite lookup_insert_ne in Hq1, Hq2 by done. eauto.
Qed.

Lemma devs_inv_free c c' p :
  devs_inv c → dev_mem c' = delete p (dev_mem c) →
  devices c' = g_slist_remove (devices c) p →
  brk c' = brk c → devs_inv c'.
Proof.
  intros [H1 H2 H3 H4] Hm Hl Hb.
  split; rewrite ?Hm, ?Hl, ?Hb.
  - intros q. rewrite g_slist_remove_elem, H1 by done.
    destruct (decide (q = p)) as [-> | Hne].
    + rewrite lookup_delete_eq. split; [tauto | intros [? ?]; done].
    + rewrite lookup_delete_ne by done. tauto.
  - by apply g_slist_remove_nodup.
  - intros q Hq. apply g_slist_remove_elem in Hq as [Hq _]; auto.
  - intros q1 q2 d1 d2 Hq1 Hq2.
    apply lookup_delete_Some in Hq1 as [_ Hq1].
    apply lookup_delete_Some in Hq2 as [_ Hq2]. eauto.
Qed.

Lemma devs_inv_new c c' d :
  devs_inv c →
  find_device (dev_mem c) (devices c) (d_dst d) = Some None →
  dev_mem c' = <[brk c := d]> (dev_mem c) →
  devices c' = brk c :: devices c →
  brk c' = S (brk c) → devs_inv c'.
Proof.
  intros [H1 H2 H3 H4] Hf Hm Hl Hb.
  assert (Hfresh : brk c ∉ devices c).
  { intros Hin. apply H3 in Hin. lia. }
  assert (Hnew : ∀ q dq, dev_mem c !! q = Some dq → d_dst dq ≠ d_dst d).
  { intros q dq Hq. eapply find_device_none; [exact Hf | | exact Hq].
    apply H1. eauto. }
  split; rewrite ?Hm, ?Hl, ?Hb.
  - intros q. rewrite elem_of_cons, H1.
    destruct (decide (q = brk c)) as [-> | Hne].
    + rewrite lookup_insert_eq. split; eauto.
    + rewrite lookup_insert_ne by done. split; [intros [?|?]; done | auto].
  - by apply NoDup_cons.
  - intros q Hq. apply elem_of_cons in Hq as [-> | Hq]; [lia|].
    apply H3 in Hq. lia.
  - intros q1 q2 d1 d2 Hq1 Hq2 Heq.
    destruct (decide (q1 = brk c)) as [-> | Hn1];
      destruct (decide (q2 = brk c)) as [-> | Hn2]; [done | | |].
    + rewrite lookup_insert_eq in Hq1. injection Hq1 as <-.
      rewrite lookup_insert_ne in Hq2 by done.
      destruct (Hnew _ _ Hq2). done.
    + rewrite lookup_insert_eq in Hq2. injection Hq2 as <-.
      rewrite lookup_insert_ne in Hq1 by done.
      destruct (Hnew _ _ Hq1). done.
    + rewrite lookup_insert_ne in Hq1, Hq2 by done. eauto.
Qed.

Lemma devs_inv_emit o c : devs_inv c → devs_inv (emit o c).
Proof. intros H. by eapply devs_inv_frame. Qed.

Lemma devs_inv_set c p d d' :
  devs_inv c → dev_mem c !! p = Some d → d_dst d' = d_dst d →
  devs_inv (set_dev_mem (<[p := d']> (dev_mem c)) c).
Proof. intros H Hp Hd. by eapply devs_inv_update. Qed.

Lemma a2dp_device_free_devs_inv p c c' :
  devs_inv c → a2dp_device_free p c = Some c' → devs_inv c'.
Proof.
  intros Hinv H.
  destruct (dev_mem c !! p) as [d|] eqn:Hp;
    [|unfold a2dp_device_free in H; by rewrite Hp in H].
  destruct (a2dp_device_free_spec p d c Hp)
    as (c0 & H0 & Hm & Hl & _ & _ & _ & Hb & _).
  rewrite H0 in H. injection H as <-. by eapply devs_inv_free.
Qed.

Lemma bt_a2dp_notify_state_devs_inv p s c c' :
  devs_inv c → bt_a2dp_notify_state p s c = Some c' → devs_inv c'.
Proof.
  intros Hinv H. unfold bt_a2dp_notify_state in H.
  destruct (dev_mem c !! p) as [d|] eqn:Hp; [|done]. cbn in H.
  destruct (decide (d_state d = s)); [by injection H as <-|].
  assert (Hinv2 : devs_inv
    (emit (ipc_send_notif (d_dst d) s)
       (set_dev_mem (<[p := set_d_state s d]> (dev_mem c)) c))).
  { apply devs_inv_emit. by eapply devs_inv_set. }
  destruct (decide (s ≠ HAL_A2DP_STATE_DISCONNECTED));
    [by injection H as <-|].
  by eapply a2dp_device_free_devs_inv.
Qed.

Lemma signaling_connect_cb_devs_inv err p env c c' :
  devs_inv c → signaling_connect_cb err p env c = Some c' → devs_inv c'.
Proof.
  intros Hinv H. unfold signaling_connect_cb in H.
  destruct err; [by eapply bt_a2dp_notify_state_devs_inv|].
  destruct (sg_get_ok env); cbn [negb] in H;
    [|by eapply bt_a2dp_notify_state_devs_inv].
  destruct (dev_mem c !! p) as [d|] eqn:Hp; [|done]. cbn in H.
  set (d1 := set_d_session (sg_avdtp_new env) d) in *.
  set (c1 := set_dev_mem (<[p := d1]> (dev_mem c)) c) in *.
  assert (Hinv1 : devs_inv c1) by (by eapply devs_inv_set).
  assert (Hp1 : dev_mem c1 !! p = Some d1) by apply lookup_insert_eq.
  destruct (sg_avdtp_new env) as [s|];
    [|by eapply bt_a2dp_notify_state_devs_inv].
  assert (Hinv2 : ∀ io, devs_inv
      (emit (g_io_channel_unref io)
         (set_dev_mem (<[p := set_d_io None d1]> (dev_mem c1)) c1)))
    by (intros io; apply devs_inv_emit; by eapply devs_inv_set).
  repeat case_match;
    (eapply bt_a2dp_notify_state_devs_inv; [|exact H]);
    first [exact Hinv1 | apply Hinv2].
Qed.

Lemma transport_connect_cb_devs_inv err p env c c' :
  devs_inv c → transport_connect_cb err p env c = Some c' → devs_inv c'.
Proof.
  intros Hinv H. unfold transport_connect_cb in H. crack; try done.
  all: repeat first
    [ exact Hinv
    | apply devs_inv_emit
    | eapply (devs_inv_set (emit _ c));
        [ | cbn; eassumption | reflexivity ] ].
Qed.

Lemma bt_a2dp_connect_devs_inv dst r c c' :
  devs_inv c → bt_a2dp_connect dst r c = Some c' → devs_inv c'.
Proof.
  intros Hinv H.
  unfold bt_a2dp_connect, a2dp_device_new, a2dp_device_connect in H.
  destruct (find_device _ _ _) as [[q|]|] eqn:Hf; cbn in H; [| |done].
  { injection H as <-. by apply devs_inv_emit. }
  rewrite lookup_insert_eq in H. cbn in H.
  set (d0 := {| d_dst := dst; d_state := 0; d_io := None;
                d_session := None |}) in *.
  set (c1 := bump_brk (set_devices (brk c :: devices c)
                 (set_dev_mem (<[brk c := d0]> (dev_mem c)) c))) in *.
  assert (Hinv1 : devs_inv c1) by (by eapply (devs_inv_new c c1 d0)).
  set (c2 := set_dev_mem _ c1) in H.
  assert (Hinv2 : devs_inv c2).
  { subst c2.
    apply (devs_inv_set c1 (brk c) d0 (set_d_io (io_chan r) d0));
      [done | apply lookup_insert_eq | done]. }
  clearbody c2.
  destruct (io_err r); cbn [negb] in H.
  - destruct (a2dp_device_free _ _) as [c3|] eqn:Hfree; [|done].
    injection H as <-. apply devs_inv_emit.
    by eapply a2dp_device_free_devs_inv.
  - destruct (bt_a2dp_notify_state _ _ _) as [c3|] eqn:Hn; [|done].
    injection H as <-. apply devs_inv_emit.
    by eapply bt_a2dp_notify_state_devs_inv.
Qed.

Lemma bt_a2dp_disconnect_devs_inv dst c c' :
  devs_inv c → bt_a2dp_disconnect dst c = Some c' → devs_inv c'.
Proof.
  intros Hinv H. unfold bt_a2dp_disconnect in H.
  destruct (find_device _ _ _) as [[p|]|]; cbn in H;
    [|injection H as <-; by apply devs_inv_emit|done].
  destruct (dev_mem c !! p) as [dev|]; [|done]. cbn in H.
  destruct (d_io dev);
    destruct (bt_a2dp_notify_state _ _ _) as [c1|] eqn:Hn; try done;
    injection H as <-; apply devs_inv_emit;
    (eapply bt_a2dp_notify_state_devs_inv; [|exact Hn]);
    first [done | by apply devs_inv_emit].
Qed.

Lemma connect_cb_devs_inv err env c c' :
  devs_inv c → connect_cb err env c = Some c' → devs_inv c'.
Proof.
  intros Hinv H. unfold connect_cb, a2dp_device_new in H.
  destruct err; [by injection H as <-|].
  destruct (cn_get_ok env); cbn [negb] in H;
    [|injection H as <-; by apply devs_inv_emit].
  destruct (find_device _ _ _) as [[p|]|] eqn:Hf;
    cbn [mbind option_bind] in H; [| |done].
  - by eapply transport_connect_cb_devs_inv.
  - eapply signaling_connect_cb_devs_inv; [|exact H].
    by eapply (devs_inv_new c _ {| d_dst := cn_dst env; d_state := 0;
                                   d_io := None; d_session := None |}).
Qed.

Lemma sep_open_cfm_devs_inv session err r ep c c' :
  devs_inv c → sep_open_cfm session err r ep c = Some c' → devs_inv c'.
Proof.
  intros Hinv H.
  unfold sep_open_cfm, setup_remove_by_id, setup_remove in H.
  destruct err.
  { crack; first [done | by eapply devs_inv_frame]. }
  destruct (find_device_by_session c session) as [[p|]|]; cbn in H;
    [| crack; first [done | by eapply devs_inv_frame] | done].
  unfold a2dp_device_connect in H.
  destruct (dev_mem c !! p) as [d|] eqn:Hd; [|done]. cbn in H.
  injection H as <-. by eapply devs_inv_set.
Qed.

Lemma step_devs_inv e c c' :
  devs_inv c → step e c = Some c' → devs_inv c'.
Proof.
  intros Hinv H. destruct e; cbn [step] in H.
  - by eapply bt_a2dp_connect_devs_inv.
  - by eapply bt_a2dp_disconnect_devs_inv.
  - by eapply signaling_connect_cb_devs_inv.
  - by eapply transport_connect_cb_devs_inv.
  - by eapply connect_cb_devs_inv.
  - by eapply bt_a2dp_notify_state_devs_inv.
  - unfold_handlers H; crack; eapply devs_inv_frame; done.
  - unfold_handlers H; crack; eapply devs_inv_frame; done.
  - unfold_handlers H; crack; eapply devs_inv_frame; done.
  - unfold_handlers H; crack; eapply devs_inv_frame; done.
  - by eapply sep_open_cfm_devs_inv.
  - unfold_handlers H; crack; eapply devs_inv_frame; done.
  - unfold_handlers H; crack; eapply devs_inv_frame; done.
  - unfold_handlers H; crack; eapply devs_inv_frame; done.
  - unfold_handlers H; crack; eapply devs_inv_frame; done.
  - unfold bt_audio_open, register_endpoint, release_presets in H;
      crack; eapply devs_inv_frame; cbn; first [done | lia].
  - unfold bt_audio_close, unregister_endpoint in H;
      crack; eapply devs_inv_frame; done.
  - unfold_handlers H; crack; eapply devs_inv_frame; done.
  - unfold_handlers H; crack; eapply devs_inv_frame; done.
  - unfold_handlers H; crack; eapply devs_inv_frame; done.
  - unfold_handlers H; crack; eapply devs_inv_frame; done.
Qed.

Lemma run_devs_inv es :
  ∀ c c', devs_inv c → run es c = Some c' → devs_inv c'.
Proof.
  induction es as [|e es IH]; intros c c' Hinv H; cbn in H.
  - by injection H as <-.
  - destruct (step e c) as [c1|] eqn:Hs; [|done]. cbn in H.
    eapply IH; [|done]. by eapply step_devs_inv.
Qed.

Lemma find_device_defined m l dst :
  Forall (fun p => is_Some (m !! p)) l →
  ∃ r, find_device m l dst = Some r ∧
       match r with
       | Some p => ∃ d, m !! p = Some d ∧ d_dst d = dst
       | None => ∀ p d, p ∈ l → m !! p = Some d → d_dst d ≠ dst
       end.
Proof.
  intros H. induction H as [|q l [dq Hq] _ (r & IH & Hr)]; cbn.
  - exists None. split; [done|]. intros p d Hin. by apply elem_of_nil in Hin.
  - rewrite Hq. cbn. destruct (decide (d_dst dq = dst)) as [Hd|Hd].
    + exists (Some q). eauto.
    + exists r. split; [done|]. destruct r as [p|]; [done|].
      intros p d Hin Hp. apply elem_of_cons in Hin as [-> | Hin];
        [congruence | eauto].
Qed.

Lemma devs_inv_readable c :
  devs_inv c → Forall (fun p => is_Some (dev_mem c !! p)) (devices c).
Proof. intros [H1 _ _ _]. apply Forall_forall. intros p. apply H1. Qed.

(** X12: the device table never holds a released record and never
    loses a live one: in every state the coordinator reaches, the
    addresses in [devices] are exactly the allocated device records,
    and none is listed twice. *)
Theorem device_table_consistent es c :
  run es coordinator_init = Some c →
  (∀ p, p ∈ devices c ↔ is_Some (dev_mem c !! p)) ∧ NoDup (devices c).
Proof.
  intros Hrun.
  destruct (run_devs_inv es _ _ devs_inv_init Hrun) as [H1 H2 _ _]. done.
Qed.

Lemma device_table_consistent_witness :
  ∃ c, run (scenario_S2 ++ [ev_disconnect_cb 2%nat;
                            incoming addr_A (signaling_up 51)])
         coordinator_init = Some c ∧
       devices c = [3%nat] ∧
       (3%nat ∈ devices c ↔ is_Some (dev_mem c !! 3%nat)).
Proof.
  eexists. split; [vm_compute; reflexivity|]. split; [reflexivity|].
  match goal with
  | |- _ ∈ devices ?c ↔ _ =>
      apply (device_table_consistent
               (scenario_S2 ++ [ev_disconnect_cb 2%nat;
                                incoming addr_A (signaling_up 51)]) c)
  end.
  vm_compute. reflexivity.
Defined.

(** X13: one record per peer: in every state the coordinator reaches,
    two device records with the same address are the same record, and
    the lookup by address used by the HAL commands and by incoming
    connections finds exactly that record. *)
Theorem one_device_per_address es c :
  run es coordinator_init = Some c →
  (∀ p q dp dq, dev_mem c !! p = Some dp → dev_mem c !! q = Some dq →
                d_dst dp = d_dst dq → p = q) ∧
  (∀ p d, dev_mem c !! p = Some d →
          find_device (dev_mem c) (devices c) (d_dst d) = Some (Some p)).
Proof.
  intros Hrun.
  pose proof (run_devs_inv es _ _ devs_inv_init Hrun) as Hinv.
  split; [apply (di_addr c Hinv)|].
  intros p d Hp.
  destruct (find_device_defined _ _ (d_dst d) (devs_inv_readable c Hinv))
    as (r & Hr & Hcase).
  rewrite Hr. destruct r as [q|].
  - destruct Hcase as (dq & Hq & Hdst).
    by rewrite (di_addr c Hinv _ _ _ _ Hq Hp Hdst).
  - destruct (Hcase p d); [apply (di_listed c Hinv); eauto | done | done].
Qed.

Lemma one_device_per_address_witness :
  ∃ c, run [incoming addr_A (signaling_up 50);
            incoming addr_B (signaling_up 51);
            incoming addr_A (signaling_up 52)]
         coordinator_init = Some c ∧
       devices c = [2%nat; 1%nat] ∧
       find_device (dev_mem c) (devices c) addr_A = Some (Some 1%nat).
Proof.
  eexists. split; [vm_compute; reflexivity|]. split; [reflexivity|].
  match goal with
  | |- find_device (dev_mem ?c) _ _ = _ =>
      destruct (one_device_per_address
                  [incoming addr_A (signaling_up 50);
                   incoming addr_B (signaling_up 51);
                   incoming addr_A (signaling_up 52)] c) as [_ Hfind];
        [vm_compute; reflexivity|];
      apply (Hfind 1%nat {| d_dst := addr_A;
                            d_state := HAL_A2DP_STATE_CONNECTED;
                            d_io := None; d_session := Some 50%nat |})
  end.
  reflexivity.
Defined.

Lemma bt_a2dp_notify_state_defined p s c :
  is_Some (dev_mem c !! p) → is_Some (bt_a2dp_notify_state p s c).
Proof.
  intros [d Hp]. unfold bt_a2dp_notify_state. rewrite Hp. cbn.
  destruct (decide (d_state d = s)); [done|].
  destruct (decide (s ≠ HAL_A2DP_STATE_DISCONNECTED)); [done|].
  unfold a2dp_device_free. cbn. rewrite lookup_insert_eq. done.
Qed.

Lemma signaling_connect_cb_defined err p env c :
  is_Some (dev_mem c !! p) → is_Some (signaling_connect_cb err p env c).
Proof.
  intros Hl. unfold signaling_connect_cb.
  destruct err; [by apply bt_a2dp_notify_state_defined|].
  destruct (sg_get_ok env); cbn [negb];
    [|by apply bt_a2dp_notify_state_defined].
  destruct Hl as [d Hp]. rewrite Hp. cbn.
  repeat case_match; apply bt_a2dp_notify_state_defined; cbn;
    rewrite ?lookup_insert_eq; done.
Qed.

Lemma transport_connect_cb_defined err p env c :
  is_Some (dev_mem c !! p) → is_Some (transport_connect_cb err p env c).
Proof.
  intros [d Hp]. unfold transport_connect_cb.
  repeat case_match; try done. cbn. rewrite Hp. cbn.
  by destruct (d_io d).
Qed.

Lemma is_Some_bind_emit (x : option coordinator) o :
  is_Some x → is_Some (x ≫= λ c, Some (emit o c)).
Proof. by intros [c ->]. Qed.

(** X14: the HAL commands and the callback for incoming connections
    never read a released device: in every state the coordinator
    reaches, A2DP_CONNECT, A2DP_DISCONNECT and [connect_cb] have a
    defined outcome for every address and every answer of the
    collaborators. *)
Theorem device_handlers_defined es c :
  run es coordinator_init = Some c →
  ∀ dst,
    (∀ r, is_Some (bt_a2dp_connect dst r c)) ∧
    is_Some (bt_a2dp_disconnect dst c) ∧
    (∀ err env, is_Some (connect_cb err env c)).
Proof.
  intros Hrun dst.
  pose proof (run_devs_inv es _ _ devs_inv_init Hrun) as Hinv.
  pose proof (devs_inv_readable c Hinv) as Hread.
  split_and!.
  - intros r. unfold bt_a2dp_connect, a2dp_device_new, a2dp_device_connect.
    destruct (find_device_defined _ _ dst Hread) as (f & -> & _). cbn.
    destruct f; [done|]. rewrite lookup_insert_eq. cbn.
    destruct (io_err r); cbn [negb].
    + apply is_Some_bind_emit. unfold a2dp_device_free. cbn.
      rewrite lookup_insert_eq. done.
    + apply is_Some_bind_emit, bt_a2dp_notify_state_defined. cbn.
      rewrite lookup_insert_eq. done.
  - unfold bt_a2dp_disconnect.
    destruct (find_device_defined _ _ dst Hread) as (f & -> & Hf). cbn.
    destruct f as [p|]; [|done]. destruct Hf as (d & Hp & _).
    rewrite Hp. cbn.
    destruct (d_io d);
      apply is_Some_bind_emit, bt_a2dp_notify_state_defined; cbn; eauto.
  - intros err env. unfold connect_cb, a2dp_device_new.
    destruct err; [done|]. destruct (cn_get_ok env); cbn [negb]; [|done].
    destruct (find_device_defined _ _ (cn_dst env) Hread) as (f & -> & Hf).
    cbn [mbind option_bind]. destruct f as [p|].
    + destruct Hf as (d & Hp & _). apply transport_connect_cb_defined. eauto.
    + apply signaling_connect_cb_defined. cbn. rewrite lookup_insert_eq. done.
Qed.

Lemma device_handlers_defined_witness :
  ∃ c, run scenario_S2 coordinator_init = Some c ∧
       is_Some (bt_a2dp_disconnect addr_B c) ∧
       is_Some (bt_a2dp_disconnect addr_A c).
Proof.
  eexists. split; [vm_compute; reflexivity|].
  match goal with
  | |- is_Some (bt_a2dp_disconnect _ ?c) ∧ _ =>
      pose proof (device_handlers_defined scenario_S2 c) as H
  end.
  split.
  - apply (H ltac:(vm_compute; reflexivity) addr_B).
  - apply (H ltac:(vm_compute; reflexivity) addr_A).
Defined.

(** ** State and session *)

Lemma sess_inv_insert m p dev :
  sess_inv (delete p m) → session_ok dev → sess_inv (<[p := dev]> m).
Proof.
  intros Hm Hd. unfold sess_inv. rewrite <- insert_delete_eq.
  apply map_Forall_insert_2; done.
Qed.

Lemma sess_inv_delete m p : sess_inv m → sess_inv (delete p m).
Proof. apply map_Forall_delete. Qed.

Lemma bt_a2dp_notify_state_sess_inv p s c c' :
  bt_a2dp_notify_state p s c = Some c' →
  sess_inv (delete p (dev_mem c)) →
  (∀ d, dev_mem c !! p = Some d →
        (d_state d = s → session_ok d) ∧
        (d_state d ≠ s → s ≠ HAL_A2DP_STATE_DISCONNECTED →
         session_ok (set_d_state s d))) →
  sess_inv (dev_mem c').
Proof.
  unfold bt_a2dp_notify_state. intros H Hm Hd.
  destruct (dev_mem c !! p) as [dev|] eqn:Hp; [|done]. cbn in H.
  destruct (Hd dev eq_refl) as [Hsame Hchg].
  destruct (decide (d_state dev = s)) as [Hs|Hs].
  - injection H as <-. rewrite <- (insert_id _ _ _ Hp).
    apply sess_inv_insert; auto.
  - destruct (decide (s ≠ HAL_A2DP_STATE_DISCONNECTED)) as [Hz|Hz].
    + injection H as <-. cbn. apply sess_inv_insert; auto.
    + apply a2dp_device_free_dev_mem in H. rewrite H. cbn.
      by rewrite delete_insert_eq.
Qed.

Lemma session_ok_state s d :
  s ≠ HAL_A2DP_STATE_CONNECTED → s ≠ HAL_A2DP_STATE_CONNECTING →
  session_ok (set_d_state s d).
Proof. intros H1 H2. split; cbn; intros; done. Qed.

Lemma notify_disconnected_sess_inv p c c' :
  sess_inv (dev_mem c) →
  bt_a2dp_notify_state p HAL_A2DP_STATE_DISCONNECTED c = Some c' →
  sess_inv (dev_mem c').
Proof.
  intros Hinv H. eapply bt_a2dp_notify_state_sess_inv; [exact H | |].
  - by apply sess_inv_delete.
  - intros d Hp. split; [intros _; exact (Hinv p d Hp) | done].
Qed.

Lemma signaling_connect_cb_sess_inv err p env c c' :
  sess_inv (dev_mem c) →
  signaling_connect_cb err p env c = Some c' →
  sess_inv (dev_mem c').
Proof.
  intros Hinv H. unfold signaling_connect_cb in H.
  destruct err; [by eapply notify_disconnected_sess_inv|].
  destruct (sg_get_ok env); cbn [negb] in H;
    [|by eapply notify_disconnected_sess_inv].
  destruct (dev_mem c !! p) as [dev|] eqn:Hp; [|done]. cbn in H.
  destruct (sg_avdtp_new env) as [s|] eqn:Hs.
  - cbn [d_io d_state set_d_session] in H.
    repeat case_match;
      (eapply bt_a2dp_notify_state_sess_inv;
       [exact H
       | cbn; rewrite ?delete_insert_eq; by apply sess_inv_delete |]);
      intros d' Hp'; cbn in Hp'; rewrite ?lookup_insert_eq in Hp';
      injection Hp' as <-; cbn;
      unfold session_ok, HAL_A2DP_STATE_CONNECTED,
        HAL_A2DP_STATE_CONNECTING, HAL_A2DP_STATE_DISCONNECTED in *; cbn;
      (split; [intros Hst | intros Hst Hne]; split; intros; congruence).
  - eapply bt_a2dp_notify_state_sess_inv; [exact H | |].
    + cbn. rewrite delete_insert_eq. by apply sess_inv_delete.
    + intros d' Hp'. cbn in Hp'. rewrite lookup_insert_eq in Hp'.
      injection Hp' as <-. split; [|done]. cbn. intros Hst.
      unfold session_ok, HAL_A2DP_STATE_CONNECTED,
        HAL_A2DP_STATE_CONNECTING, HAL_A2DP_STATE_DISCONNECTED in *; cbn.
      split; intros; congruence.
Qed.

Lemma sess_inv_set_io m p d io :
  sess_inv m → m !! p = Some d → sess_inv (<[p := set_d_io io d]> m).
Proof.
  intros Hinv Hp. apply sess_inv_insert; [by apply sess_inv_delete|].
  exact (Hinv p d Hp).
Qed.

Lemma transport_connect_cb_sess_inv err p env c c' :
  sess_inv (dev_mem c) →
  transport_connect_cb err p env c = Some c' →
  sess_inv (dev_mem c').
Proof.
  intros Hinv H. unfold transport_connect_cb in H. crack; try done.
  cbn. by apply sess_inv_set_io.
Qed.

Lemma bt_a2dp_connect_sess_inv dst r c c' :
  sess_inv (dev_mem c) →
  bt_a2dp_connect dst r c = Some c' →
  sess_inv (dev_mem c').
Proof.
  intros Hinv H. unfold bt_a2dp_connect, a2dp_device_new,
    a2dp_device_connect in H.
  destruct (find_device _ _ _) as [[q|]|]; cbn in H;
    [by injection H as <- | |done].
  rewrite lookup_insert_eq in H. cbn in H.
  destruct (io_err r); cbn [negb] in H.
  - destruct (a2dp_device_free _ _) as [c3|] eqn:Hfree; [|done].
    injection H as <-. apply a2dp_device_free_dev_mem in Hfree.
    cbn in *. rewrite Hfree, !delete_insert_eq. by apply sess_inv_delete.
  - destruct (bt_a2dp_notify_state _ _ _) as [c3|] eqn:Hn; [|done].
    injection H as <-. cbn.
    eapply bt_a2dp_notify_state_sess_inv; [exact Hn | |].
    + cbn. rewrite !delete_insert_eq. by apply sess_inv_delete.
    + intros d Hd. cbn in Hd. rewrite lookup_insert_eq in Hd.
      injection Hd as <-. cbn. split; [done|]. intros _ _. split; done.
Qed.

Lemma bt_a2dp_disconnect_sess_inv dst c c' :
  sess_inv (dev_mem c) →
  bt_a2dp_disconnect dst c = Some c' →
  sess_inv (dev_mem c').
Proof.
  intros Hinv H. unfold bt_a2dp_disconnect in H.
  destruct (find_device _ _ _) as [[p|]|]; cbn in H;
    [|by injection H as <-|done].
  destruct (dev_mem c !! p) as [dev|]; [|done]. cbn in H.
  destruct (d_io dev).
  - destruct (bt_a2dp_notify_state _ _ _) as [c1|] eqn:Hn; [|done].
    injection H as <-. cbn. by eapply notify_disconnected_sess_inv.
  - destruct (bt_a2dp_notify_state _ _ _) as [c1|] eqn:Hn; [|done].
    injection H as <-. cbn.
    eapply bt_a2dp_notify_state_sess_inv; [exact Hn | |].
    + cbn. by apply sess_inv_delete.
    + intros d Hd. cbn in Hd. split; [intros _; exact (Hinv p d Hd)|].
      intros _ _. by apply session_ok_state.
Qed.

Lemma connect_cb_sess_inv err env c c' :
  sess_inv (dev_mem c) →
  connect_cb err env c = Some c' →
  sess_inv (dev_mem c').
Proof.
  intros Hinv H. unfold connect_cb, a2dp_device_new in H.
  destruct err; [by injection H as <-|].
  destruct (cn_get_ok env); cbn [negb] in H; [|by injection H as <-].
  destruct (find_device _ _ _) as [[p|]|]; cbn [mbind option_bind] in H;
    [| |done].
  - by eapply transport_connect_cb_sess_inv.
  - eapply signaling_connect_cb_sess_inv; [|exact H]. cbn.
    apply sess_inv_insert; [by apply sess_inv_delete|]. split; done.
Qed.

Lemma sep_open_cfm_sess_inv session err r ep c c' :
  sess_inv (dev_mem c) →
  sep_open_cfm session err r ep c = Some c' →
  sess_inv (dev_mem c').
Proof.
  intros Hinv H.
  unfold sep_open_cfm, setup_remove_by_id, setup_remove in H.
  destruct err; [crack; done|].
  destruct (find_device_by_session c session) as [[p|]|] eqn:Hf;
    cbn in H; [| crack; done | done].
  unfold a2dp_device_connect in H.
  destruct (dev_mem c !! p) as [d|] eqn:Hd; [|done]. cbn in H.
  injection H as <-. cbn. by apply sess_inv_set_io.
Qed.

Lemma step_sess_inv e c c' :
  sess_inv (dev_mem c) → step e c = Some c' → sess_inv (dev_mem c').
Proof.
  intros Hinv H. destruct e; cbn [step] in H.
  - by eapply bt_a2dp_connect_sess_inv.
  - by eapply bt_a2dp_disconnect_sess_inv.
  - by eapply signaling_connect_cb_sess_inv.
  - by eapply transport_connect_cb_sess_inv.
  - by eapply connect_cb_sess_inv.
  - by eapply notify_disconnected_sess_inv.
  - unfold_handlers H; crack; done.
  - unfold_handlers H; crack; done.
  - unfold_handlers H; crack; done.
  - unfold_handlers H; crack; done.
  - by eapply sep_open_cfm_sess_inv.
  - unfold_handlers H; crack; done.
  - unfold_handlers H; crack; done.
  - unfold_handlers H; crack; done.
  - unfold_handlers H; crack; done.
  - unfold bt_audio_open, register_endpoint, release_presets in H; crack; done.
  - unfold bt_audio_close, unregister_endpoint in H; crack; done.
  - unfold_handlers H; crack; done.
  - unfold_handlers H; crack; done.
  - unfold_handlers H; crack; done.
  - unfold_handlers H; crack; done.
Qed.

Lemma run_sess_inv es :
  ∀ c c', sess_inv (dev_mem c) → run es c = Some c' → sess_inv (dev_mem c').
Proof.
  induction es as [|e es IH]; intros c c' Hinv H; cbn in H.
  - by injection H as <-.
  - destruct (step e c) as [c1|] eqn:Hs; [|done]. cbn in H.
    eapply IH; [|done]. by eapply step_sess_inv.
Qed.

(** X15: in every state the coordinator reaches, a device in the
    Connected state holds an AVDTP session, and a device in the
    Connecting state holds none. *)
Theorem connected_device_has_session es c p dev :
  run es coordinator_init = Some c →
  dev_mem c !! p = Some dev →
  (d_state dev = HAL_A2DP_STATE_CONNECTED → d_session dev ≠ None) ∧
  (d_state dev = HAL_A2DP_STATE_CONNECTING → d_session dev = None).
Proof.
  intros Hrun Hp.
  assert (Hinit : sess_inv (dev_mem coordinator_init))
    by apply map_Forall_empty.
  exact (run_sess_inv es _ _ Hinit Hrun p dev Hp).
Qed.

Lemma connected_device_has_session_witness :
  ∃ c dev, run scenario_S2 coordinator_init = Some c ∧
           dev_mem c !! 2%nat = Some dev ∧
           d_state dev = HAL_A2DP_STATE_CONNECTED ∧
           d_session dev ≠ None.
Proof.
  eexists _, _. split; [vm_compute; reflexivity|].
  split; [reflexivity|]. split; [reflexivity|].
  match goal with
  | |- d_session ?dev ≠ None =>
      refine (proj1 (connected_device_has_session scenario_S2 _ 2%nat dev
                       _ _) eq_refl);
        [vm_compute; reflexivity | reflexivity]
  end.
Defined.

(** ** Outcomes of the HAL connect command *)

(** X16: A2DP_CONNECT in a state the coordinator reaches.  For a tracked
    address the answer is a failure and nothing changes.  For a new
    address whose [bt_io_connect] fails the answer is a failure, the
    record made for it is released again, the device table is as before
    and no CONN_STATE notification is sent.  Otherwise a record in state
    Connecting that holds the channel is put at the head of the table,
    CONN_STATE Connecting is notified and the answer is a success. *)
Theorem bt_a2dp_connect_outcomes es c dst r :
  run es coordinator_init = Some c →
  (∀ p, find_device (dev_mem c) (devices c) dst = Some (Some p) →
        bt_a2dp_connect dst r c =
          Some (emit (ipc_send_rsp HAL_OP_A2DP_CONNECT HAL_STATUS_FAILED)
                  c)) ∧
  (find_device (dev_mem c) (devices c) dst = Some None →
   io_err r = true →
   ∃ c', bt_a2dp_connect dst r c = Some c' ∧
         dev_mem c' = dev_mem c ∧ devices c' = devices c ∧
         setups c' = setups c ∧
         conn_state_notifs (trace c') = conn_state_notifs (trace c) ∧
         last (trace c') =
           Some (ipc_send_rsp HAL_OP_A2DP_CONNECT HAL_STATUS_FAILED)) ∧
  (find_device (dev_mem c) (devices c) dst = Some None →
   io_err r = false →
   ∃ c', bt_a2dp_connect dst r c = Some c' ∧
         dev_mem c' =
           <[brk c := {| d_dst := dst;
                         d_state := HAL_A2DP_STATE_CONNECTING;
                         d_io := io_chan r; d_session := None |}]>
             (dev_mem c) ∧
         devices c' = brk c :: devices c ∧
         setups c' = setups c ∧
         trace c' = trace c ++
           [ipc_send_notif dst HAL_A2DP_STATE_CONNECTING;
            ipc_send_rsp HAL_OP_A2DP_CONNECT HAL_STATUS_SUCCESS]).
Proof.
  intros Hrun.
  pose proof (run_devs_inv es _ _ devs_inv_init Hrun) as Hinv.
  assert (Hfresh : dev_mem c !! brk c = None).
  { destruct (dev_mem c !! brk c) eqn:Hb; [|done].
    assert (brk c ∈ devices c) as Hin by (apply (di_listed c Hinv); eauto).
    apply (di_brk c Hinv) in Hin. lia. }
  unfold bt_a2dp_connect, a2dp_device_new, a2dp_device_connect.
  split_and!.
  - intros p ->. done.
  - intros -> Herr. destruct r as [ch err]. cbn in Herr. subst err.
    destruct ch; cbn; rewrite lookup_insert_eq; cbn;
      unfold a2dp_device_free; cbn; rewrite lookup_insert_eq; cbn;
      (eexists; split; [reflexivity|]); cbn;
      rewrite decide_True by done;
      rewrite !delete_insert_eq, delete_id by done;
      rewrite ?last_snoc, ?conn_state_notifs_app; cbn;
      rewrite ?app_nil_r; done.
  - intros -> Herr. cbn. rewrite lookup_insert_eq. cbn. rewrite Herr. cbn.
    unfold bt_a2dp_notify_state. cbn. rewrite lookup_insert_eq. cbn.
    eexists. split; [reflexivity|]. cbn.
    rewrite !insert_insert_eq, <- app_assoc. done.
Qed.

Lemma bt_a2dp_connect_outcomes_witness :
  ∃ c c', run [incoming addr_B (signaling_up 50)] coordinator_init = Some c ∧
    find_device (dev_mem c) (devices c) addr_A = Some None ∧
    bt_a2dp_connect addr_A {| io_chan := None; io_err := true |} c
      = Some c' ∧
    devices c' = devices c ∧
    conn_state_notifs (trace c') = conn_state_notifs (trace c).
Proof.
  eexists _, _. split; [vm_compute; reflexivity|].
  split; [reflexivity|].
  match goal with
  | |- bt_a2dp_connect _ _ ?c = Some ?c' ∧ _ =>
      destruct (bt_a2dp_connect_outcomes
                  [incoming addr_B (signaling_up 50)] c addr_A
                  {| io_chan := None; io_err := true |})
        as (_ & Herr & _); [vm_compute; reflexivity|];
      destruct (Herr eq_refl eq_refl) as (c0 & H0 & _ & Hl & _ & Hn & _)
  end.
  vm_compute in H0. injection H0 as <-.
  split; [vm_compute; reflexivity|]. split; [exact Hl | exact Hn].
Defined.

(** ** Incoming connections from a tracked peer *)

(** X17: an incoming connection from a peer that has a device record is
    taken as a media transport channel.  No device is created, no state
    or session changes, no CONN_STATE notification is sent; when the
    device has a setup and the collaborators agree, the transport is
    handed to the stream of the device's first setup and the pending
    channel handle of the device is dropped. *)
Theorem incoming_from_tracked_peer c env p :
  find_device (dev_mem c) (devices c) (cn_dst env) = Some (Some p) →
  cn_get_ok env = true →
  ∃ c' d d',
    connect_cb false env c = Some c' ∧
    devices c' = devices c ∧ setups c' = setups c ∧ brk c' = brk c ∧
    conn_state_notifs (trace c') = conn_state_notifs (trace c) ∧
    (∀ q, q ≠ p → dev_mem c' !! q = dev_mem c !! q) ∧
    dev_mem c !! p = Some d ∧ dev_mem c' !! p = Some d' ∧
    d_dst d' = d_dst d ∧ d_state d' = d_state d ∧
    d_session d' = d_session d ∧
    (find_setup_by_device c p = None → c' = c) ∧
    (∀ i s, find_setup_by_device c p = Some (i, s) →
            tr_get_ok (cn_transport env) = true →
            tr_set_transport_ok (cn_transport env) = true →
            d_io d' = None ∧
            avdtp_stream_set_transport (s_stream s) ∈ trace c').
Proof.
  intros Hf Hget.
  destruct (find_device_found _ _ _ _ Hf) as (d & Hp & _).
  unfold connect_cb. rewrite Hget, Hf. cbn [negb mbind option_bind].
  unfold transport_connect_cb.
  destruct (find_setup_by_device c p) as [[i s]|].
  2:{ exists c, d, d. split_and!; try done. }
  destruct (tr_get_ok (cn_transport env)).
  2:{ exists c, d, d. split_and!; try done. }
  cbn [negb]. destruct (tr_set_transport_ok (cn_transport env)).
  2:{ eexists _, d, d. split; [reflexivity|].
      cbn. rewrite conn_state_notifs_app. cbn. rewrite app_nil_r.
      split_and!; try done. }
  cbn [negb dev_mem emit]. rewrite Hp. cbn [mbind option_bind].
  destruct (d_io d) as [io|] eqn:Hio.
  - eexists _, d, _. split; [reflexivity|]. cbn.
    rewrite !conn_state_notifs_app. cbn. rewrite !app_nil_r.
    rewrite lookup_insert_eq.
    split_and!; try done.
    + intros q Hq. by rewrite lookup_insert_ne.
    + intros i0 s0 [= <- <-] _ _. split; [done|].
      apply elem_of_app. left. apply elem_of_app. right. left.
  - eexists _, d, d. split; [reflexivity|]. cbn.
    rewrite !conn_state_notifs_app. cbn. rewrite !app_nil_r.
    split_and!; try done.
    intros i0 s0 [= <- <-] _ _. split; [done|].
    apply elem_of_app. right. left.
Qed.

Lemma incoming_from_tracked_peer_witness :
  ∃ c c', run scenario_S2 coordinator_init = Some c ∧
    find_device (dev_mem c) (devices c) addr_B = Some (Some 2%nat) ∧
    run [incoming addr_B (signaling_up 60)] c = Some c' ∧
    devices c' = devices c ∧
    avdtp_stream_set_transport 9%nat ∈ trace c'.
Proof.
  eexists _, _. split; [vm_compute; reflexivity|].
  split; [reflexivity|].
  match goal with
  | |- run _ ?c = _ ∧ _ =>
      destruct (incoming_from_tracked_peer c
                  {| cn_chan := 7%nat; cn_get_ok := true; cn_dst := addr_B;
                     cn_transport := transport_up;
                     cn_signaling := signaling_up 60 |} 2%nat eq_refl eq_refl)
        as (c0 & d & d' & Hrun & Hl & _ & _ & _ & _ & _ & _ & _ & _ & _ & _ & Hs)
  end.
  pose proof (proj2 (Hs 0%nat _ eq_refl eq_refl eq_refl)) as Hin.
  vm_compute in Hrun. injection Hrun as <-.
  split; [vm_compute; reflexivity|].
  split; [exact Hl | exact Hin].
Defined.

(** ** Locally driven stream operations *)

(** X18: closing a stream from the audio side takes two steps.  The
    CLOSE_STREAM command asks AVDTP to close the stream of the setup and
    answers, but whatever AVDTP returns the setup stays in the list;
    the setup goes when the close confirmation arrives without error. *)
Theorem local_close_flow id ret ep endpoint i s d c :
  ep_mem c !! ep = Some endpoint → e_id endpoint = id →
  find_setup c id = Some (Some (i, s)) →
  dev_mem c !! s_dev s = Some d →
  ∃ c1, bt_stream_close id ret c = Some c1 ∧
        setups c1 = setups c ∧
        trace c1 = trace c ++
          [avdtp_call_close (d_session d) (s_stream s);
           audio_ipc_send_rsp AUDIO_OP_CLOSE_STREAM
             (if ret <? 0 then AUDIO_STATUS_FAILED
              else AUDIO_STATUS_SUCCESS)] ∧
        sep_close_cfm false ep c1 =
          Some (set_setups (delete i (setups c)) c1).
Proof.
  intros He Hid Hf Hd.
  unfold bt_stream_close, stream_request. rewrite Hf. cbn. rewrite Hd. cbn.
  pose proof (find_setup_found _ _ _ _ Hf) as (_ & e' & He' & _).
  assert (Hgen : ∀ c1, ep_structs c1 = ep_structs c → setups c1 = setups c →
            sep_close_cfm false ep c1
            = Some (set_setups (delete i (setups c)) c1)).
  { intros c1 Hm Hs. unfold sep_close_cfm.
    rewrite Hm, (ep_structs_live _ _ _ He). cbn.
    unfold setup_remove_by_id, find_setup. rewrite Hm, Hs, Hid.
    unfold find_setup in Hf. rewrite Hf. cbn.
    unfold setup_remove. rewrite Hm, He'. cbn. by rewrite Hs. }
  destruct (ret <? 0); eexists; (split; [reflexivity|]);
    (split; [reflexivity|]);
    (split; [cbn [trace emit]; by rewrite <- app_assoc|]);
    by apply Hgen.
Qed.

Lemma local_close_flow_witness :
  ∃ c c1, run scenario_S2 coordinator_init = Some c ∧
    find_setup c 1 ≠ Some None ∧
    bt_stream_close 1 (-5) c = Some c1 ∧
    setups c1 = setups c ∧
    sep_close_cfm false 1%nat c1 = Some (set_setups [] c1).
Proof.
  eexists _, _. split; [vm_compute; reflexivity|].
  split; [discriminate|].
  match goal with
  | |- bt_stream_close _ _ ?c = _ ∧ _ =>
      destruct (local_close_flow 1 (-5) 1%nat sample_endpoint 0%nat
                  {| s_dev := 2%nat; s_endpoint := 1%nat;
                     s_preset := {| p_data := sbc_pref_blob; p_len := 4 |};
                     s_stream := 9%nat |}
                  {| d_dst := addr_B; d_state := HAL_A2DP_STATE_CONNECTED;
                     d_io := None; d_session := Some 50%nat |} c
                  eq_refl eq_refl eq_refl eq_refl)
        as (c1 & H1 & H2 & _ & H3)
  end.
  vm_compute in H1. injection H1 as <-.
  split; [vm_compute; reflexivity|]. split; [exact H2 | exact H3].
Defined.

(** X19: configuring a stream from the local side.  A successful
    [select_configuration] for an endpoint without a setup appends a
    setup that binds one of the endpoint's preferred presets and the
    stream AVDTP returned.  The confirmation then asks AVDTP to open the
    stream and keeps the setup; when the confirmation carries an error,
    or [avdtp_open] fails at once, the setup is removed and the setup
    list is as it was before the selection. *)
Theorem local_configuration_flow dev ep endpoint rsep env session stream c c1 :
  ep_mem c !! ep = Some endpoint →
  find_setup c (e_id endpoint) = Some None →
  select_configuration dev ep rsep env c = Some (0, c1) →
  ∃ preset,
    preset ∈ e_presets endpoint ∧
    setups c1 = setups c ++
      [{| s_dev := dev; s_endpoint := ep; s_preset := preset;
          s_stream := sc_stream env |}] ∧
    (∀ open_ret, 0 ≤ open_ret →
       sep_setconf_cfm session stream false open_ret ep c1 =
         Some (emit (avdtp_call_open session stream) c1)) ∧
    (∀ open_ret, open_ret < 0 →
       ∃ c2, sep_setconf_cfm session stream false open_ret ep c1 = Some c2 ∧
             setups c2 = setups c) ∧
    (∀ open_ret,
       ∃ c2, sep_setconf_cfm session stream true open_ret ep c1 = Some c2 ∧
             setups c2 = setups c).
Proof.
  intros He Hnone H. unfold select_configuration in H.
  rewrite He in H. cbn in H.
  destruct (select_preset endpoint rsep) as [preset|] eqn:Hsel;
    [|injection H as H _; unfold EINVAL in H; done].
  destruct (dev_mem c !! dev) as [d|]; [|done]. cbn in H.
  destruct (Z.ltb_spec (sc_ret env) 0) as [Hneg|_].
  { injection H as H _. lia. }
  injection H as <-.
  exists preset. split; [by eapply select_preset_in_elem|].
  split; [done|].
  set (s := {| s_dev := dev; s_endpoint := ep; s_preset := preset;
               s_stream := sc_stream env |}).
  set (c1 := setup_add _ _ _ _ _).
  pose proof (ep_structs_live _ _ _ He) as He'.
  assert (Hm : ep_structs c1 = ep_structs c) by reflexivity.
  assert (Hemit : ∀ o c0, ep_structs (emit o c0) = ep_structs c0)
    by reflexivity.
  assert (Hs : setups c1 = setups c ++ [s]) by reflexivity.
  assert (Hfound : find_setup c1 (e_id endpoint)
                   = Some (Some (length (setups c), s))).
  { unfold find_setup in *. rewrite Hm, Hs.
    rewrite (find_setup_from_app_none _ _ _ _ _ Hnone). cbn.
    rewrite He'. cbn. by rewrite decide_True. }
  assert (Hdel : delete (length (setups c)) (setups c ++ [s]) = setups c).
  { clear. induction (setups c) as [|x l IH]; [done|].
    cbn [length app]. change (delete (S (length l)) (x :: l ++ [s]))
      with (x :: delete (length l) (l ++ [s])). by f_equal. }
  clearbody c1.
  unfold sep_setconf_cfm. rewrite Hm, He'. cbn [mbind option_bind].
  rewrite Hfound. cbn [mbind option_bind]. unfold setup_remove.
  cbn [s_endpoint s]. rewrite ?Hemit, Hm, He'. cbn [mbind option_bind].
  split_and!.
  - intros open_ret Hret. destruct (Z.ltb_spec open_ret 0); [lia | done].
  - intros open_ret Hret. destruct (Z.ltb_spec open_ret 0); [|lia].
    eexists. split; [reflexivity|]. cbn. by rewrite Hs, Hdel.
  - intros open_ret. eexists. split; [reflexivity|]. cbn.
    by rewrite Hs, Hdel.
Qed.

Lemma local_configuration_flow_witness :
  ∃ c c1,
    run scenario_connected_B coordinator_init = Some c ∧
    find_setup c 1 = Some None ∧
    select_configuration 2%nat 1%nat
      (cap_media_codec A2DP_CODEC_SBC [33; 21; 2; 250])
      {| sc_ret := 0; sc_stream := 9%nat |} c = Some (0, c1) ∧
    setups c1 = [ {| s_dev := 2%nat; s_endpoint := 1%nat;
                     s_preset := {| p_data := sbc_pref_blob; p_len := 4 |};
                     s_stream := 9%nat |} ] ∧
    ∃ c2, sep_setconf_cfm (Some 50%nat) 9%nat false (-1) 1%nat c1 = Some c2 ∧
          setups c2 = setups c.
Proof.
  eexists _, _. split; [vm_compute; reflexivity|].
  split; [reflexivity|].
  split; [vm_compute; reflexivity|].
  split; [reflexivity|].
  match goal with
  | |- ∃ c2, sep_setconf_cfm _ _ _ _ _ ?c1 = _ ∧ setups _ = setups ?c =>
      destruct (local_configuration_flow 2%nat 1%nat sample_endpoint
                  (cap_media_codec A2DP_CODEC_SBC [33; 21; 2; 250])
                  {| sc_ret := 0; sc_stream := 9%nat |}
                  (Some 50%nat) 9%nat c c1)
        as (preset & _ & _ & _ & Hfail & _)
  end.
  - reflexivity.
  - reflexivity.
  - vm_compute. reflexivity.
  - destruct (Hfail (-1)) as (c2 & H1 & H2); [lia|].
    exists c2. split; [exact H1 | exact H2].
Defined.

Lemma discover_endpoint_found m l frs ep rsep :
  discover_endpoint m l frs = Some (Some (ep, rsep)) →
  ep ∈ l ∧ ∃ endpoint, m !! ep = Some endpoint ∧
                       frs (e_sep endpoint) = Some rsep.
Proof.
  induction l as [|q l IH]; cbn; [done|].
  destruct (m !! q) as [e|] eqn:Hq; cbn; [|done].
  destruct (frs (e_sep e)) as [r|] eqn:Hr.
  - intros [= <- <-]. split; [left | eauto].
  - intros H. destruct (IH H) as [Hin He]. split; [by right | done].
Qed.

Lemma discover_endpoint_defined m l frs :
  (∀ ep, ep ∈ l → is_Some (m !! ep)) →
  is_Some (discover_endpoint m l frs).
Proof.
  induction l as [|q l IH]; intros Hl; cbn; [done|].
  destruct (Hl q) as [e ->]; [left|]. cbn.
  destruct (frs (e_sep e)); [done|].
  apply IH. intros ep Hep. apply Hl. by right.
Qed.

(** X20: the discovery callback either records a setup or shuts the
    session down, never both and never neither.  With every listed
    endpoint (holding its blobs) and the device allocated it returns, and then either the
    setup list is unchanged and the last output is [avdtp_shutdown] of
    the session, or exactly one setup was appended, for a listed endpoint
    whose remote SEP was found, binding one of that endpoint's preferred
    presets, and the only output is the [avdtp_set_configuration] call. *)
Theorem discover_cb_setup_or_shutdown session dev frs env c :
  (∀ ep, ep ∈ endpoints c → is_Some (ep_mem c !! ep)) →
  is_Some (dev_mem c !! dev) →
  ∃ c', discover_cb session dev frs env c = Some c' ∧
    ((setups c' = setups c ∧ last (trace c') = Some (avdtp_shutdown session))
     ∨
     (∃ ep endpoint rsep preset d,
        ep ∈ endpoints c ∧ ep_mem c !! ep = Some endpoint ∧
        dev_mem c !! dev = Some d ∧
        frs (e_sep endpoint) = Some rsep ∧
        select_preset endpoint rsep = Some preset ∧
        preset ∈ e_presets endpoint ∧
        0 ≤ sc_ret env ∧
        setups c' = setups c ++
          [{| s_dev := dev; s_endpoint := ep; s_preset := preset;
              s_stream := sc_stream env |}] ∧
        trace c' = trace c ++
          [avdtp_call_set_configuration (d_session d) (e_sep endpoint)
             (e_codec endpoint) (p_data preset)])).
Proof.
  intros Heps [d Hd]. unfold discover_cb.
  destruct (discover_endpoint_defined (ep_structs c) (endpoints c) frs)
    as [r Hr].
  { intros ep Hep. by apply ep_structs_is_Some, Heps. }
  rewrite Hr. cbn [mbind option_bind].
  destruct r as [[ep rsep]|].
  - apply discover_endpoint_found in Hr as (Hin & endpoint & He & Hf).
    destruct (Heps ep Hin) as [e0 He0].
    rewrite (ep_structs_live _ _ _ He0) in He. injection He as ->.
    rename He0 into He.
    unfold select_configuration. rewrite He. cbn [mbind option_bind].
    destruct (select_preset endpoint rsep) as [preset|] eqn:Hsel.
    + rewrite Hd. cbn [mbind option_bind].
      destruct (Z.ltb_spec (sc_ret env) 0) as [Hneg|Hpos].
      * cbn [mbind option_bind].
        destruct (Z.ltb_spec (sc_ret env) 0); [|lia].
        eexists. split; [reflexivity|]. left.
        split; [reflexivity|]. cbn [trace emit]. apply last_snoc.
      * cbn [mbind option_bind]. change (0 <? 0) with false. cbn iota.
        eexists. split; [reflexivity|]. right.
        exists ep, endpoint, rsep, preset, d.
        split_and!; try done. by eapply select_preset_in_elem.
    + cbn [mbind option_bind]. unfold EINVAL. cbn.
      eexists. split; [reflexivity|]. left.
      split; [reflexivity|]. cbn [trace emit]. apply last_snoc.
  - eexists. split; [reflexivity|]. left.
    split; [reflexivity|]. cbn [trace emit]. apply last_snoc.
Qed.

Lemma discover_cb_setup_or_shutdown_witness :
  ∃ c c',
    run scenario_connected_B coordinator_init = Some c ∧
    discover_cb (Some 50%nat) 2%nat
      (fun _ => Some (cap_media_codec A2DP_CODEC_SBC [33; 21; 2; 250]))
      {| sc_ret := 0; sc_stream := 9%nat |} c = Some c' ∧
    length (setups c') = 1%nat.
Proof.
  eexists _, _. split; [vm_compute; reflexivity|].
  match goal with
  | |- discover_cb ?se ?d ?f ?e ?c = _ ∧ _ =>
      destruct (discover_cb_setup_or_shutdown se d f e c)
        as (c' & H & _)
  end.
  - intros ep Hep. vm_compute in Hep.
    apply list_elem_of_singleton in Hep as ->. by eexists.
  - by eexists.
  - vm_compute in H. injection H as <-.
    split; [vm_compute; reflexivity | reflexivity].
Defined.

(** X21: opening the transport of a stream.  When the open confirmation
    arrives without error for the session of a tracked device that has a
    setup, the device's channel slot is overwritten with whatever
    [bt_io_connect] returned, and the setup list and the outputs are
    untouched even when the connect failed.  A successful transport
    callback then hands the transport to the stream of the device's
    first setup, drops the channel reference if there is one and clears
    the slot. *)
Theorem local_open_flow session r ep p i s c :
  find_device_by_session c session = Some (Some p) →
  find_setup_by_device c p = Some (i, s) →
  ∃ d c1 c2,
    dev_mem c !! p = Some d ∧ d_session d = session ∧
    sep_open_cfm session false r ep c = Some c1 ∧
    c1 = set_dev_mem (<[p := set_d_io (io_chan r) d]> (dev_mem c)) c ∧
    transport_connect_cb false p
      {| tr_get_ok := true; tr_set_transport_ok := true |} c1 = Some c2 ∧
    setups c2 = setups c ∧
    dev_mem c2 !! p = Some (set_d_io None d) ∧
    trace c2 = trace c ++
      avdtp_stream_set_transport (s_stream s) ::
      match io_chan r with
      | Some io => [g_io_channel_unref io]
      | None => []
      end.
Proof.
  intros Hs Hf.
  pose proof Hs as Hs'. unfold find_device_by_session in Hs'.
  apply find_device_by_session_in_found in Hs' as (d & Hd & Hse).
  exists d, (set_dev_mem (<[p := set_d_io (io_chan r) d]> (dev_mem c)) c).
  assert (Hopen : sep_open_cfm session false r ep c
            = Some (set_dev_mem (<[p := set_d_io (io_chan r) d]> (dev_mem c))
                      c)).
  { unfold sep_open_cfm. rewrite Hs. cbn [mbind option_bind].
    unfold a2dp_device_connect. by rewrite Hd. }
  set (c1 := set_dev_mem _ c) in *.
  assert (Hst : setups c1 = setups c) by reflexivity.
  assert (Htr : trace c1 = trace c) by reflexivity.
  assert (Hm : dev_mem c1 !! p = Some (set_d_io (io_chan r) d))
    by apply lookup_insert_eq.
  assert (Hc1 : c1 = set_dev_mem (<[p := set_d_io (io_chan r) d]> (dev_mem c))
                       c) by reflexivity.
  clearbody c1.
  assert (Htc : ∃ c2, transport_connect_cb false p
             {| tr_get_ok := true; tr_set_transport_ok := true |} c1 = Some c2
           ∧ setups c2 = setups c
           ∧ dev_mem c2 !! p = Some (set_d_io None d)
           ∧ trace c2 = trace c ++
               avdtp_stream_set_transport (s_stream s) ::
               match io_chan r with
               | Some io => [g_io_channel_unref io]
               | None => []
               end).
  { unfold transport_connect_cb, find_setup_by_device.
    rewrite Hst. unfold find_setup_by_device in Hf. rewrite Hf.
    cbn [negb tr_get_ok tr_set_transport_ok dev_mem emit].
    rewrite Hm. cbn [mbind option_bind]. clear Hc1 Hopen.
    destruct r as [[io|] e]; cbn [io_chan set_d_io d_io] in *;
      eexists; (split; [reflexivity|]); split_and!; try done;
      cbn [dev_mem trace set_dev_mem emit];
      rewrite ?lookup_insert_eq, ?Hm, ?Htr, <- ?app_assoc;
      by destruct d. }
  destruct Htc as (c2 & H1 & H2 & H3 & H4).
  exists c2. by split_and!.
Qed.

Lemma local_open_flow_witness :
  ∃ c c1 c2,
    run scenario_S2 coordinator_init = Some c ∧
    sep_open_cfm (Some 50%nat) false
      {| io_chan := Some 77%nat; io_err := false |} 1%nat c = Some c1 ∧
    transport_connect_cb false 2%nat
      {| tr_get_ok := true; tr_set_transport_ok := true |} c1 = Some c2 ∧
    setups c2 = setups c.
Proof.
  eexists _, _, _. split; [vm_compute; reflexivity|].
  match goal with
  | |- sep_open_cfm ?se _ ?r ?ep ?c = _ ∧ _ =>
      destruct (local_open_flow se r ep 2%nat 0%nat
                  {| s_dev := 2%nat; s_endpoint := 1%nat;
                     s_preset := {| p_data := sbc_pref_blob; p_len := 4 |};
                     s_stream := 9%nat |} c eq_refl eq_refl)
        as (d & c1 & c2 & _ & _ & H1 & _ & H2 & H3 & _)
  end.
  vm_compute in H1. injection H1 as <-.
  vm_compute in H2. injection H2 as <-.
  split; [vm_compute; reflexivity|].
  split; [vm_compute; reflexivity | exact H3].
Defined.

(** ** Registration and teardown *)

Lemma foreach_setup_free l c :
  (∀ s, s ∈ l → is_Some (ep_mem c !! s_endpoint s)) →
  g_slist_foreach setup_free l c = Some c.
Proof.
  induction l as [|s l IH]; intros Hl; cbn [g_slist_foreach]; [done|].
  assert (Hs : setup_free s c = Some c).
  { unfold setup_free.
    assert (Hin : s ∈ s :: l) by left.
    destruct (ep_structs_is_Some _ _ (Hl s Hin)) as [e ->]. done. }
  rewrite Hs. cbn [mbind option_bind]. apply IH. intros s' Hs'. apply Hl. by right.
Qed.

Lemma sep_unregistrations_ext m1 m2 l :
  (∀ p, p ∈ l → m1 !! p = m2 !! p) →
  sep_unregistrations m1 l = sep_unregistrations m2 l.
Proof.
  induction l as [|q l IH]; intros H; [done|].
  unfold sep_unregistrations in *. cbn. rewrite (H q) by left.
  rewrite IH; [done|]. intros p Hp. apply H. by right.
Qed.

Lemma disconnect_notifs_ext m1 m2 l :
  (∀ p, p ∈ l → m1 !! p = m2 !! p) →
  disconnect_notifs m1 l = disconnect_notifs m2 l.
Proof.
  induction l as [|q l IH]; intros H; [done|].
  unfold disconnect_notifs in *. cbn. rewrite (H q) by left.
  rewrite IH; [done|]. intros p Hp. apply H. by right.
Qed.

Lemma foreach_unregister_endpoint l :
  ∀ c, NoDup l → (∀ p, p ∈ l → is_Some (ep_mem c !! p)) →
  ∃ c', g_slist_foreach unregister_endpoint l c = Some c' ∧
        dev_mem c' = dev_mem c ∧ devices c' = devices c ∧
        endpoints c' = endpoints c ∧ setups c' = setups c ∧
        trace c' = trace c ++ sep_unregistrations (ep_mem c) l ∧
        ∀ q, ep_mem c' !! q = if decide (q ∈ l) then None else ep_mem c !! q.
Proof.
  induction l as [|p l IH]; intros c Hnd Hl.
  { exists c. cbn. split_and!; try done. by rewrite app_nil_r. }
  apply NoDup_cons in Hnd as [Hp Hnd].
  destruct (Hl p) as [e He]; [left|].
  cbn [g_slist_foreach].
  assert (Hu : unregister_endpoint p c
               = Some (set_ep_released (delete p (ep_released c))
                         (set_ep_mem (delete p (ep_mem c))
                            match e_sep e with
                            | Some s => emit (avdtp_unregister_sep s) c
                            | None => c
                            end))).
  { unfold unregister_endpoint. rewrite He. cbn [mbind option_bind].
    by destruct (e_sep e). }
  rewrite Hu. cbn [mbind option_bind].
  set (c1 := set_ep_released _ _).
  assert (Hm1 : ep_mem c1 = delete p (ep_mem c)) by (subst c1; by destruct (e_sep e)).
  assert (Hd1 : dev_mem c1 = dev_mem c) by (subst c1; by destruct (e_sep e)).
  assert (Hl1 : devices c1 = devices c) by (subst c1; by destruct (e_sep e)).
  assert (He1 : endpoints c1 = endpoints c) by (subst c1; by destruct (e_sep e)).
  assert (Hs1 : setups c1 = setups c) by (subst c1; by destruct (e_sep e)).
  assert (Ht1 : trace c1 = trace c ++
                  match e_sep e with
                  | Some s => [avdtp_unregister_sep s]
                  | None => []
                  end).
  { subst c1. destruct (e_sep e); cbn; [done | by rewrite app_nil_r]. }
  clearbody c1.
  destruct (IH c1 Hnd) as (c' & H & Hd & Hdl & Hel & Hs & Ht & Hm).
  { intros q Hq. rewrite Hm1, lookup_delete_ne; [apply Hl; by right|].
    intros <-. done. }
  exists c'. split; [done|].
  rewrite Hd, Hdl, Hel, Hs, Ht, Ht1, Hd1, Hl1, He1, Hs1.
  split_and!; try done.
  - rewrite <- app_assoc. f_equal.
    unfold sep_unregistrations at 2. cbn [omap list_omap].
    rewrite He. cbn [mbind option_bind].
    assert (Hext : sep_unregistrations (ep_mem c1) l
                   = sep_unregistrations (ep_mem c) l).
    { apply sep_unregistrations_ext. intros q Hq.
      rewrite Hm1, lookup_delete_ne; [done|]. intros <-. done. }
    rewrite Hext. by destruct (e_sep e).
  - intros q. rewrite Hm, Hm1.
    destruct (decide (q = p)) as [->|Hne].
    + rewrite lookup_delete_eq.
      rewrite (decide_True (P := p ∈ p :: l)) by left.
      by destruct (decide (p ∈ l)).
    + rewrite lookup_delete_ne by done.
      destruct (decide (q ∈ l)) as [Hq|Hq].
      * rewrite decide_True; [done | by right].
      * rewrite decide_False; [done|].
        intros [?|?]%elem_of_cons; done.
Qed.

Lemma a2dp_device_disconnected_spec p d c :
  dev_mem c !! p = Some d →
  ∃ c' t, a2dp_device_disconnected p c = Some c' ∧
        ep_mem c' = ep_mem c ∧ endpoints c' = endpoints c ∧
        setups c' = setups c ∧
        trace c' = trace c ++ t ∧
        conn_state_notifs t =
          (if decide (d_state d = HAL_A2DP_STATE_DISCONNECTED) then []
           else [(d_dst d, HAL_A2DP_STATE_DISCONNECTED)]) ∧
        dev_mem c' =
          (if decide (d_state d = HAL_A2DP_STATE_DISCONNECTED) then dev_mem c
           else delete p (dev_mem c)).
Proof.
  intros Hp. unfold a2dp_device_disconnected, bt_a2dp_notify_state.
  rewrite Hp. cbn [mbind option_bind].
  destruct (decide (d_state d = HAL_A2DP_STATE_DISCONNECTED)) as [Hs|Hs].
  { exists c, []. rewrite app_nil_r. by split_and!. }
  rewrite decide_False by (intros H; by apply H).
  set (c2 := emit _ _).
  destruct (a2dp_device_free_spec p (set_d_state HAL_A2DP_STATE_DISCONNECTED d)
              c2) as (c' & H & Hm & _ & He & Hel & Hst & _ & Ht).
  { subst c2. cbn. apply lookup_insert_eq. }
  exists c'. eexists. split; [exact H|].
  rewrite He, Hel, Hst, Ht, Hm. subst c2. cbn [ep_mem endpoints setups trace
    dev_mem emit set_dev_mem].
  split_and!; try done.
  - rewrite <- app_assoc. reflexivity.
  - cbn. by destruct (d_session d), (d_io d).
  - by rewrite delete_insert_eq.
Qed.

Lemma foreach_a2dp_device_disconnected l :
  ∀ c, NoDup l → (∀ p, p ∈ l → is_Some (dev_mem c !! p)) →
  ∃ c' t, g_slist_foreach a2dp_device_disconnected l c = Some c' ∧
        ep_mem c' = ep_mem c ∧ endpoints c' = endpoints c ∧
        setups c' = setups c ∧
        trace c' = trace c ++ t ∧
        conn_state_notifs t = disconnect_notifs (dev_mem c) l ∧
        ∀ q dq, dev_mem c' !! q = Some dq ↔
                dev_mem c !! q = Some dq ∧
                (q ∈ l → d_state dq = HAL_A2DP_STATE_DISCONNECTED).
Proof.
  induction l as [|p l IH]; intros c Hnd Hl.
  { exists c, []. cbn. rewrite app_nil_r. split_and!; try done.
    intros q dq. split; [|tauto]. intros H. split; [done|].
    by intros ?%elem_of_nil. }
  apply NoDup_cons in Hnd as [Hp Hnd].
  destruct (Hl p) as [d Hd]; [left|].
  destruct (a2dp_device_disconnected_spec p d c Hd)
    as (c1 & t1 & H1 & He1 & Hel1 & Hs1 & Ht1 & Hn1 & Hm1).
  assert (Hother : ∀ q, q ≠ p → dev_mem c1 !! q = dev_mem c !! q).
  { intros q Hq. rewrite Hm1. case_decide; [done|].
    by rewrite lookup_delete_ne. }
  destruct (IH c1 Hnd) as (c' & t & H & He & Hel & Hs & Ht & Hn & Hm).
  { intros q Hq. rewrite Hother; [apply Hl; by right|]. intros ->. done. }
  exists c', (t1 ++ t). cbn [g_slist_foreach]. rewrite H1.
  cbn [mbind option_bind]. split; [exact H|].
  rewrite He, Hel, Hs, Ht, He1, Hel1, Hs1, Ht1.
  split_and!; try done.
  - by rewrite app_assoc.
  - rewrite conn_state_notifs_app, Hn1, Hn.
    unfold disconnect_notifs at 2. cbn [omap list_omap].
    rewrite Hd. cbn [mbind option_bind].
    assert (Hext : disconnect_notifs (dev_mem c1) l
                   = disconnect_notifs (dev_mem c) l).
    { apply disconnect_notifs_ext. intros q Hq. apply Hother.
      intros ->. done. }
    rewrite Hext. by case_decide.
  - intros q dq. rewrite Hm.
    destruct (decide (q = p)) as [->|Hne].
    + rewrite Hm1. case_decide as Hst.
      * rewrite Hd. split.
        -- intros [Hq _]. split; [done|]. intros _. congruence.
        -- intros [Hq _]. split; [done|]. intros Hin. done.
      * rewrite lookup_delete_eq. split; [intros [? _]; done|].
        intros [Hq Hin]. rewrite Hd in Hq. injection Hq as <-.
        exfalso. apply Hst, Hin. left.
    + rewrite Hother by done. split.
      * intros [Hq Hin]. split; [done|].
        intros [?|?]%elem_of_cons; [done | auto].
      * intros [Hq Hin]. split; [done|]. intros ?. apply Hin. by right.
Qed.

Lemma foreach_unregister_endpoint_freed l :
  ∀ c p, p ∈ l → ep_mem c !! p = None →
  g_slist_foreach unregister_endpoint l c = None.
Proof.
  induction l as [|q l IH]; intros c p Hin Hp; [by apply elem_of_nil in Hin|].
  cbn [g_slist_foreach].
  destruct (unregister_endpoint q c) as [c1|] eqn:Hu; [|done].
  cbn [mbind option_bind].
  unfold unregister_endpoint in Hu.
  destruct (ep_mem c !! q) as [e|] eqn:Hq; [|done].
  cbn [mbind option_bind] in Hu. injection Hu as <-.
  apply elem_of_cons in Hin as [->|Hin]; [congruence|].
  apply (IH _ p Hin). cbn [ep_mem set_ep_mem].
  apply lookup_delete_None. right. by destruct (e_sep e).
Qed.

Lemma run_ep_frame es :
  ∀ c c', forallb (fun e => negb (is_audio_registry e)) es = true →
          run es c = Some c' →
          ep_mem c' = ep_mem c ∧ endpoints c' = endpoints c.
Proof.
  induction es as [|e es IH]; intros c c' Hes H; cbn in H.
  - by injection H as <-.
  - cbn in Hes. apply andb_true_iff in Hes as [He Hes].
    apply negb_true_iff in He.
    destruct (step e c) as [c1|] eqn:Hs; [|done]. cbn in H.
    destruct (step_ep_frame _ _ _ He Hs) as (Hm & _ & Hl & _).
    destruct (IH _ _ Hes H) as [Hm' Hl']. split; congruence.
Qed.

Lemma bt_a2dp_unregister_spec m :
  lists_ok (m_coord m) →
  ∃ m' t,
    bt_a2dp_unregister m = Some m' ∧
    setups (m_coord m') = [] ∧ endpoints (m_coord m') = [] ∧
    devices (m_coord m') = [] ∧
    (∀ q, ep_mem (m_coord m') !! q =
          if decide (q ∈ endpoints (m_coord m)) then None
          else ep_mem (m_coord m) !! q) ∧
    (∀ q dq, dev_mem (m_coord m') !! q = Some dq ↔
             dev_mem (m_coord m) !! q = Some dq ∧
             (q ∈ devices (m_coord m) →
              d_state dq = HAL_A2DP_STATE_DISCONNECTED)) ∧
    trace (m_coord m') =
      trace (m_coord m) ++
      sep_unregistrations (ep_mem (m_coord m)) (endpoints (m_coord m)) ++ t ∧
    conn_state_notifs t =
      disconnect_notifs (dev_mem (m_coord m)) (devices (m_coord m)) ∧
    m_record_id m' = 0 ∧ m_server m' = None ∧
    m_calls m' =
      m_calls m ++
      [ipc_unregister; audio_ipc_unregister;
       bt_adapter_remove_record (m_record_id m)] ++
      match m_server m with
      | Some srv => [server_shutdown srv; server_unref srv]
      | None => []
      end ++ [audio_ipc_cleanup].
Proof.
  intros [Hs He Hend Hd Hdnd]. unfold bt_a2dp_unregister.
  set (c := m_coord m) in *.
  rewrite (foreach_setup_free _ _ Hs). cbn [mbind option_bind].
  destruct (foreach_unregister_endpoint (endpoints c) (set_setups [] c)
              Hend He)
    as (c3 & H3 & Hd3 & Hl3 & _ & Hs3 & Ht3 & Hm3).
  change (endpoints (set_setups [] c)) with (endpoints c).
  rewrite H3. cbn [mbind option_bind].
  destruct (foreach_a2dp_device_disconnected (devices c)
              (set_endpoints [] c3) Hdnd)
    as (c5 & t & H5 & Hm5 & Hel5 & Hs5 & Ht5 & Hn5 & Hd5).
  { intros p Hp. cbn. rewrite Hd3. cbn. by apply Hd. }
  change (devices (set_endpoints [] c3)) with (devices c3).
  rewrite Hl3. change (devices (set_setups [] c)) with (devices c).
  rewrite H5. cbn [mbind option_bind].
  eexists _, t. split; [reflexivity|].
  cbn [setups endpoints devices ep_mem dev_mem trace set_setups
       set_endpoints] in Hd3, Hl3, Hs3, Ht3, Hm3, Hm5, Hel5, Hs5, Ht5, Hn5, Hd5.
  cbn [m_server m_record_id call set_coord set_record_id].
  split_and!.
  - destruct (m_server m); cbn; by rewrite Hs5.
  - destruct (m_server m); cbn; by rewrite Hel5.
  - by destruct (m_server m).
  - intros q. destruct (m_server m); cbn; rewrite Hm5; apply Hm3.
  - intros q dq. destruct (m_server m); cbn; by rewrite Hd5, Hd3.
  - destruct (m_server m); cbn; by rewrite Ht5, Ht3, <- app_assoc.
  - by rewrite Hn5, Hd3.
  - by destruct (m_server m).
  - by destruct (m_server m) eqn:Hsrv.
  - destruct (m_server m); cbn; by rewrite <- !app_assoc.
Qed.

Lemma foreach_setup_free_frame l :
  ∀ c c', g_slist_foreach setup_free l c = Some c' → c' = c.
Proof.
  induction l as [|s l IH]; intros c c' H; cbn [g_slist_foreach] in H.
  - by injection H as <-.
  - destruct (setup_free s c) as [c1|] eqn:Hs; [|done].
    cbn [mbind option_bind] in H. unfold setup_free in Hs.
    destruct (ep_structs c !! s_endpoint s); [|done].
    cbn [mbind option_bind] in Hs. injection Hs as <-. by apply IH.
Qed.

(** X22: [bt_a2dp_unregister] on a coordinator whose lists point at
    allocated records (endpoints that hold their blobs) returns with the
    three lists empty.  Every listed
    endpoint is released and the SEPs are taken back in list order.  A
    listed device that is not in the Disconnected state is announced as
    Disconnected once, in list order, and released; a listed device
    whose state is already Disconnected is passed over and its record
    stays allocated although the list is dropped. *)
Theorem bt_a2dp_unregister_clears m :
  lists_ok (m_coord m) →
  ∃ m' t,
    bt_a2dp_unregister m = Some m' ∧
    setups (m_coord m') = [] ∧ endpoints (m_coord m') = [] ∧
    devices (m_coord m') = [] ∧
    (∀ q, q ∈ endpoints (m_coord m) → ep_mem (m_coord m') !! q = None) ∧
    (∀ q dq, dev_mem (m_coord m') !! q = Some dq ↔
             dev_mem (m_coord m) !! q = Some dq ∧
             (q ∈ devices (m_coord m) →
              d_state dq = HAL_A2DP_STATE_DISCONNECTED)) ∧
    trace (m_coord m') =
      trace (m_coord m) ++
      sep_unregistrations (ep_mem (m_coord m)) (endpoints (m_coord m)) ++ t ∧
    conn_state_notifs t =
      disconnect_notifs (dev_mem (m_coord m)) (devices (m_coord m)).
Proof.
  intros Hok.
  destruct (bt_a2dp_unregister_spec m Hok)
    as (m' & t & H & Hs & He & Hd & Hem & Hdm & Ht & Hn & _).
  exists m', t. split_and!; try done.
  intros q Hq. rewrite Hem. by rewrite decide_True.
Qed.

Lemma bt_a2dp_unregister_clears_witness :
  ∃ c m',
    run (scenario_S2 ++ [incoming addr_A (mk_signaling_env false None 0)])
      coordinator_init = Some c ∧
    bt_a2dp_unregister
      {| m_coord := c; m_server := Some 7%nat; m_adapter_addr := addr_A;
         m_record_id := 65537; m_calls := [] |} = Some m' ∧
    devices (m_coord m') = [] ∧
    size (dev_mem (m_coord m')) = 1%nat.
Proof.
  eexists _, _. split; [vm_compute; reflexivity|].
  match goal with
  | |- bt_a2dp_unregister ?m = _ ∧ _ =>
      destruct (bt_a2dp_unregister_clears m) as (m' & t & H & _ & _ & Hd & _)
  end.
  - split; cbn [m_coord].
    + intros s Hs. vm_compute in Hs.
      apply list_elem_of_singleton in Hs as ->. by eexists.
    + intros p Hp. vm_compute in Hp.
      apply list_elem_of_singleton in Hp as ->. by eexists.
    + vm_compute. apply NoDup_singleton.
    + intros p Hp. vm_compute in Hp.
      apply elem_of_cons in Hp as [->|Hp];
        [|apply list_elem_of_singleton in Hp as ->]; by eexists.
    + vm_compute. apply NoDup_cons. split; [|apply NoDup_singleton].
      intros Hin. apply list_elem_of_singleton in Hin. discriminate.
  - vm_compute in H. injection H as <-.
    split; [vm_compute; reflexivity|]. split; [exact Hd | reflexivity].
Defined.

(** X23: once an endpoint has been closed, teardown has no defined
    result.  CLOSE releases the endpoint but leaves its address in the
    list of endpoints, no handler other than OPEN and CLOSE touches that
    list, and [bt_a2dp_unregister] calls [unregister_endpoint] on every
    address of the list, so it reads the released endpoint again. *)
Theorem bt_a2dp_unregister_after_close m id p c1 es c2 :
  find_endpoint (m_coord m) id = Some (Some p) →
  bt_audio_close id (m_coord m) = Some c1 →
  forallb (fun e => negb (is_audio_registry e)) es = true →
  run es c1 = Some c2 →
  bt_a2dp_unregister (set_coord c2 m) = None.
Proof.
  intros Hf Hc Hes Hrun.
  unfold bt_audio_close in Hc. rewrite Hf in Hc. cbn [mbind option_bind] in Hc.
  unfold find_endpoint in Hf.
  destruct (find_endpoint_in_found _ _ _ _ Hf)
    as (l1 & l2 & e' & Hl & _ & _ & _).
  unfold unregister_endpoint in Hc.
  destruct (ep_mem (m_coord m) !! p) as [e|] eqn:Hp; [|done].
  cbn [mbind option_bind] in Hc. injection Hc as <-.
  destruct (run_ep_frame _ _ _ Hes Hrun) as [Hm2 Hl2].
  assert (Hnone : ep_mem c2 !! p = None).
  { rewrite Hm2. cbn. apply lookup_delete_None. by left. }
  assert (Hin : p ∈ endpoints c2).
  { rewrite Hl2. cbn. destruct (e_sep e); cbn; rewrite Hl;
      apply elem_of_app; right; left. }
  unfold bt_a2dp_unregister. cbn [m_coord set_coord].
  destruct (g_slist_foreach setup_free _ _) as [c'|] eqn:Hs; [|done].
  apply foreach_setup_free_frame in Hs as ->.
  cbn [mbind option_bind].
  rewrite (foreach_unregister_endpoint_freed _ _ p); done.
Qed.

Lemma bt_a2dp_unregister_after_close_witness :
  ∃ c c1 c2,
    run [sample_open] coordinator_init = Some c ∧
    bt_audio_close 1 c = Some c1 ∧
    run [ev_a2dp_connect addr_A {| io_chan := Some 5%nat; io_err := false |}]
      c1 = Some c2 ∧
    bt_a2dp_unregister (set_coord c2 (set_coord c module_init)) = None.
Proof.
  eexists _, _, _. split; [vm_compute; reflexivity|].
  split; [vm_compute; reflexivity|].
  split; [vm_compute; reflexivity|].
  match goal with
  | |- bt_a2dp_unregister (set_coord ?c2 ?m) = None =>
      eapply (bt_a2dp_unregister_after_close m 1 1%nat _
                [ev_a2dp_connect addr_A
                   {| io_chan := Some 5%nat; io_err := false |}] c2)
  end; vm_compute; reflexivity.
Defined.

(** X24: registration and teardown pair up.  [bt_a2dp_register] returns
    true exactly when the listen, the allocation of the SDP record and
    [bt_adapter_add_record] all succeed.  After a successful
    registration, teardown removes the record whose handle the adapter
    stored and shuts down the channel that was opened.  After a failed
    registration no handlers are registered and no channel is kept, and
    teardown still calls [bt_adapter_remove_record], with the record id
    that was there before. *)
Theorem register_then_unregister addr env m c :
  lists_ok c →
  ∃ ok m1 m2,
    bt_a2dp_register addr env m = (ok, m1) ∧
    (ok = true ↔ is_Some (rg_listen env) ∧ rg_record env = true ∧
                 0 ≤ rg_add_record env) ∧
    m_coord m1 = m_coord m ∧ m_adapter_addr m1 = addr ∧
    m_server m1 = (if ok then rg_listen env else None) ∧
    (ok = false → ipc_register ∉ m_calls m →
     ipc_register ∉ m_calls m1) ∧
    bt_a2dp_unregister (set_coord c m1) = Some m2 ∧
    m_server m2 = None ∧ m_record_id m2 = 0 ∧
    m_calls m2 =
      m_calls m1 ++
      [ipc_unregister; audio_ipc_unregister;
       bt_adapter_remove_record
         (if ok then rg_handle env else m_record_id m)] ++
      match (if ok then rg_listen env else None) with
      | Some srv => [server_shutdown srv; server_unref srv]
      | None => []
      end ++ [audio_ipc_cleanup].
Proof.
  intros Hok.
  assert (Hun : ∀ m1, ∃ m2,
            bt_a2dp_unregister (set_coord c m1) = Some m2 ∧
            m_server m2 = None ∧ m_record_id m2 = 0 ∧
            m_calls m2 =
              m_calls m1 ++
              [ipc_unregister; audio_ipc_unregister;
               bt_adapter_remove_record (m_record_id m1)] ++
              match m_server m1 with
              | Some srv => [server_shutdown srv; server_unref srv]
              | None => []
              end ++ [audio_ipc_cleanup]).
  { intros m1.
    destruct (bt_a2dp_unregister_spec (set_coord c m1) Hok)
      as (m2 & t & H & _ & _ & _ & _ & _ & _ & _ & Hr & Hs & Hc).
    exists m2. by split_and!. }
  assert (Hreg : ∃ ok m1,
            bt_a2dp_register addr env m = (ok, m1) ∧
            (ok = true ↔ is_Some (rg_listen env) ∧ rg_record env = true ∧
                         0 ≤ rg_add_record env) ∧
            m_coord m1 = m_coord m ∧ m_adapter_addr m1 = addr ∧
            m_server m1 = (if ok then rg_listen env else None) ∧
            (ok = false → ipc_register ∉ m_calls m →
             ipc_register ∉ m_calls m1) ∧
            m_record_id m1 = (if ok then rg_handle env else m_record_id m)).
  { assert (Hnin : ∀ l : list module_call, ipc_register ∉ l →
              ∀ k, k ≠ ipc_register → ipc_register ∉ l ++ [k]).
    { intros l Hl k Hk [?|Hin]%elem_of_app; [done|].
      apply list_elem_of_singleton in Hin. congruence. }
    unfold bt_a2dp_register, register_fail.
    destruct (rg_listen env) as [srv|] eqn:Hl.
    - destruct (rg_record env) eqn:Hr; cbn [negb].
      + destruct (Z.ltb_spec (rg_add_record env) 0) as [Hneg|Hpos].
        * eexists false, _. split; [reflexivity|].
          split; [split; [done | intros (_ & _ & ?); lia]|].
          split_and!; try done.
          intros _ Hn. cbn. repeat apply Hnin; done.
        * eexists true, _. split; [reflexivity|].
          split; [split; [intros _; split_and!; by eauto | done]|].
          by split_and!.
      + eexists false, _. split; [reflexivity|].
        split; [split; [done | intros (_ & ? & _); done]|].
        split_and!; try done.
        intros _ Hn. cbn. repeat apply Hnin; done.
    - eexists false, _. split; [reflexivity|].
      split; [split; [done | intros ([? ?] & _); done]|].
      split_and!; try done.
      intros _ Hn. cbn. repeat apply Hnin; done. }
  destruct Hreg as (ok & m1 & H1 & Hiff & Hc1 & Ha1 & Hs1 & Hn1 & Hr1).
  destruct (Hun m1) as (m2 & H2 & Hs2 & Hr2 & Hc2).
  exists ok, m1, m2. rewrite Hr1, Hs1 in Hc2. by split_and!.
Qed.

Lemma register_then_unregister_witness :
  ∃ m1 m2,
    bt_a2dp_register addr_A
      {| rg_listen := Some 7%nat; rg_record := true; rg_add_record := 0;
         rg_handle := 65537 |} module_init = (true, m1) ∧
    bt_a2dp_unregister (set_coord coordinator_init m1) = Some m2 ∧
    m_record_id m2 = 0 ∧
    bt_adapter_remove_record 65537 ∈ m_calls m2.
Proof.
  destruct (register_then_unregister addr_A
              {| rg_listen := Some 7%nat; rg_record := true;
                 rg_add_record := 0; rg_handle := 65537 |}
              module_init coordinator_init)
    as (ok & m1 & m2 & H1 & _ & _ & _ & _ & _ & H2 & _ & H3 & H4).
  - split; cbn; intros; try apply NoDup_nil_2;
      match goal with H : _ ∈ [] |- _ => by apply elem_of_nil in H end.
  - vm_compute in H1. injection H1 as <- <-.
    eexists _, m2. split; [reflexivity|].
    split; [exact H2|]. split; [exact H3|].
    rewrite H4. cbn. repeat first [left | right].
Defined.
